(** * Timed-histogram scopes of V8 ([src/logging/counters-scopes.h])

    A shallow embedding of the scope classes of [counters-scopes.h] and the
    properties of their nesting protocol.

    The header is modelled as it is compiled in a release build: a [DCHECK]
    compiles to nothing (its argument is not evaluated) and the blocks under
    [#ifdef DEBUG] are absent.  Objects that are reached through pointers
    (histograms, nested scopes) live in a store and are named by their
    address; objects that nobody points to are plain values.  All methods
    run in a state-and-fault monad over that store.

    The header uses, and does not define, the timer ([base::ElapsedTimer]),
    the clock, the histograms with their scope stack ([counters.h]), the
    counters and the event logger ([log.h]).  Their models follow the
    specification and say so. *)

From stdpp Require Import base option list gmap strings.
From Stdlib Require Import ZArith Lia.

Local Open Scope Z_scope.

(** ** Outcomes *)

Inductive fault :=
| NullDereference   (* a method was called through a null pointer *)
| InvalidPointer    (* a pointer that names no live object *)
| TimerContract     (* a timer operation outside the states the timer defines *)
| NoLiveScope.      (* the driver was asked to end a scope when none is live *)

Inductive result (A : Type) :=
| Ok (a : A)
| Fault (f : fault).
Arguments Ok {A} a.
Arguments Fault {A} f.

#[global] Instance fault_eq_dec : EqDecision fault.
Proof. solve_decision. Defined.

(** ** Time and the timer *)

(** [base::TimeTicks] and [base::TimeDelta] both count microseconds. *)
Abbreviation TimeTicks := Z (only parsing).
Abbreviation TimeDelta := Z (only parsing).

Inductive timer_phase :=
| Stopped
| Running (since : TimeTicks)
| Paused.

(** Modelled from the spec: [base::ElapsedTimer] is declared outside this
    header.  "Timer value: accumulated elapsed duration plus an internal
    running/paused state; paused timers do not advance; resuming restarts
    advancement from the resume instant." *)
Record ElapsedTimer := mkTimer {
  accumulated : TimeDelta;
  phase : timer_phase
}.

#[global] Instance timer_phase_eq_dec : EqDecision timer_phase.
Proof. solve_decision. Defined.
#[global] Instance ElapsedTimer_eq_dec : EqDecision ElapsedTimer.
Proof. solve_decision. Defined.

Module Timer.

(** Modelled from the spec: a default-constructed timer has not started. *)
Definition fresh : ElapsedTimer := mkTimer 0 Stopped.

(** Modelled from the spec: [start(t)] of the Timer interface. *)
Definition Start (now : TimeTicks) (t : ElapsedTimer) : result ElapsedTimer :=
  match phase t with
  | Stopped => Ok (mkTimer 0 (Running now))
  | _ => Fault TimerContract
  end.

(** Modelled from the spec: [elapsed(t)], "(now - timer's internal
    running-start) accumulated across pause/resume cycles". *)
Definition Elapsed (now : TimeTicks) (t : ElapsedTimer) : result TimeDelta :=
  match phase t with
  | Running since => Ok (accumulated t + (now - since))
  | Paused => Ok (accumulated t)
  | Stopped => Fault TimerContract
  end.

(** Modelled from the spec: [pause(t)]; a paused timer does not advance. *)
Definition Pause (now : TimeTicks) (t : ElapsedTimer) : result ElapsedTimer :=
  match phase t with
  | Running since => Ok (mkTimer (accumulated t + (now - since)) Paused)
  | _ => Fault TimerContract
  end.

(** Modelled from the spec: [resume(t)] restarts advancement from the
    resume instant. *)
Definition Resume (now : TimeTicks) (t : ElapsedTimer) : result ElapsedTimer :=
  match phase t with
  | Paused => Ok (mkTimer (accumulated t) (Running now))
  | _ => Fault TimerContract
  end.

(** Modelled from the spec: [stop()]. *)
Definition Stop (t : ElapsedTimer) : result ElapsedTimer :=
  match phase t with
  | Stopped => Fault TimerContract
  | _ => Ok (mkTimer 0 Stopped)
  end.

Definition advancing (t : ElapsedTimer) : bool :=
  match phase t with Running _ => true | _ => false end.

Definition paused (t : ElapsedTimer) : bool :=
  match phase t with Paused => true | _ => false end.

End Timer.

(** ** Objects *)

Abbreviation hist_id := positive (only parsing).  (* TimedHistogram* / NestedTimedHistogram* *)
Abbreviation scope_id := nat (only parsing).      (* NestedTimedHistogramScope*              *)
Abbreviation Isolate := positive (only parsing).  (* Isolate*                                *)

(** Modelled from the spec: [TimedHistogram] and [NestedTimedHistogram] are
    declared in [counters.h].  "Histogram: identified by a name; has an
    enabled flag (read-only to this core); accumulates completed duration
    samples; owns a mutable current top of stack reference (nullable) used
    only by the Nested Scope family." *)
Record TimedHistogram := mkHistogram {
  hist_name : string;
  hist_enabled : bool;
  hist_samples : list TimeDelta;
  current_ : option scope_id
}.

Inductive LogEventStatus := kStart | kEnd.

(** One call of [Logger::CallEventLogger(isolate, name, se, expose_to_api)]. *)
Record LogEvent := mkEvent {
  ev_isolate : option Isolate;
  ev_name : string;
  ev_status : LogEventStatus;
  ev_expose_to_api : bool
}.

Inductive OptionalTimedHistogramScopeMode := TAKE_TIME | DONT_TAKE_TIME.
Inductive LongTaskRecordMode := kSkip | kRecord.

#[global] Instance LogEventStatus_eq_dec : EqDecision LogEventStatus.
Proof. solve_decision. Defined.
#[global] Instance LogEvent_eq_dec : EqDecision LogEvent.
Proof. solve_decision. Defined.
#[global] Instance OptionalMode_eq_dec : EqDecision OptionalTimedHistogramScopeMode.
Proof. solve_decision. Defined.
#[global] Instance LongTaskRecordMode_eq_dec : EqDecision LongTaskRecordMode.
Proof. solve_decision. Defined.

(** [class BaseTimedHistogramScope]: [timer_] and [histogram_]. *)
Record BaseTimedHistogramScope := mkBase {
  timer_ : ElapsedTimer;
  histogram_ : option hist_id
}.

(** [class TimedHistogramScope : BaseTimedHistogramScope] adds [isolate_]. *)
Record TimedHistogramScope := mkTimed {
  timed_base : BaseTimedHistogramScope;
  timed_isolate_ : option Isolate
}.

(** [class OptionalTimedHistogramScope : BaseTimedHistogramScope] adds
    [isolate_] and [mode_]. *)
Record OptionalTimedHistogramScope := mkOptional {
  opt_base : BaseTimedHistogramScope;
  opt_isolate_ : option Isolate;
  opt_mode_ : OptionalTimedHistogramScopeMode
}.

(** [class NestedTimedHistogramScope : BaseTimedHistogramScope] adds
    [previous_scope_] and [long_task_record_mode_].  The constructor leaves
    [previous_scope_] without an initial value; only [StartInteral] writes
    it, and only [StopInternal] reads it. *)
Record NestedTimedHistogramScope := mkNested {
  nested_base : BaseTimedHistogramScope;
  previous_scope_ : option scope_id;
  long_task_record_mode_ : LongTaskRecordMode
}.

(** [class PauseNestedTimedHistogramScope]. *)
Record PauseNestedTimedHistogramScope := mkPause {
  pause_histogram_ : option hist_id;
  pause_previous_scope_ : option scope_id
}.

(** Modelled from the spec: [Counters] is declared in [counters.h]; of it the
    header uses [execute()], the designated primary-execution histogram, and
    [isolate()]. *)
Record Counters := mkCounters {
  execute : hist_id;
  isolate : Isolate
}.

(** ** The store *)

Record World := mkWorld {
  clock : TimeTicks;
  histograms : gmap hist_id TimedHistogram;
  counters : Counters;
  scopes : gmap scope_id NestedTimedHistogramScope;
  next_scope : scope_id;
  events : list LogEvent;
  v8_execute_us : Z      (* isolate()->GetCurrentLongTaskStats()->v8_execute_us *)
}.

Definition with_clock (t : TimeTicks) (w : World) : World :=
  mkWorld t (histograms w) (counters w) (scopes w) (next_scope w) (events w)
          (v8_execute_us w).
Definition with_histograms (hs : gmap hist_id TimedHistogram) (w : World) : World :=
  mkWorld (clock w) hs (counters w) (scopes w) (next_scope w) (events w)
          (v8_execute_us w).
Definition with_scopes (ss : gmap scope_id NestedTimedHistogramScope) (w : World) : World :=
  mkWorld (clock w) (histograms w) (counters w) ss (next_scope w) (events w)
          (v8_execute_us w).
Definition with_next_scope (n : scope_id) (w : World) : World :=
  mkWorld (clock w) (histograms w) (counters w) (scopes w) n (events w)
          (v8_execute_us w).
Definition with_events (es : list LogEvent) (w : World) : World :=
  mkWorld (clock w) (histograms w) (counters w) (scopes w) (next_scope w) es
          (v8_execute_us w).
Definition with_v8_execute_us (n : Z) (w : World) : World :=
  mkWorld (clock w) (histograms w) (counters w) (scopes w) (next_scope w)
          (events w) n.

(** ** The monad *)

Definition M (A : Type) : Type := World → result (A * World).

#[global] Instance M_ret : MRet M := λ A a w, Ok (a, w).
#[global] Instance M_bind : MBind M := λ A B f m w,
  match m w with
  | Ok (a, w') => f a w'
  | Fault e => Fault e
  end.

Definition raise {A} (e : fault) : M A := λ _, Fault e.
Definition get : M World := λ w, Ok (w, w).
Definition modify (f : World → World) : M unit := λ w, Ok (tt, f w).
Definition lift {A} (r : result A) : M A := λ w,
  match r with Ok a => Ok (a, w) | Fault e => Fault e end.
Definition when (b : bool) (m : M unit) : M unit := if b then m else mret tt.

(** Modelled from the spec: [base::TimeTicks::HighResolutionNow()], the
    clock, "now() -> monotonic timestamp".  The caller lets it advance
    between two calls. *)
Definition HighResolutionNow : M TimeTicks := λ w, Ok (clock w, w).

(** Modelled from the spec: the event logger is declared in [log.h];
    "onEvent(contextHandle, name, status), fire-and-forget".  The model
    records every call with the handle it was given. *)
Definition CallEventLogger (iso : option Isolate) (name : string)
    (se : LogEventStatus) (expose_to_api : bool) : M unit :=
  modify (λ w, with_events (events w ++ [mkEvent iso name se expose_to_api]) w).

(** ** Histogram methods, called through a pointer *)

Module Histogram.

(** Following a histogram pointer. *)
Definition deref (p : option hist_id) : M (hist_id * TimedHistogram) :=
  match p with
  | None => raise NullDereference
  | Some h =>
      w ← get;
      match histograms w !! h with
      | Some H => mret (h, H)
      | None => raise InvalidPointer
      end
  end.

Definition store (h : hist_id) (H : TimedHistogram) : M unit :=
  modify (λ w, with_histograms (<[h := H]> (histograms w)) w).

(** Modelled from the spec: [enabled() -> bool]. *)
Definition Enabled (p : option hist_id) : M bool :=
  '(_, H) ← deref p; mret (hist_enabled H).

(** Modelled from the spec: [name() -> string]. *)
Definition name (p : option hist_id) : M string :=
  '(_, H) ← deref p; mret (hist_name H).

(** Modelled from the spec: [addSample(duration)] records a completed
    sample duration. *)
Definition AddTimedSample (p : option hist_id) (sample : TimeDelta) : M unit :=
  '(h, H) ← deref p;
  store h (mkHistogram (hist_name H) (hist_enabled H)
                       (hist_samples H ++ [sample]) (current_ H)).

(** Modelled from the spec: "Enter (push, returns previous top)". *)
Definition Enter (p : option hist_id) (next : option scope_id)
    : M (option scope_id) :=
  '(h, H) ← deref p;
  store h (mkHistogram (hist_name H) (hist_enabled H) (hist_samples H) next);;
  mret (current_ H).

(** Modelled from the spec: "Leave (pop to a given previous top)". *)
Definition Leave (p : option hist_id) (previous : option scope_id) : M unit :=
  '(h, H) ← deref p;
  store h (mkHistogram (hist_name H) (hist_enabled H) (hist_samples H) previous).

(** Modelled from the spec: [counters()] of a [NestedTimedHistogram], the
    one [Counters] object of the context. *)
Definition counters (p : option hist_id) : M Counters :=
  _ ← deref p; w ← get; mret (counters w).

End Histogram.

(** ** [BaseTimedHistogramScope] *)

Module Base.

Definition with_timer (t : ElapsedTimer) (s : BaseTimedHistogramScope) :=
  mkBase t (histogram_ s).

(** [void StartInternal()]: [timer_.Start()] reads the clock itself. *)
Definition StartInternal (s : BaseTimedHistogramScope) : M BaseTimedHistogramScope :=
  now ← HighResolutionNow;
  t ← lift (Timer.Start now (timer_ s));
  mret (with_timer t s).

(** [void StopInternal()] *)
Definition StopInternal (s : BaseTimedHistogramScope) : M BaseTimedHistogramScope :=
  now ← HighResolutionNow;
  elapsed ← lift (Timer.Elapsed now (timer_ s));
  Histogram.AddTimedSample (histogram_ s) elapsed;;
  t ← lift (Timer.Stop (timer_ s));
  mret (with_timer t s).

(** [void Start()] *)
Definition Start (s : BaseTimedHistogramScope) : M BaseTimedHistogramScope :=
  en ← Histogram.Enabled (histogram_ s);
  if (en : bool) then StartInternal s else mret s.

(** [void Stop()] *)
Definition Stop (s : BaseTimedHistogramScope) : M BaseTimedHistogramScope :=
  en ← Histogram.Enabled (histogram_ s);
  if (en : bool) then StopInternal s else mret s.

(** [void LogStart(Isolate* isolate)] *)
Definition LogStart (s : BaseTimedHistogramScope) (iso : option Isolate) : M unit :=
  n ← Histogram.name (histogram_ s);
  CallEventLogger iso n kStart true.

(** [void LogEnd(Isolate* isolate)] *)
Definition LogEnd (s : BaseTimedHistogramScope) (iso : option Isolate) : M unit :=
  n ← Histogram.name (histogram_ s);
  CallEventLogger iso n kEnd true.

End Base.

(** ** [TimedHistogramScope], the plain scope *)

Module Timed.

(** [TimedHistogramScope(TimedHistogram* histogram, Isolate* isolate)] *)
Definition ctor (histogram : option hist_id) (iso : option Isolate)
    : M TimedHistogramScope :=
  let this := mkBase Timer.fresh histogram in
  this ← Base.Start this;
  when (bool_decide (is_Some iso)) (Base.LogStart this iso);;
  mret (mkTimed this iso).

(** [~TimedHistogramScope()] *)
Definition dtor (s : TimedHistogramScope) : M unit :=
  this ← Base.Stop (timed_base s);
  when (bool_decide (is_Some (timed_isolate_ s)))
       (Base.LogEnd this (timed_isolate_ s)).

End Timed.

(** ** [OptionalTimedHistogramScope] *)

Module Optional.

Definition ctor (histogram : option hist_id) (iso : option Isolate)
    (mode : OptionalTimedHistogramScopeMode) : M OptionalTimedHistogramScope :=
  let this := mkBase Timer.fresh histogram in
  if bool_decide (mode ≠ TAKE_TIME) then mret (mkOptional this iso mode)
  else
    this ← Base.Start this;
    Base.LogStart this iso;;
    mret (mkOptional this iso mode).

Definition dtor (s : OptionalTimedHistogramScope) : M unit :=
  if bool_decide (opt_mode_ s ≠ TAKE_TIME) then mret tt
  else
    this ← Base.Stop (opt_base s);
    Base.LogEnd this (opt_isolate_ s).

End Optional.

(** ** [LazyTimedHistogramScope] *)

Module Lazy.

(** [LazyTimedHistogramScope() : BaseTimedHistogramScope(nullptr)] *)
Definition ctor : M BaseTimedHistogramScope :=
  let this := mkBase Timer.fresh None in
  now ← HighResolutionNow;
  t ← lift (Timer.Start now (timer_ this));
  mret (Base.with_timer t this).

(** [~LazyTimedHistogramScope()] *)
Definition dtor (s : BaseTimedHistogramScope) : M unit :=
  _ ← Base.Stop s; mret tt.

(** [void set_histogram(TimedHistogram* histogram)] *)
Definition set_histogram (s : BaseTimedHistogramScope)
    (histogram : option hist_id) : M BaseTimedHistogramScope :=
  mret (mkBase (timer_ s) histogram).

End Lazy.

(** ** [NestedTimedHistogramScope]

    Nested scopes are pointed to by their histogram ([current_]) and by the
    scopes entered above them ([previous_scope_]), so every method takes
    [this] as an address and works on the object in the store. *)

Module Nested.

Definition load (p : option scope_id) : M (scope_id * NestedTimedHistogramScope) :=
  match p with
  | None => raise NullDereference
  | Some a =>
      w ← get;
      match scopes w !! a with
      | Some self => mret (a, self)
      | None => raise InvalidPointer
      end
  end.

Definition store (a : scope_id) (self : NestedTimedHistogramScope) : M unit :=
  modify (λ w, with_scopes (<[a := self]> (scopes w)) w).

Definition with_timer (t : ElapsedTimer) (self : NestedTimedHistogramScope) :=
  mkNested (Base.with_timer t (nested_base self)) (previous_scope_ self)
           (long_task_record_mode_ self).

Definition with_previous_scope (p : option scope_id)
    (self : NestedTimedHistogramScope) :=
  mkNested (nested_base self) p (long_task_record_mode_ self).

(** [NestedTimedHistogram* timed_histogram() const] *)
Definition timed_histogram (this : scope_id) : M (option hist_id) :=
  '(_, self) ← load (Some this); mret (histogram_ (nested_base self)).

(** [Isolate* isolate() const] *)
Definition isolate (this : scope_id) : M (option Isolate) :=
  h ← timed_histogram this;
  c ← Histogram.counters h;
  mret (Some (isolate c)).

(** The member [previous_scope_] of [*this]. *)
Definition previous_scope (this : scope_id) : M (option scope_id) :=
  '(_, self) ← load (Some this); mret (previous_scope_ self).

(** [void Pause(base::TimeTicks now)], called as [p->Pause(now)]. *)
Definition Pause (p : option scope_id) (now : TimeTicks) : M unit :=
  '(a, self) ← load p;
  t ← lift (Timer.Pause now (timer_ (nested_base self)));
  store a (with_timer t self).

(** [void Resume(base::TimeTicks now)], called as [p->Resume(now)]. *)
Definition Resume (p : option scope_id) (now : TimeTicks) : M unit :=
  '(a, self) ← load p;
  t ← lift (Timer.Resume now (timer_ (nested_base self)));
  store a (with_timer t self).

(** [void StartInteral()] *)
Definition StartInteral (this : scope_id) : M unit :=
  h ← timed_histogram this;
  previous ← Histogram.Enter h (Some this);
  '(_, self) ← load (Some this);
  store this (with_previous_scope previous self);;
  now ← HighResolutionNow;
  previous ← previous_scope this;
  when (bool_decide (is_Some previous)) (Pause previous now);;
  '(_, self) ← load (Some this);
  t ← lift (Timer.Start now (timer_ (nested_base self)));
  store this (with_timer t self).

(** [void Start()] *)
Definition Start (this : scope_id) : M unit :=
  '(_, self) ← load (Some this);
  en ← Histogram.Enabled (histogram_ (nested_base self));
  when en (StartInteral this);;
  iso ← isolate this;
  Base.LogStart (nested_base self) iso.

(** [void RecordLongTaskTime(base::TimeDelta elapsed) const] *)
Definition RecordLongTaskTime (this : scope_id) (elapsed : TimeDelta) : M unit :=
  '(_, self) ← load (Some this);
  h ← timed_histogram this;
  c ← Histogram.counters h;
  when (bool_decide (histogram_ (nested_base self) = Some (execute c)))
       (_ ← isolate this;
        modify (λ w, with_v8_execute_us (v8_execute_us w + elapsed) w)).

(** [void StopInternal()] *)
Definition StopInternal (this : scope_id) : M unit :=
  h ← timed_histogram this;
  previous ← previous_scope this;
  Histogram.Leave h previous;;
  now ← HighResolutionNow;
  '(_, self) ← load (Some this);
  elapsed ← lift (Timer.Elapsed now (timer_ (nested_base self)));
  Histogram.AddTimedSample (histogram_ (nested_base self)) elapsed;;
  when (bool_decide (long_task_record_mode_ self = kRecord))
       (RecordLongTaskTime this elapsed);;
  previous ← previous_scope this;
  when (bool_decide (is_Some previous)) (Resume previous now).

(** [void Stop()] *)
Definition Stop (this : scope_id) : M unit :=
  '(_, self) ← load (Some this);
  en ← Histogram.Enabled (histogram_ (nested_base self));
  when en (StopInternal this);;
  iso ← isolate this;
  Base.LogEnd (nested_base self) iso.

(** Storage for a new scope object, at an address never used before. *)
Definition alloc (self : NestedTimedHistogramScope) : M scope_id := λ w,
  let a := next_scope w in
  Ok (a, with_next_scope (S a) (with_scopes (<[a := self]> (scopes w)) w)).

(** The storage of a destroyed scope is gone. *)
Definition free (a : scope_id) : M unit :=
  modify (λ w, with_scopes (delete a (scopes w)) w).

(** [NestedTimedHistogramScope(NestedTimedHistogram* histogram,
     LongTaskRecordMode long_task_record_mode = kSkip)] *)
Definition ctor (histogram : option hist_id)
    (long_task_record_mode : LongTaskRecordMode) : M scope_id :=
  this ← alloc (mkNested (mkBase Timer.fresh histogram) None
                         long_task_record_mode);
  Start this;;
  mret this.

(** [~NestedTimedHistogramScope()] *)
Definition dtor (this : scope_id) : M unit :=
  Stop this;;
  free this.

End Nested.

(** ** [LongTaskNestedTimedHistogramScope] *)

Module LongTaskNested.

Definition ctor (histogram : option hist_id) : M scope_id :=
  Nested.ctor histogram kRecord.

End LongTaskNested.

(** ** [PauseNestedTimedHistogramScope] *)

Module PauseNested.

(** [void Pause()] *)
Definition Pause (this : PauseNestedTimedHistogramScope)
    : M PauseNestedTimedHistogramScope :=
  previous ← Histogram.Enter (pause_histogram_ this) None;
  let this := mkPause (pause_histogram_ this) previous in
  when (bool_decide (is_Some (pause_previous_scope_ this)))
       (now ← HighResolutionNow;
        Nested.Pause (pause_previous_scope_ this) now);;
  mret this.

(** [void Resume()] *)
Definition Resume (this : PauseNestedTimedHistogramScope) : M unit :=
  Histogram.Leave (pause_histogram_ this) (pause_previous_scope_ this);;
  now ← HighResolutionNow;
  Nested.Resume (pause_previous_scope_ this) now.

(** [PauseNestedTimedHistogramScope(NestedTimedHistogram* histogram)] *)
Definition ctor (histogram : option hist_id) : M PauseNestedTimedHistogramScope :=
  let this := mkPause histogram None in
  en ← Histogram.Enabled (pause_histogram_ this);
  if (en : bool) then Pause this else mret this.

(** [~PauseNestedTimedHistogramScope()]: [&&] evaluates
    [histogram_->Enabled()] only when [previous_scope_] is not null. *)
Definition dtor (this : PauseNestedTimedHistogramScope) : M unit :=
  match pause_previous_scope_ this with
  | None => mret tt
  | Some _ =>
      en ← Histogram.Enabled (pause_histogram_ this);
      when en (Resume this)
  end.

End PauseNested.

(** ** The caller

    Scopes are objects with automatic storage: the caller constructs them
    in its frames and the language destroys them in the reverse order of
    their construction.  The driver keeps the live scope objects, innermost
    first, and lets time pass between two calls.  A lazy scope is given its
    histogram while it is live, whatever was constructed after it:
    [SetHistogram i h] calls [set_histogram(h)] on the live object at
    position [i], counted from the innermost. *)

Inductive scope_object :=
| ATimed (s : TimedHistogramScope)
| AOptional (s : OptionalTimedHistogramScope)
| ALazy (s : BaseTimedHistogramScope)
| ANested (this : scope_id)
| APause (s : PauseNestedTimedHistogramScope).

Inductive action :=
| Elapse (d : N)
| NewTimed (histogram : option hist_id) (iso : option Isolate)
| NewOptional (histogram : option hist_id) (iso : option Isolate)
              (mode : OptionalTimedHistogramScopeMode)
| NewLazy
| SetHistogram (i : nat) (histogram : option hist_id)
| NewNested (histogram : option hist_id) (mode : LongTaskRecordMode)
| NewLongTaskNested (histogram : option hist_id)
| NewPause (histogram : option hist_id)
| EndScope.

Record Machine := mkMachine {
  world : World;
  live : list scope_object
}.

Definition construct (m : Machine) (c : M scope_object) : result Machine :=
  match c (world m) with
  | Ok (o, w) => Ok (mkMachine w (o :: live m))
  | Fault e => Fault e
  end.

Definition destroy (o : scope_object) : M unit :=
  match o with
  | ATimed s => Timed.dtor s
  | AOptional s => Optional.dtor s
  | ALazy s => Lazy.dtor s
  | ANested this => Nested.dtor this
  | APause s => PauseNested.dtor s
  end.

Definition step (m : Machine) (a : action) : result Machine :=
  match a with
  | Elapse d => Ok (mkMachine (with_clock (clock (world m) + Z.of_N d) (world m)) (live m))
  | NewTimed h iso => construct m (s ← Timed.ctor h iso; mret (ATimed s))
  | NewOptional h iso mode => construct m (s ← Optional.ctor h iso mode; mret (AOptional s))
  | NewLazy => construct m (s ← Lazy.ctor; mret (ALazy s))
  | SetHistogram i h =>
      match live m !! i with
      | Some (ALazy s) =>
          match Lazy.set_histogram s h (world m) with
          | Ok (s', w) => Ok (mkMachine w (<[i := ALazy s']> (live m)))
          | Fault e => Fault e
          end
      | _ => Fault NoLiveScope
      end
  | NewNested h mode => construct m (this ← Nested.ctor h mode; mret (ANested this))
  | NewLongTaskNested h => construct m (this ← LongTaskNested.ctor h; mret (ANested this))
  | NewPause h => construct m (s ← PauseNested.ctor h; mret (APause s))
  | EndScope =>
      match live m with
      | o :: rest =>
          match destroy o (world m) with
          | Ok (_, w) => Ok (mkMachine w rest)
          | Fault e => Fault e
          end
      | [] => Fault NoLiveScope
      end
  end.

Fixpoint run (m : Machine) (prog : list action) : result Machine :=
  match prog with
  | [] => Ok m
  | a :: rest =>
      match step m a with
      | Ok m' => run m' rest
      | Fault e => Fault e
      end
  end.

(** A context before any measurement: the given histograms, no scope
    object, no log event, the clock at [t0]. *)
Definition idle_histogram (name : string) (enabled : bool) : TimedHistogram :=
  mkHistogram name enabled [] None.

Definition boot (t0 : TimeTicks) (hs : gmap hist_id TimedHistogram)
    (c : Counters) : Machine :=
  mkMachine (mkWorld t0 hs c ∅ 0%nat [] 0) [].

(** ** Observations *)

Definition samples_of (h : hist_id) (w : World) : list TimeDelta :=
  match histograms w !! h with
  | Some H => hist_samples H
  | None => []
  end.

Definition top_of (h : hist_id) (w : World) : option scope_id :=
  match histograms w !! h with
  | Some H => current_ H
  | None => None
  end.

(** The store a call leaves behind, if it returns. *)
Definition after {A} (r : result (A * World)) : option World :=
  match r with Ok (_, w) => Some w | Fault _ => None end.

(** ** An example context

    Two histograms, the enabled execute histogram [H1] and a disabled
    one, [H2]. *)
Module Example.
Definition H1 : hist_id := 1%positive.
Definition H2 : hist_id := 2%positive.
Definition iso : Isolate := 7%positive.
Definition hs : gmap hist_id TimedHistogram :=
  {[ H1 := idle_histogram "V8.Execute" true; H2 := idle_histogram "V8.GC" false ]}.
Definition cs : Counters := mkCounters H1 iso.
Definition m0 : Machine := boot 0 hs cs.
End Example.

(** ** Shorthands for the effect of one call *)

Definition long_task_share (w : World) (h : hist_id) (mode : LongTaskRecordMode)
    (elapsed : TimeDelta) : Z :=
  if bool_decide (mode = kRecord ∧ h = execute (counters w)) then elapsed else 0.

Definition set_top (top : option scope_id) (H : TimedHistogram) : TimedHistogram :=
  mkHistogram (hist_name H) (hist_enabled H) (hist_samples H) top.

Definition add_sample (d : TimeDelta) (H : TimedHistogram) : TimedHistogram :=
  mkHistogram (hist_name H) (hist_enabled H) (hist_samples H ++ [d]) (current_ H).

Definition start_event (w : World) (H : TimedHistogram) : LogEvent :=
  mkEvent (Some (isolate (counters w))) (hist_name H) kStart true.

Definition end_event (w : World) (H : TimedHistogram) : LogEvent :=
  mkEvent (Some (isolate (counters w))) (hist_name H) kEnd true.

(** ** The footprint of a pause scope *)

(** Two histograms that differ at most in their stack top, and two nested
    scopes that differ at most in their timer. *)
Definition same_but_top (o o' : option TimedHistogram) : Prop :=
  match o, o' with
  | Some H, Some H' =>
      hist_name H' = hist_name H ∧ hist_enabled H' = hist_enabled H
      ∧ hist_samples H' = hist_samples H
  | None, None => True
  | _, _ => False
  end.

Definition same_but_timer (o o' : option NestedTimedHistogramScope) : Prop :=
  match o, o' with
  | Some s, Some s' => s' = Nested.with_timer (timer_ (nested_base s')) s
  | None, None => True
  | _, _ => False
  end.

(** What a pause scope on histogram [h] with captured previous scope [p] may
    change between [w] and [w']: the stack top of [h] and the timer of [p]. *)
Definition pause_footprint (h : option hist_id) (p : option scope_id)
    (w w' : World) : Prop :=
  clock w' = clock w
  ∧ counters w' = counters w
  ∧ next_scope w' = next_scope w
  ∧ events w' = events w
  ∧ v8_execute_us w' = v8_execute_us w
  ∧ (∀ h', same_but_top (histograms w !! h') (histograms w' !! h')
           ∧ (Some h' ≠ h → histograms w' !! h' = histograms w !! h'))
  ∧ (∀ a, same_but_timer (scopes w !! a) (scopes w' !! a)
          ∧ (Some a ≠ p → scopes w' !! a = scopes w !! a)).

(** ** Scenario B: a pause inside one scope *)

Module ScenarioB.
Import Example.
(** Scope A entered at t=0, five microseconds later. *)
Definition wA : World :=
  mkWorld 5
    (<[H1 := set_top (Some 0%nat) (idle_histogram "V8.Execute" true)]> hs)
    cs
    {[ 0%nat := mkNested (mkBase (mkTimer 0 (Running 0)) (Some H1)) None kSkip ]}
    1%nat
    [mkEvent (Some iso) "V8.Execute" kStart true]
    0.
Definition A_paused : NestedTimedHistogramScope :=
  mkNested (mkBase (mkTimer 5 Paused) (Some H1)) None kSkip.
(** The pause scope created at t=5, twenty microseconds later. *)
Definition wP : World :=
  mkWorld 25
    (<[H1 := set_top None (idle_histogram "V8.Execute" true)]> hs)
    cs
    {[ 0%nat := A_paused ]}
    1%nat
    [mkEvent (Some iso) "V8.Execute" kStart true]
    0.
(** The same store right after the pause scope was created. *)
Definition wQ : World :=
  mkWorld 5
    (<[H1 := set_top None (idle_histogram "V8.Execute" true)]> hs)
    cs
    {[ 0%nat := A_paused ]}
    1%nat
    [mkEvent (Some iso) "V8.Execute" kStart true]
    0.
Definition prog : list action :=
  [NewNested (Some H1) kSkip; Elapse 5; NewPause (Some H1); Elapse 20;
   EndScope; Elapse 15; EndScope].
End ScenarioB.

(** ** A long-task scope about to be left *)

Module ScenarioLongTask.
Import Example.
(** A long-task scope on the execute histogram, entered at t=0, ten
    microseconds later. *)
Definition self : NestedTimedHistogramScope :=
  mkNested (mkBase (mkTimer 0 (Running 0)) (Some H1)) None kRecord.
Definition mL : Machine :=
  mkMachine
    (mkWorld 10
       (<[H1 := set_top (Some 0%nat) (idle_histogram "V8.Execute" true)]> hs)
       cs {[ 0%nat := self ]} 1%nat
       [mkEvent (Some iso) "V8.Execute" kStart true] 0)
    [ANested 0%nat].
End ScenarioLongTask.

(** ** Self time of a nesting, in the words of the specification

    A well-formed nesting on one histogram is a sequence of enter, leave
    and wait events in which no leave comes without an open scope.  The
    specification gives each scope the sample "(time at Leave) - (time at
    Enter) - the sum of the intervals during which it was paused by
    children"; [Spec.step] computes exactly that, keeping for every open
    scope its enter time and the intervals its children have covered so
    far. *)

Inductive nest_event :=
| Enter (mode : LongTaskRecordMode)
| Leave
| Wait (d : N).

Definition to_action (h : hist_id) (e : nest_event) : action :=
  match e with
  | Enter mode => NewNested (Some h) mode
  | Leave => EndScope
  | Wait d => Elapse d
  end.

Module Spec.

Record open_scope := mkOpen {
  entered : TimeTicks;
  covered_by_children : TimeDelta
}.

Record state := mkState {
  now : TimeTicks;
  open : list open_scope;       (* innermost first *)
  recorded : list TimeDelta     (* in the order the scopes were left *)
}.

Definition init (t0 : TimeTicks) : state := mkState t0 [] [].

(** The parent of a scope that was open over [interval] was paused for
    that long. *)
Definition charge_parent (interval : TimeDelta) (os : list open_scope)
    : list open_scope :=
  match os with
  | [] => []
  | parent :: rest =>
      mkOpen (entered parent) (covered_by_children parent + interval) :: rest
  end.

Definition step (s : state) (e : nest_event) : option state :=
  match e with
  | Wait d => Some (mkState (now s + Z.of_N d) (open s) (recorded s))
  | Enter _ => Some (mkState (now s) (mkOpen (now s) 0 :: open s) (recorded s))
  | Leave =>
      match open s with
      | [] => None
      | self :: rest =>
          let interval := now s - entered self in
          Some (mkState (now s) (charge_parent interval rest)
                        (recorded s ++ [interval - covered_by_children self]))
      end
  end.

Fixpoint run (s : state) (es : list nest_event) : option state :=
  match es with
  | [] => Some s
  | e :: rest =>
      match step s e with
      | Some s' => run s' rest
      | None => None
      end
  end.

End Spec.

(** The timers of the open scopes of histogram [h], innermost first, against
    the specification's bookkeeping: the innermost timer runs and reads
    "time since enter minus time covered by children" at any instant; an
    outer timer is paused at the value it read when its open child
    entered. *)
Fixpoint timers_match (ss : gmap scope_id NestedTimedHistogramScope)
    (h : hist_id) (child_entered : option TimeTicks)
    (ids : list scope_id) (os : list Spec.open_scope) : Prop :=
  match ids, os with
  | [], [] => True
  | a :: ids', o :: os' =>
      (∃ sc,
         ss !! a = Some sc
         ∧ histogram_ (nested_base sc) = Some h
         ∧ previous_scope_ sc = head ids'
         ∧ match child_entered with
           | None =>
               ∃ since,
                 phase (timer_ (nested_base sc)) = Running since
                 ∧ accumulated (timer_ (nested_base sc)) - since
                   = - Spec.entered o - Spec.covered_by_children o
           | Some tc =>
               phase (timer_ (nested_base sc)) = Paused
               ∧ accumulated (timer_ (nested_base sc))
                 = (tc - Spec.entered o) - Spec.covered_by_children o
           end)
      ∧ timers_match ss h (Some (Spec.entered o)) ids' os'
  | _, _ => False
  end.

Definition simulates (h : hist_id) (base : list TimeDelta)
    (ids : list scope_id) (m : Machine) (s : Spec.state) : Prop :=
  live m = ANested <$> ids
  ∧ clock (world m) = Spec.now s
  ∧ (∃ H, histograms (world m) !! h = Some H
          ∧ hist_enabled H = true
          ∧ current_ H = head ids
          ∧ hist_samples H = base ++ Spec.recorded s)
  ∧ (∀ a, a ∈ ids → (a < next_scope (world m))%nat)
  ∧ NoDup ids
  ∧ timers_match (scopes (world m)) h None ids (Spec.open s).

(** Scenarios A and D of the specification. *)
Module ScenarioA.
Definition events : list nest_event :=
  [Enter kSkip; Wait 10; Enter kSkip; Wait 20; Leave; Wait 20; Leave].
End ScenarioA.

Module ScenarioD.
Definition events : list nest_event :=
  [Enter kSkip; Wait 10; Enter kSkip; Wait 10; Enter kSkip; Wait 30; Leave;
   Wait 30; Leave; Wait 20; Leave].
End ScenarioD.

(** ** The previous-chain of a scope stack *)

(** [on_chain ss top a]: scope [a] is reached from [top] by following
    [previous_scope_] pointers in the store [ss]. *)
Inductive on_chain (ss : gmap nat NestedTimedHistogramScope)
    : option nat → nat → Prop :=
| chain_here a : on_chain ss (Some a) a
| chain_previous a sc b :
    ss !! a = Some sc →
    on_chain ss (previous_scope_ sc) b →
    on_chain ss (Some a) b.

(** The scope on top runs its timer; every scope below it on the chain is
    paused. *)
Definition chain_discipline (w : World) (top : nat) : Prop :=
  ∀ a, on_chain (scopes w) (Some top) a →
       ∃ sc, scopes w !! a = Some sc
             ∧ (if decide (a = top)
                then Timer.advancing (timer_ (nested_base sc))
                else Timer.paused (timer_ (nested_base sc))) = true.

(** The claim read literally asks for a running top whenever some nested
    scope of the histogram is live. *)
Definition nested_scope_active (h : positive) (m : Machine) : Prop :=
  ∃ a sc, ANested a ∈ live m
          ∧ scopes (world m) !! a = Some sc
          ∧ histogram_ (nested_base sc) = Some h.

Definition one_timer_advancing (h : positive) (w : World) : Prop :=
  ∃ top, top_of h w = Some top ∧ chain_discipline w top.

(** ** The scope stack as the caller's live objects determine it *)

Fixpoint nested_ids (fs : list scope_object) : list nat :=
  match fs with
  | [] => []
  | ANested a :: rest => a :: nested_ids rest
  | _ :: rest => nested_ids rest
  end.

Definition scope_histogram (ss : gmap nat NestedTimedHistogramScope) (a : nat)
    : option positive :=
  match ss !! a with
  | Some sc => histogram_ (nested_base sc)
  | None => None
  end.

(** The stack top of histogram [h] that the live objects call for: the
    innermost live nested scope or pause scope of [h] decides. *)
Fixpoint expected_top (ss : gmap nat NestedTimedHistogramScope) (h : positive)
    (fs : list scope_object) : option nat :=
  match fs with
  | [] => None
  | ANested a :: rest =>
      if decide (scope_histogram ss a = Some h) then Some a
      else expected_top ss h rest
  | APause s :: rest =>
      if decide (pause_histogram_ s = Some h) then None
      else expected_top ss h rest
  | _ :: rest => expected_top ss h rest
  end.

Definition phase_flag (innermost : bool) (t : ElapsedTimer) : bool :=
  if innermost then Timer.advancing t else Timer.paused t.

(** Every live scope of [h] remembers the top it found, and only the
    innermost one, if it is a nested scope, runs its timer. *)
Fixpoint frames_ok (ss : gmap nat NestedTimedHistogramScope) (h : positive)
    (innermost : bool) (fs : list scope_object) : Prop :=
  match fs with
  | [] => True
  | ANested a :: rest =>
      if decide (scope_histogram ss a = Some h) then
        (∃ sc, ss !! a = Some sc
               ∧ previous_scope_ sc = expected_top ss h rest
               ∧ phase_flag innermost (timer_ (nested_base sc)) = true)
        ∧ frames_ok ss h false rest
      else frames_ok ss h innermost rest
  | APause s :: rest =>
      if decide (pause_histogram_ s = Some h) then
        pause_previous_scope_ s = expected_top ss h rest
        ∧ frames_ok ss h false rest
      else frames_ok ss h innermost rest
  | _ :: rest => frames_ok ss h innermost rest
  end.

Definition stack_invariant (m : Machine) : Prop :=
  (∀ a, a ∈ nested_ids (live m) → (a < next_scope (world m))%nat)
  ∧ NoDup (nested_ids (live m))
  ∧ ∀ h H,
      histograms (world m) !! h = Some H →
      hist_enabled H = true →
      current_ H = expected_top (scopes (world m)) h (live m)
      ∧ frames_ok (scopes (world m)) h true (live m).

(** The innermost live object of histogram [h] is a pause scope: the stack
    of [h] is suspended. *)
Fixpoint suspended (ss : gmap nat NestedTimedHistogramScope) (h : positive)
    (fs : list scope_object) : Prop :=
  match fs with
  | [] => False
  | ANested a :: rest =>
      if decide (scope_histogram ss a = Some h) then False
      else suspended ss h rest
  | APause s :: rest =>
      if decide (pause_histogram_ s = Some h) then True
      else suspended ss h rest
  | _ :: rest => suspended ss h rest
  end.

(** Claim C2 for one state.  For every enabled histogram the stack top is
    what the live objects call for: the innermost live object of the
    histogram if that is a nested scope, null if it is a pause scope or if
    there is none.  Of the live nested scopes of the histogram the one on
    top runs its timer and every other one is paused. *)
Definition timers_disciplined (m : Machine) : Prop :=
  ∀ h H,
    histograms (world m) !! h = Some H →
    hist_enabled H = true →
    current_ H = expected_top (scopes (world m)) h (live m)
    ∧ ∀ a,
        ANested a ∈ live m →
        scope_histogram (scopes (world m)) a = Some h →
        ∃ sc, scopes (world m) !! a = Some sc
              ∧ (if decide (current_ H = Some a)
                 then Timer.advancing (timer_ (nested_base sc))
                 else Timer.paused (timer_ (nested_base sc))) = true.

(** Store [ss'] looks like [ss] at address [a] as far as histogram [h] can
    tell. *)
Definition agree (h : positive) (ss ss' : gmap nat NestedTimedHistogramScope)
    (a : nat) : Prop :=
  ss' !! a = ss !! a
  ∨ (scope_histogram ss a ≠ Some h
     ∧ scope_histogram ss' a = scope_histogram ss a).

(** What a scope that takes no part in any scope stack may change. *)
Definition stacks_untouched (w w' : World) : Prop :=
  scopes w' = scopes w
  ∧ next_scope w' = next_scope w
  ∧ ∀ h H', histograms w' !! h = Some H' →
            ∃ H, histograms w !! h = Some H
                 ∧ hist_enabled H = hist_enabled H'
                 ∧ current_ H = current_ H'.

(** Scenario B stopped while the pause scope is live. *)
Module ScenarioSuspended.
Definition prog : list action :=
  [NewNested (Some Example.H1) kSkip; Elapse 5; NewPause (Some Example.H1)].
Definition m : Machine :=
  mkMachine ScenarioB.wQ
    [APause (mkPause (Some Example.H1) (Some 0%nat)); ANested 0%nat].
End ScenarioSuspended.

(** Scenario A stopped while scope B is live. *)
Module ScenarioNested.
Import Example.
(** Scope A entered at t=0 and scope B inside it at t=10. *)
Definition prog : list action :=
  [NewNested (Some H1) kSkip; Elapse 10; NewNested (Some H1) kSkip].
Definition top_histogram : TimedHistogram :=
  set_top (Some 1%nat) (idle_histogram "V8.Execute" true).
Definition m : Machine :=
  mkMachine
    (mkWorld 10 (<[H1 := top_histogram]> hs) cs
       {[ 0%nat := mkNested (mkBase (mkTimer 10 Paused) (Some H1)) None kSkip;
          1%nat := mkNested (mkBase (mkTimer 0 (Running 10)) (Some H1))
                            (Some 0%nat) kSkip ]}
       2%nat
       [mkEvent (Some iso) "V8.Execute" kStart true;
        mkEvent (Some iso) "V8.Execute" kStart true]
       0)
    [ANested 1%nat; ANested 0%nat].
End ScenarioNested.

(** * More of the header *)

(** ** Plain, optional and lazy scopes *)

(** The event a plain scope logs: none without an isolate. *)
Definition plain_log (iso : option Isolate) (H : TimedHistogram)
    (se : LogEventStatus) : list LogEvent :=
  match iso with
  | Some _ => [mkEvent iso (hist_name H) se true]
  | None => []
  end.

(** The store after a base scope has stopped on histogram [h], found as [H]
    in [w]: one more sample if the histogram is enabled. *)
Definition stopped (h : hist_id) (H : TimedHistogram) (elapsed : TimeDelta)
    (w : World) : World :=
  if hist_enabled H
  then with_histograms (<[h := add_sample elapsed H]> (histograms w)) w
  else w.

(** ** Nestings with pause scopes: the bookkeeping to compare with

    A nesting on one histogram may also hold pause scopes.  The reference
    bookkeeping [PSpec] excludes from a scope's sample every interval over
    which one of its direct children, nested scope or pause scope, was
    open; a scope entered under a pause scope is a child of the pause
    scope, not of the scope the pause suspended.  A scope in record mode on
    the primary execution histogram also adds its sample to the long-task
    total. *)

Inductive pevent :=
| PEnter (mode : LongTaskRecordMode)
| PPause
| PLeave
| PWait (d : N).

Definition to_paction (h : hist_id) (e : pevent) : action :=
  match e with
  | PEnter mode => NewNested (Some h) mode
  | PPause => NewPause (Some h)
  | PLeave => EndScope
  | PWait d => Elapse d
  end.

Module PSpec.

Inductive entry :=
| OScope (entered : TimeTicks) (covered : TimeDelta) (mode : LongTaskRecordMode)
| OPause (started : TimeTicks).

Record state := mkState {
  now : TimeTicks;
  open : list entry;          (* innermost first *)
  recorded : list TimeDelta;  (* in the order the scopes were left *)
  long_task : TimeDelta
}.

Definition init (t0 : TimeTicks) : state := mkState t0 [] [] 0.

(** The object under one that was open over [interval], if it is a scope,
    was paused for that long. *)
Definition charge (interval : TimeDelta) (os : list entry) : list entry :=
  match os with
  | OScope e c mode :: rest => OScope e (c + interval) mode :: rest
  | _ => os
  end.

Definition step (primary : bool) (s : state) (e : pevent) : option state :=
  match e with
  | PWait d => Some (mkState (now s + Z.of_N d) (open s) (recorded s) (long_task s))
  | PEnter mode =>
      Some (mkState (now s) (OScope (now s) 0 mode :: open s) (recorded s)
                    (long_task s))
  | PPause =>
      Some (mkState (now s) (OPause (now s) :: open s) (recorded s) (long_task s))
  | PLeave =>
      match open s with
      | [] => None
      | OScope e c mode :: rest =>
          let sample := (now s - e) - c in
          Some (mkState (now s) (charge (now s - e) rest)
                        (recorded s ++ [sample])
                        (long_task s
                         + if primary && bool_decide (mode = kRecord)
                           then sample else 0))
      | OPause st :: rest =>
          Some (mkState (now s) (charge (now s - st) rest) (recorded s)
                        (long_task s))
      end
  end.

Fixpoint run (primary : bool) (s : state) (es : list pevent) : option state :=
  match es with
  | [] => Some s
  | e :: rest =>
      match step primary s e with
      | Some s' => run primary s' rest
      | None => None
      end
  end.

End PSpec.

(** The stack top that the caller's innermost live object calls for, when
    all live objects are nested scopes and pause scopes of one histogram. *)
Definition ptop (fs : list scope_object) : option scope_id :=
  match fs with
  | ANested a :: _ => Some a
  | _ => None
  end.

(** The live objects against the specification's open entries;
    [inner_start] is the instant at which the next object further in was
    created, if there is one. *)
Fixpoint pmatch (ss : gmap scope_id NestedTimedHistogramScope) (h : hist_id)
    (inner_start : option TimeTicks) (fs : list scope_object)
    (os : list PSpec.entry) : Prop :=
  match fs, os with
  | [], [] => True
  | ANested a :: fs', PSpec.OScope e c mode :: os' =>
      (∃ sc,
         ss !! a = Some sc
         ∧ histogram_ (nested_base sc) = Some h
         ∧ long_task_record_mode_ sc = mode
         ∧ previous_scope_ sc = ptop fs'
         ∧ match inner_start with
           | None =>
               ∃ since,
                 phase (timer_ (nested_base sc)) = Running since
                 ∧ accumulated (timer_ (nested_base sc)) - since = - e - c
           | Some t =>
               phase (timer_ (nested_base sc)) = Paused
               ∧ accumulated (timer_ (nested_base sc)) = (t - e) - c
           end)
      ∧ pmatch ss h (Some e) fs' os'
  | APause s :: fs', PSpec.OPause st :: os' =>
      (pause_histogram_ s = Some h ∧ pause_previous_scope_ s = ptop fs')
      ∧ pmatch ss h (Some st) fs' os'
  | _, _ => False
  end.

Definition psimulates (h : hist_id) (base : list TimeDelta) (v0 : Z)
    (c : Counters) (m : Machine) (s : PSpec.state) : Prop :=
  clock (world m) = PSpec.now s
  ∧ counters (world m) = c
  ∧ (∃ H, histograms (world m) !! h = Some H
          ∧ hist_enabled H = true
          ∧ current_ H = ptop (live m)
          ∧ hist_samples H = base ++ PSpec.recorded s)
  ∧ v8_execute_us (world m) = v0 + PSpec.long_task s
  ∧ (∀ a, a ∈ nested_ids (live m) → (a < next_scope (world m))%nat)
  ∧ NoDup (nested_ids (live m))
  ∧ pmatch (scopes (world m)) h None (live m) (PSpec.open s).

(** ** Totals over a nesting *)

Definition total (l : list TimeDelta) : TimeDelta := foldr Z.add 0 l.

(** The time a sequence of events spends while the innermost open object is
    a nested scope; [kinds] tells, innermost first, which of the objects
    open at the start are nested scopes. *)
Fixpoint time_measured (kinds : list bool) (es : list pevent) : TimeDelta :=
  match es with
  | [] => 0
  | PWait d :: rest =>
      (match kinds with true :: _ => Z.of_N d | _ => 0 end)
      + time_measured kinds rest
  | PEnter _ :: rest => time_measured (true :: kinds) rest
  | PPause :: rest => time_measured (false :: kinds) rest
  | PLeave :: rest => time_measured (tail kinds) rest
  end.

Definition time_in_scopes (es : list pevent) : TimeDelta := time_measured [] es.

Definition is_scope (o : PSpec.entry) : bool :=
  match o with PSpec.OScope _ _ _ => true | PSpec.OPause _ => false end.

(** What the open scopes would record were they all left now without any
    further wait; [inner_start] as in [pmatch]. *)
Fixpoint pending (inner_start : option TimeTicks) (now : TimeTicks)
    (os : list PSpec.entry) : TimeDelta :=
  match os with
  | [] => 0
  | PSpec.OScope e c _ :: rest =>
      (match inner_start with None => now | Some t => t end - e - c)
      + pending (Some e) now rest
  | PSpec.OPause st :: rest => pending (Some st) now rest
  end.

(** A nesting in which every scope is a
    [LongTaskNestedTimedHistogramScope]. *)
Definition to_long_task_action (h : hist_id) (e : pevent) : action :=
  match e with
  | PEnter _ => NewLongTaskNested (Some h)
  | _ => to_paction h e
  end.

Definition as_record (e : pevent) : pevent :=
  match e with
  | PEnter _ => PEnter kRecord
  | _ => e
  end.

Definition all_record (os : list PSpec.entry) : Prop :=
  Forall (λ o, match o with
               | PSpec.OScope _ _ mode => mode = kRecord
               | PSpec.OPause _ => True
               end) os.

(** Scope A; a pause scope inside it; scope B inside the pause. *)
Module ScenarioInsidePause.
Definition events : list pevent :=
  [PEnter kSkip; PWait 5; PPause; PWait 3; PEnter kSkip; PWait 4; PLeave;
   PWait 2; PLeave; PWait 6; PLeave].
Definition final : PSpec.state := PSpec.mkState 20 [] [4; 11] 0.
End ScenarioInsidePause.

(** Two long-task scopes, one inside the other, with a pause in the outer. *)
Module ScenarioLongTasks.
Definition events : list pevent :=
  [PEnter kSkip; PWait 10; PEnter kSkip; PWait 20; PLeave; PPause; PWait 7;
   PLeave; PWait 20; PLeave].
Definition final : PSpec.state := PSpec.mkState 57 [] [20; 30] 50.
End ScenarioLongTasks.

(** ** What no scope ever changes *)

(** Between [w] and [w1] no histogram appears or disappears, none changes
    its name or its enabled flag, and a disabled one does not change at
    all. *)
Definition hist_frame (w w1 : World) : Prop :=
  ∀ h,
    match histograms w !! h, histograms w1 !! h with
    | Some H, Some H1 =>
        hist_name H1 = hist_name H
        ∧ hist_enabled H1 = hist_enabled H
        ∧ (hist_enabled H = false → H1 = H)
    | None, None => True
    | _, _ => False
    end.

(** The clock and the counters stay, the histograms change as [hist_frame]
    allows, and the store holds the scopes it held, plus [born], minus
    [gone]. *)
Definition call_frame (born gone : option scope_id) (w w1 : World) : Prop :=
  clock w1 = clock w
  ∧ counters w1 = counters w
  ∧ hist_frame w w1
  ∧ next_scope w1 = match born with
                    | Some _ => S (next_scope w)
                    | None => next_scope w
                    end
  ∧ (∀ a, is_Some (scopes w1 !! a)
          ↔ (Some a = born ∨ is_Some (scopes w !! a)) ∧ Some a ≠ gone)
  ∧ ∀ a sc,
      scopes w !! a = Some sc → Some a ≠ gone → Some a ≠ born →
      ∃ sc', scopes w1 !! a = Some sc'
             ∧ histogram_ (nested_base sc') = histogram_ (nested_base sc).

(** ** The log *)

Definition statuses (w : World) : list LogEventStatus :=
  ev_status <$> events w.

(** Whether a live object has logged a start event and will log the end
    event when it is destroyed. *)
Definition logs (o : scope_object) : bool :=
  match o with
  | ATimed s => bool_decide (is_Some (timed_isolate_ s))
  | AOptional s => bool_decide (opt_mode_ s = TAKE_TIME)
  | ANested _ => true
  | ALazy _ | APause _ => false
  end.

Definition starts_of (l : list LogEventStatus) : nat :=
  length (filter (λ se, se = kStart) l).

Definition ends_of (l : list LogEventStatus) : nat :=
  length (filter (λ se, se = kEnd) l).

Definition owed (fs : list scope_object) : nat :=
  length (filter (λ o, logs o = true) fs).

(** What a reachable state keeps beyond the scope stacks: the store holds
    exactly the live nested scopes, and the log has one start event more
    than end events for every live object that logs. *)
Definition hygiene (m : Machine) : Prop :=
  (∀ a, is_Some (scopes (world m) !! a) ↔ a ∈ nested_ids (live m))
  ∧ (∀ a, a ∈ nested_ids (live m) → (a < next_scope (world m))%nat)
  ∧ NoDup (nested_ids (live m))
  ∧ starts_of (statuses (world m))
    = (ends_of (statuses (world m)) + owed (live m))%nat.

(** ** What the caller owes *)








(** ** Samples *)

(** A timer that has accumulated no negative time and, if it runs, was
    started or resumed no later than [now]. *)
Definition timer_sane (now : TimeTicks) (t : ElapsedTimer) : Prop :=
  0 ≤ accumulated t ∧ ∀ since, phase t = Running since → since ≤ now.

(** The timer that a live object carries itself; the timer of a nested
    scope is in the store. *)
Definition object_timer (o : scope_object) : option ElapsedTimer :=
  match o with
  | ATimed s => Some (timer_ (timed_base s))
  | AOptional s => Some (timer_ (opt_base s))
  | ALazy s => Some (timer_ s)
  | ANested _ | APause _ => None
  end.

Definition store_sane (w : World) : Prop :=
  ∀ a sc, scopes w !! a = Some sc →
          timer_sane (clock w) (timer_ (nested_base sc)).

Definition timers_sane (m : Machine) : Prop :=
  store_sane (world m)
  ∧ Forall (λ o, ∀ t, object_timer o = Some t → timer_sane (clock (world m)) t)
           (live m).

(** Every histogram of [w] is in [w1] with the samples it had, in their
    order, followed by samples that are not negative. *)
Definition grows (w w1 : World) : Prop :=
  ∀ h H,
    histograms w !! h = Some H →
    ∃ H1 new,
      histograms w1 !! h = Some H1
      ∧ hist_samples H1 = hist_samples H ++ new
      ∧ Forall (λ x, 0 ≤ x) new.

(** ** Several histograms *)

(** What a caller does with nested scopes and pause scopes of several
    histograms. *)
Inductive mevent :=
| MEnter (h : hist_id) (mode : LongTaskRecordMode)
| MPause (h : hist_id)
| MLeave
| MWait (d : N).

Definition to_maction (e : mevent) : action :=
  match e with
  | MEnter h mode => NewNested (Some h) mode
  | MPause h => NewPause (Some h)
  | MLeave => EndScope
  | MWait d => Elapse d
  end.

(** The events of histogram [h] among [es], with every wait; [opened]
    tells, innermost first, which of the open objects belong to [h]. *)
Fixpoint own_events (h : hist_id) (opened : list bool) (es : list mevent)
    : list pevent :=
  match es with
  | [] => []
  | MWait d :: rest => PWait d :: own_events h opened rest
  | MEnter k mode :: rest =>
      if decide (k = h) then PEnter mode :: own_events h (true :: opened) rest
      else own_events h (false :: opened) rest
  | MPause k :: rest =>
      if decide (k = h) then PPause :: own_events h (true :: opened) rest
      else own_events h (false :: opened) rest
  | MLeave :: rest =>
      match opened with
      | true :: opened' => PLeave :: own_events h opened' rest
      | false :: opened' => own_events h opened' rest
      | [] => []
      end
  end.

(** The live objects that [opened] marks. *)
Fixpoint select (opened : list bool) (fs : list scope_object)
    : list scope_object :=
  match opened, fs with
  | true :: opened', o :: fs' => o :: select opened' fs'
  | false :: opened', _ :: fs' => select opened' fs'
  | _, _ => []
  end.

(** The mark of a live object says whether it belongs to [h]. *)
Definition tag_ok (ss : gmap scope_id NestedTimedHistogramScope) (h : hist_id)
    (b : bool) (o : scope_object) : Prop :=
  match o with
  | ANested a => b = bool_decide (scope_histogram ss a = Some h)
  | APause s => b = bool_decide (pause_histogram_ s = Some h)
  | _ => False
  end.

(** The objects of [h] among the live objects follow the specification's
    bookkeeping for [h]. *)
Definition among (h : hist_id) (base : list TimeDelta) (c : Counters)
    (opened : list bool) (m : Machine) (s : PSpec.state) : Prop :=
  stack_invariant m
  ∧ hygiene m
  ∧ Forall2 (tag_ok (scopes (world m)) h) opened (live m)
  ∧ ∃ v0, psimulates h base v0 c
            (mkMachine (world m) (select opened (live m))) s
          ∧ (h = execute c → v0 = 0).

(** Two enabled histograms with interleaved scopes: scope A of the first
    entered at t=0, scope B of the second at t=10, A paused from t=30 to
    t=35, B left at t=35 and A at t=39. *)
Module ScenarioTwoHistograms.
Definition hs : gmap hist_id TimedHistogram :=
  <[1%positive := idle_histogram "V8.Execute" true]>
    {[ 2%positive := idle_histogram "V8.Compile" true ]}.
Definition events : list mevent :=
  [MEnter 1 kSkip; MWait 10; MEnter 2 kSkip; MWait 20; MPause 1; MWait 5;
   MLeave; MLeave; MWait 4; MLeave].
End ScenarioTwoHistograms.
(** * Properties *)

(** ** Symbolic execution of the methods *)

Ltac mcbv :=
  cbv [mbind M_bind mret M_ret raise get modify lift when HighResolutionNow
       CallEventLogger
       Histogram.deref Histogram.store Histogram.Enabled Histogram.name
       Histogram.AddTimedSample Histogram.Enter Histogram.Leave Histogram.counters
       Base.with_timer Base.StartInternal Base.StopInternal Base.Start Base.Stop
       Base.LogStart Base.LogEnd
       Timed.ctor Timed.dtor Optional.ctor Optional.dtor
       Lazy.ctor Lazy.dtor Lazy.set_histogram
       Nested.load Nested.store Nested.with_timer Nested.with_previous_scope
       Nested.timed_histogram Nested.isolate Nested.previous_scope
       Nested.Pause Nested.Resume Nested.StartInteral Nested.Start
       Nested.RecordLongTaskTime Nested.StopInternal Nested.Stop
       Nested.alloc Nested.free Nested.ctor Nested.dtor LongTaskNested.ctor
       PauseNested.Pause PauseNested.Resume PauseNested.ctor PauseNested.dtor
       Timer.Start Timer.Elapsed Timer.Pause Timer.Resume Timer.Stop Timer.fresh
       with_clock with_histograms with_scopes with_next_scope with_events
       with_v8_execute_us];
  cbn [clock histograms counters scopes next_scope events v8_execute_us
       timer_ histogram_ nested_base previous_scope_ long_task_record_mode_
       pause_histogram_ pause_previous_scope_ hist_name hist_enabled
       hist_samples current_ timed_base timed_isolate_ opt_base opt_isolate_
       opt_mode_ accumulated phase fst snd].

Ltac mrun :=
  repeat first
    [ progress mcbv
    | rewrite lookup_insert_eq
    | rewrite lookup_insert_ne by (congruence || lia)
    | match goal with
      | |- context [bool_decide ?P] =>
          first [ rewrite (bool_decide_eq_true_2 P) by (done || congruence)
                | rewrite (bool_decide_eq_false_2 P)
                    by (congruence || (intros [? ?]; congruence)) ]
      end
    | match goal with H : _ = _ |- _ => progress rewrite H end ].

Ltac mhyps :=
  cbn [clock histograms counters scopes next_scope events v8_execute_us
       timer_ histogram_ nested_base previous_scope_ long_task_record_mode_
       pause_histogram_ pause_previous_scope_ hist_name hist_enabled
       hist_samples current_ timed_base timed_isolate_ opt_base opt_isolate_
       opt_mode_ accumulated phase fst snd] in *.

Ltac mcases :=
  repeat (case_match; mcbv; mhyps; simplify_map_eq; try done).

Ltac map_norm :=
  apply map_eq; intros ?;
  rewrite ?lookup_insert, ?lookup_delete;
  repeat (case_decide; simplify_eq; rewrite ?lookup_insert, ?lookup_delete);
  try done.

Ltac drun :=
  repeat (progress (cbv [run step construct destroy boot]; cbn [world live]) || mrun).

(** ** What each nested-scope and pause-scope call computes *)

Lemma nested_ctor_disabled w h H mode :
  histograms w !! h = Some H →
  hist_enabled H = false →
  Nested.ctor (Some h) mode w
  = Ok (next_scope w,
        mkWorld (clock w) (histograms w) (counters w)
          (<[next_scope w := mkNested (mkBase Timer.fresh (Some h)) None mode]>
             (scopes w))
          (S (next_scope w)) (events w ++ [start_event w H]) (v8_execute_us w)).
Proof. intros Hh Hen. mrun. reflexivity. Qed.

Lemma nested_ctor_idle w h H mode :
  histograms w !! h = Some H →
  hist_enabled H = true →
  current_ H = None →
  Nested.ctor (Some h) mode w
  = Ok (next_scope w,
        mkWorld (clock w)
          (<[h := set_top (Some (next_scope w)) H]> (histograms w))
          (counters w)
          (<[next_scope w :=
               mkNested (mkBase (mkTimer 0 (Running (clock w))) (Some h)) None mode]>
             (scopes w))
          (S (next_scope w)) (events w ++ [start_event w H]) (v8_execute_us w)).
Proof.
  intros Hh Hen Htop. mrun. unfold set_top, start_event. rewrite Hen.
  do 3 f_equal. map_norm.
Qed.

Lemma nested_ctor_top w h H mode p sp since :
  histograms w !! h = Some H →
  hist_enabled H = true →
  current_ H = Some p →
  scopes w !! p = Some sp →
  phase (timer_ (nested_base sp)) = Running since →
  p ≠ next_scope w →
  Nested.ctor (Some h) mode w
  = Ok (next_scope w,
        mkWorld (clock w)
          (<[h := set_top (Some (next_scope w)) H]> (histograms w))
          (counters w)
          (<[next_scope w :=
               mkNested (mkBase (mkTimer 0 (Running (clock w))) (Some h)) (Some p) mode]>
             (<[p := Nested.with_timer
                       (mkTimer (accumulated (timer_ (nested_base sp))
                                 + (clock w - since)) Paused) sp]>
                (scopes w)))
          (S (next_scope w)) (events w ++ [start_event w H]) (v8_execute_us w)).
Proof.
  intros Hh Hen Htop Hp Hph Hne. mrun. unfold set_top, start_event. rewrite Hen.
  do 3 f_equal. map_norm.
Qed.

Lemma nested_dtor_disabled w this self h H :
  scopes w !! this = Some self →
  histogram_ (nested_base self) = Some h →
  histograms w !! h = Some H →
  hist_enabled H = false →
  Nested.dtor this w
  = Ok (tt, mkWorld (clock w) (histograms w) (counters w)
              (delete this (scopes w)) (next_scope w)
              (events w ++ [end_event w H]) (v8_execute_us w)).
Proof. intros Hs Hsh Hh Hen. mrun. reflexivity. Qed.

Lemma nested_dtor_last w this self h H since :
  scopes w !! this = Some self →
  histogram_ (nested_base self) = Some h →
  histograms w !! h = Some H →
  hist_enabled H = true →
  phase (timer_ (nested_base self)) = Running since →
  previous_scope_ self = None →
  let elapsed := accumulated (timer_ (nested_base self)) + (clock w - since) in
  Nested.dtor this w
  = Ok (tt, mkWorld (clock w)
              (<[h := add_sample elapsed (set_top None H)]> (histograms w))
              (counters w) (delete this (scopes w)) (next_scope w)
              (events w ++ [end_event w H])
              (v8_execute_us w
               + long_task_share w h (long_task_record_mode_ self) elapsed)).
Proof.
  intros Hs Hsh Hh Hen Hph Hprev elapsed. unfold long_task_share.
  destruct (long_task_record_mode_ self) eqn:Hmode;
    [|destruct (decide (h = execute (counters w))) as [->|Hne]].
  all: mrun; unfold add_sample, set_top, end_event; cbn; rewrite ?Hen, ?Z.add_0_r.
  all: do 3 f_equal; map_norm.
Qed.

Lemma nested_dtor_inner w this self h H since p sp :
  scopes w !! this = Some self →
  histogram_ (nested_base self) = Some h →
  histograms w !! h = Some H →
  hist_enabled H = true →
  phase (timer_ (nested_base self)) = Running since →
  previous_scope_ self = Some p →
  p ≠ this →
  scopes w !! p = Some sp →
  phase (timer_ (nested_base sp)) = Paused →
  let elapsed := accumulated (timer_ (nested_base self)) + (clock w - since) in
  Nested.dtor this w
  = Ok (tt, mkWorld (clock w)
              (<[h := add_sample elapsed (set_top (Some p) H)]> (histograms w))
              (counters w)
              (delete this
                 (<[p := Nested.with_timer
                           (mkTimer (accumulated (timer_ (nested_base sp)))
                                    (Running (clock w))) sp]> (scopes w)))
              (next_scope w)
              (events w ++ [end_event w H])
              (v8_execute_us w
               + long_task_share w h (long_task_record_mode_ self) elapsed)).
Proof.
  intros Hs Hsh Hh Hen Hph Hprev Hne Hp Hpp elapsed. unfold long_task_share.
  destruct (long_task_record_mode_ self) eqn:Hmode;
    [|destruct (decide (h = execute (counters w))) as [->|Hne']].
  all: mrun; unfold add_sample, set_top, end_event; cbn; rewrite ?Hen, ?Z.add_0_r.
  all: do 3 f_equal; map_norm.
Qed.

Lemma pause_ctor_disabled w h H :
  histograms w !! h = Some H →
  hist_enabled H = false →
  PauseNested.ctor (Some h) w = Ok (mkPause (Some h) None, w).
Proof. intros Hh Hen. mrun. reflexivity. Qed.

Lemma pause_ctor_idle w h H :
  histograms w !! h = Some H →
  hist_enabled H = true →
  current_ H = None →
  PauseNested.ctor (Some h) w = Ok (mkPause (Some h) None, w).
Proof.
  intros Hh Hen Htop. mrun. do 2 f_equal.
  destruct w as [c hs cs ss n es v]; cbn in *. f_equal.
  apply insert_id. rewrite Hh. f_equal. destruct H; cbn in *; congruence.
Qed.

Lemma pause_ctor_top w h H p sp since :
  histograms w !! h = Some H →
  hist_enabled H = true →
  current_ H = Some p →
  scopes w !! p = Some sp →
  phase (timer_ (nested_base sp)) = Running since →
  PauseNested.ctor (Some h) w
  = Ok (mkPause (Some h) (Some p),
        with_scopes
          (<[p := Nested.with_timer
                    (mkTimer (accumulated (timer_ (nested_base sp))
                              + (clock w - since)) Paused) sp]> (scopes w))
          (with_histograms (<[h := set_top None H]> (histograms w)) w)).
Proof.
  intros Hh Hen Htop Hp Hph. mrun. unfold set_top. by rewrite Hen.
Qed.

Lemma pause_dtor_none h w :
  PauseNested.dtor (mkPause h None) w = Ok (tt, w).
Proof. reflexivity. Qed.

Lemma pause_dtor_disabled w h H p :
  histograms w !! h = Some H →
  hist_enabled H = false →
  PauseNested.dtor (mkPause (Some h) (Some p)) w = Ok (tt, w).
Proof. intros Hh Hen. mrun. reflexivity. Qed.

Lemma pause_dtor_top w h H p sp :
  histograms w !! h = Some H →
  hist_enabled H = true →
  scopes w !! p = Some sp →
  phase (timer_ (nested_base sp)) = Paused →
  PauseNested.dtor (mkPause (Some h) (Some p)) w
  = Ok (tt,
        with_scopes
          (<[p := Nested.with_timer
                    (mkTimer (accumulated (timer_ (nested_base sp)))
                             (Running (clock w))) sp]> (scopes w))
          (with_histograms (<[h := set_top (Some p) H]> (histograms w)) w)).
Proof.
  intros Hh Hen Hp Hph. mrun. unfold set_top. by rewrite Hen.
Qed.

(** ** The caller's steps *)

Lemma step_elapse m d :
  step m (Elapse d)
  = Ok (mkMachine (with_clock (clock (world m) + Z.of_N d) (world m)) (live m)).
Proof. reflexivity. Qed.

Lemma step_new_nested m h mode this w' :
  Nested.ctor h mode (world m) = Ok (this, w') →
  step m (NewNested h mode) = Ok (mkMachine w' (ANested this :: live m)).
Proof.
  intros E. cbn [step]. unfold construct, mbind, M_bind. by rewrite E.
Qed.

Lemma step_end_scope m o rest w' :
  live m = o :: rest →
  destroy o (world m) = Ok (tt, w') →
  step m EndScope = Ok (mkMachine w' rest).
Proof. intros Hl E. cbn [step]. by rewrite Hl, E. Qed.

Lemma construct_inv m c m' :
  construct m c = Ok m' →
  ∃ o w, c (world m) = Ok (o, w) ∧ m' = mkMachine w (o :: live m).
Proof.
  unfold construct. destruct (c (world m)) as [[o w]|]; [|done].
  intros [= <-]. eauto.
Qed.

Lemma bind_inv {A B} (c : M A) (f : A → M B) w b w' :
  (c ≫= f) w = Ok (b, w') →
  ∃ a w1, c w = Ok (a, w1) ∧ f a w1 = Ok (b, w').
Proof.
  unfold mbind, M_bind. destruct (c w) as [[a w1]|]; [|done]. eauto.
Qed.

Lemma construct_ret_inv {A} m (c : M A) (inj : A → scope_object) m' :
  construct m (s ← c; mret (inj s)) = Ok m' →
  ∃ s w, c (world m) = Ok (s, w) ∧ m' = mkMachine w (inj s :: live m).
Proof.
  intros (o & w & Hc & ->)%construct_inv.
  apply bind_inv in Hc as (s & w1 & Hc & [= <- <-]). eauto.
Qed.

(** ** Who may touch the long-task counter *)

Lemma timed_ctor_long_task h iso w s w1 :
  Timed.ctor h iso w = Ok (s, w1) → v8_execute_us w1 = v8_execute_us w.
Proof. mrun. intros Hr. mcases. Qed.

Lemma timed_dtor_long_task s w w1 :
  Timed.dtor s w = Ok (tt, w1) → v8_execute_us w1 = v8_execute_us w.
Proof. mrun. intros Hr. mcases. Qed.

Lemma optional_ctor_long_task h iso mode w s w1 :
  Optional.ctor h iso mode w = Ok (s, w1) → v8_execute_us w1 = v8_execute_us w.
Proof. mrun. intros Hr. mcases. Qed.

Lemma optional_dtor_long_task s w w1 :
  Optional.dtor s w = Ok (tt, w1) → v8_execute_us w1 = v8_execute_us w.
Proof. mrun. intros Hr. mcases. Qed.

Lemma lazy_dtor_long_task s w w1 :
  Lazy.dtor s w = Ok (tt, w1) → v8_execute_us w1 = v8_execute_us w.
Proof. mrun. intros Hr. mcases. Qed.

Lemma nested_ctor_long_task h mode w this w1 :
  Nested.ctor h mode w = Ok (this, w1) → v8_execute_us w1 = v8_execute_us w.
Proof. mrun. intros Hr. mcases. Qed.

Lemma pause_ctor_long_task h w s w1 :
  PauseNested.ctor h w = Ok (s, w1) → v8_execute_us w1 = v8_execute_us w.
Proof. mrun. intros Hr. mcases. Qed.

Lemma pause_dtor_long_task s w w1 :
  PauseNested.dtor s w = Ok (tt, w1) → v8_execute_us w1 = v8_execute_us w.
Proof. mrun. intros Hr. mcases. Qed.

Lemma nested_dtor_long_task this w w1 :
  Nested.dtor this w = Ok (tt, w1) →
  v8_execute_us w1 ≠ v8_execute_us w →
  ∃ self H,
    scopes w !! this = Some self
    ∧ long_task_record_mode_ self = kRecord
    ∧ histogram_ (nested_base self) = Some (execute (counters w))
    ∧ histograms w !! execute (counters w) = Some H
    ∧ hist_enabled H = true.
Proof.
  intros Hr Hv.
  destruct (scopes w !! this) as [self|] eqn:Hs; [|revert Hr; by mrun].
  destruct (histogram_ (nested_base self)) as [h|] eqn:Hsh; [|revert Hr; by mrun].
  destruct (histograms w !! h) as [H|] eqn:Hh; [|revert Hr; by mrun].
  destruct (hist_enabled H) eqn:Hen.
  2:{ rewrite (nested_dtor_disabled _ _ _ _ _ Hs Hsh Hh Hen) in Hr.
      by simplify_eq. }
  revert Hr Hv. mrun. intros Hr Hv. mcases.
  all: repeat match goal with
              | Hb : bool_decide _ = true |- _ => apply bool_decide_eq_true_1 in Hb
              end.
  all: exists self, H; split_and!; congruence.
Qed.

(** ** The footprint of a pause scope *)

Lemma same_but_top_refl o : same_but_top o o.
Proof. by destruct o. Qed.

Lemma same_but_timer_refl o : same_but_timer o o.
Proof. destruct o as [[[]]|]; done. Qed.

Lemma pause_footprint_refl h p w : pause_footprint h p w w.
Proof.
  unfold pause_footprint. split_and!; try done.
  - intros h'. split; [apply same_but_top_refl|done].
  - intros a. split; [apply same_but_timer_refl|done].
Qed.

Lemma pause_footprint_change h H top p sp t w :
  histograms w !! h = Some H →
  scopes w !! p = Some sp →
  pause_footprint (Some h) (Some p) w
    (with_scopes (<[p := Nested.with_timer t sp]> (scopes w))
       (with_histograms (<[h := set_top top H]> (histograms w)) w)).
Proof.
  intros Hh Hp. unfold pause_footprint. mcbv. split_and!; try done.
  - intros h'. rewrite lookup_insert. case_decide; simplify_eq.
    + rewrite Hh. split; [done|congruence].
    + split; [apply same_but_top_refl|done].
  - intros a. rewrite lookup_insert. case_decide; simplify_eq.
    + rewrite Hp. split; [done|congruence].
    + split; [apply same_but_timer_refl|done].
Qed.

(** ** Nested scopes compute self time incrementally *)

Lemma timers_match_ext ss ss' h ce ids os :
  (∀ a, a ∈ ids → ss' !! a = ss !! a) →
  timers_match ss h ce ids os → timers_match ss' h ce ids os.
Proof.
  revert ce os. induction ids as [|a ids IH]; intros ce [|o os] Hext; try done.
  cbn [timers_match]. intros [(sc & Ha & Hrest) Htail]; split.
  - exists sc. rewrite Hext by (apply elem_of_cons; by left). done.
  - apply IH; [|done]. intros b Hb. apply Hext, elem_of_cons. by right.
Qed.

Lemma simulation_step h base ids m s e s' :
  simulates h base ids m s →
  Spec.step s e = Some s' →
  ∃ ids' m',
    step m (to_action h e) = Ok m' ∧ simulates h base ids' m' s'.
Proof.
  intros (Hlive & Hclock & (H & Hh & Hen & Htop & Hsam) & Hfresh & Hnodup & Htim).
  destruct m as [w fs]. cbn [world live] in *. subst fs.
  destruct e as [mode| |d]; cbn [Spec.step to_action]; intros Hs.
  - (* Enter *)
    injection Hs as <-. destruct s as [t os rec]. cbn [Spec.now Spec.open Spec.recorded] in *.
    exists (next_scope w :: ids).
    destruct ids as [|p ids'].
    + eexists. split.
      { apply step_new_nested. by eapply nested_ctor_idle. }
      destruct os; [|done].
      unfold simulates.
      cbn [world live fmap list_fmap Spec.now Spec.open Spec.recorded]. mcbv.
      split_and!; try done.
      * exists (set_top (Some (next_scope w)) H).
        rewrite lookup_insert_eq. done.
      * intros a Ha. apply list_elem_of_singleton in Ha as ->. lia.
      * apply NoDup_singleton.
      * cbn. split; [|done]. eexists. rewrite lookup_insert_eq.
        split_and!; try done. exists (clock w). split; [done|]. cbn. lia.
    + destruct os as [|o os]; [done|].
      cbn [timers_match] in Htim. destruct Htim as [(sp & Hp & Hph & Hprev & since & Hrun & Hacc) Htail].
      assert (p ≠ next_scope w) as Hne.
      { specialize (Hfresh p ltac:(apply elem_of_cons; by left)). lia. }
      eexists. split.
      { apply step_new_nested. by eapply nested_ctor_top. }
      unfold simulates.
      cbn [world live fmap list_fmap Spec.now Spec.open Spec.recorded]. mcbv.
      split_and!; try done.
      * exists (set_top (Some (next_scope w)) H).
        rewrite lookup_insert_eq. done.
      * intros a Ha. apply elem_of_cons in Ha as [->|Ha]; [lia|].
        specialize (Hfresh a Ha). lia.
      * apply NoDup_cons. split; [|done]. intros Hin.
        specialize (Hfresh _ Hin). lia.
      * cbn [timers_match]. split.
        { eexists. rewrite lookup_insert_eq. split_and!; try done.
          exists (clock w). split; [done|]. cbn. lia. }
        cbn [Spec.entered]. split.
        { eexists. rewrite lookup_insert_ne by done. rewrite lookup_insert_eq.
          split_and!; try done. cbn. lia. }
        apply NoDup_cons in Hnodup as [Hnotin Hnodup'].
        eapply timers_match_ext; [|done].
        intros a Ha. rewrite !lookup_insert_ne; [done| |].
        -- intros ->. done.
        -- intros <-.
           specialize (Hfresh (next_scope w) ltac:(apply elem_of_cons; by right)).
           lia.
  - (* Leave *)
    destruct s as [t os rec]. cbn [Spec.now Spec.open Spec.recorded] in *.
    destruct os as [|o os]; [done|]. injection Hs as <-.
    destruct ids as [|a ids]; [done|].
    cbn [timers_match] in Htim.
    destruct Htim as [(sc & Ha & Hsh & Hprev & since & Hrun & Hacc) Htail].
    apply NoDup_cons in Hnodup as [Hnotin Hnodup'].
    exists ids. destruct ids as [|p ids'].
    + destruct os; [|done].
      eexists. split.
      { eapply step_end_scope; [done|]. cbn [destroy world].
        by eapply nested_dtor_last. }
      unfold simulates.
      cbn [world live fmap list_fmap Spec.now Spec.open Spec.recorded]. mcbv.
      split_and!; try done.
      * eexists. rewrite lookup_insert_eq. unfold add_sample, set_top.
        split_and!; try done. cbn [hist_samples].
        rewrite Hsam, <- app_assoc. do 3 f_equal. lia.
      * intros ? ?%elem_of_nil. done.
    + destruct os as [|o' os]; [done|]. cbn [timers_match] in Htail.
      destruct Htail as [(sp & Hp & Hph & Hpprev & Hpaused & Hpacc) Htail].
      assert (p ≠ a) as Hne.
      { intros ->. apply Hnotin, elem_of_cons. by left. }
      eexists. split.
      { eapply step_end_scope; [done|]. cbn [destroy world].
        by eapply nested_dtor_inner. }
      unfold simulates.
      cbn [world live fmap list_fmap Spec.now Spec.open Spec.recorded]. mcbv.
      split_and!; try done.
      * eexists. rewrite lookup_insert_eq. unfold add_sample, set_top.
        split_and!; try done. cbn [hist_samples].
        rewrite Hsam, <- app_assoc. do 3 f_equal. lia.
      * intros b Hb. apply Hfresh, elem_of_cons. by right.
      * cbn [timers_match Spec.charge_parent Spec.entered Spec.covered_by_children].
        split.
        { eexists. rewrite lookup_delete_ne by done. rewrite lookup_insert_eq.
          split_and!; try done. exists (clock w). split; [done|]. cbn. lia. }
        apply NoDup_cons in Hnodup' as [Hnotin' Hnodup''].
        eapply timers_match_ext; [|done].
        intros b Hb.
        rewrite lookup_delete_ne
          by (intros ->; apply Hnotin, elem_of_cons; by right).
        rewrite lookup_insert_ne by (intros ->; done). done.
  - (* Wait *)
    injection Hs as <-. exists ids. eexists. split; [apply step_elapse|].
    unfold simulates. cbn [world live Spec.now Spec.open Spec.recorded]. mcbv.
    split_and!; try done; [by rewrite Hclock|eauto].
Qed.

Lemma simulation_run h base es : ∀ ids m s s',
  simulates h base ids m s →
  Spec.run s es = Some s' →
  ∃ ids' m',
    run m (to_action h <$> es) = Ok m' ∧ simulates h base ids' m' s'.
Proof.
  induction es as [|e es IH]; intros ids m s s' Hsim Hrun.
  - injection Hrun as <-. by exists ids, m.
  - cbn [Spec.run] in Hrun.
    destruct (Spec.step s e) as [s1|] eqn:Hstep; [|done].
    destruct (simulation_step _ _ _ _ _ _ _ Hsim Hstep) as (ids1 & m1 & Hm1 & Hsim1).
    destruct (IH _ _ _ _ Hsim1 Hrun) as (ids' & m' & Hm' & Hsim').
    exists ids', m'. split; [|done].
    cbn [fmap list_fmap run]. by rewrite Hm1.
Qed.

Lemma boot_simulates t0 hs c h H :
  hs !! h = Some H →
  hist_enabled H = true →
  current_ H = None →
  simulates h (hist_samples H) [] (boot t0 hs c) (Spec.init t0).
Proof.
  intros Hh Hen Htop. unfold simulates, boot, Spec.init. cbn.
  split_and!; try done.
  - exists H. by rewrite app_nil_r.
  - intros a Ha. by apply elem_of_nil in Ha.
  - apply NoDup_nil_2.
Qed.

(** ** The scope stack mirrors the caller's live objects *)

Lemma expected_top_in ss h fs p :
  expected_top ss h fs = Some p →
  p ∈ nested_ids fs ∧ scope_histogram ss p = Some h.
Proof.
  induction fs as [|[s|s|s|a|s] fs IH]; cbn [expected_top nested_ids]; try done.
  - case_decide; [intros [= ->]|intros Hp].
    + split; [apply elem_of_cons; by left|done].
    + destruct (IH Hp). split; [apply elem_of_cons; by right|done].
  - case_decide; [done|]. done.
Qed.

Lemma agree_histogram h ss ss' a :
  agree h ss ss' a → scope_histogram ss' a = scope_histogram ss a.
Proof. intros [E|[_ E]]; [unfold scope_histogram; by rewrite E|done]. Qed.

Lemma expected_top_agree h ss ss' fs :
  (∀ a, a ∈ nested_ids fs → agree h ss ss' a) →
  expected_top ss' h fs = expected_top ss h fs.
Proof.
  induction fs as [|[s|s|s|a|s] fs IH]; cbn [expected_top nested_ids];
    intros Hag; try done; try by apply IH.
  - rewrite (agree_histogram h ss ss' a) by (apply Hag, elem_of_cons; by left).
    case_decide; [done|]. apply IH. intros b Hb. apply Hag, elem_of_cons. by right.
  - case_decide; [done|]. by apply IH.
Qed.

Lemma frames_ok_agree h ss ss' b fs :
  (∀ a, a ∈ nested_ids fs → agree h ss ss' a) →
  frames_ok ss h b fs → frames_ok ss' h b fs.
Proof.
  revert b. induction fs as [|[s|s|s|a|s] fs IH]; cbn [frames_ok nested_ids];
    intros b Hag; try done; try by apply IH.
  - assert (agree h ss ss' a) as Ha by (apply Hag, elem_of_cons; by left).
    assert (∀ x, x ∈ nested_ids fs → agree h ss ss' x) as Hag'.
    { intros x Hx. apply Hag, elem_of_cons. by right. }
    rewrite (agree_histogram h ss ss' a Ha).
    case_decide as Hrel; [|by apply IH].
    intros [(sc & Hsc & Hprev & Hph) Hrest]. split; [|by apply IH].
    destruct Ha as [E|[Hn _]]; [|done].
    exists sc. rewrite E, (expected_top_agree h ss ss' fs Hag'). done.
  - case_decide; [|by apply IH].
    rewrite (expected_top_agree h ss ss' fs Hag).
    intros [? ?]. split; [done|by apply IH].
Qed.

Lemma frames_ok_flag ss h b b' fs :
  expected_top ss h fs = None →
  frames_ok ss h b fs → frames_ok ss h b' fs.
Proof.
  induction fs as [|[s|s|s|a|s] fs IH]; cbn [frames_ok expected_top];
    try done.
  - destruct (decide (scope_histogram ss a = Some h)); [done|]. done.
  - destruct (decide (pause_histogram_ s = Some h)); [done|]. done.
Qed.

Lemma frames_ok_top ss h b fs p :
  expected_top ss h fs = Some p →
  frames_ok ss h b fs →
  ∃ sc, ss !! p = Some sc
        ∧ histogram_ (nested_base sc) = Some h
        ∧ phase_flag b (timer_ (nested_base sc)) = true.
Proof.
  induction fs as [|[s|s|s|a|s] fs IH]; cbn [frames_ok expected_top];
    try done.
  - destruct (decide (scope_histogram ss a = Some h)) as [Hrel|Hrel]; [|done].
    intros [= ->] [(sc & Hsc & _ & Hph) _]. exists sc. split_and!; try done.
    unfold scope_histogram in Hrel. by rewrite Hsc in Hrel.
  - destruct (decide (pause_histogram_ s = Some h)); [done|]. done.
Qed.

Lemma frames_ok_retime ss h fs p sp t b b' :
  NoDup (nested_ids fs) →
  expected_top ss h fs = Some p →
  ss !! p = Some sp →
  phase_flag b' t = true →
  frames_ok ss h b fs →
  expected_top (<[p := Nested.with_timer t sp]> ss) h fs = Some p
  ∧ frames_ok (<[p := Nested.with_timer t sp]> ss) h b' fs.
Proof.
  intros Hnd Htop Hp Ht. revert Hnd Htop.
  induction fs as [|[s|s|s|a|s] fs IH]; cbn [frames_ok expected_top nested_ids];
    try done; intros Hnd; try by apply IH.
  - apply NoDup_cons in Hnd as [Hnotin Hnd].
    destruct (decide (scope_histogram ss a = Some h)) as [Hrel|Hrel].
    + intros [= ->] [(sc & Hsc & Hprev & _) Hrest].
      assert (scope_histogram (<[p:=Nested.with_timer t sp]> ss) p = Some h) as Hrel'.
      { unfold scope_histogram in *. rewrite lookup_insert_eq. by rewrite Hp in Hrel. }
      assert (∀ x, x ∈ nested_ids fs →
                   agree h ss (<[p:=Nested.with_timer t sp]> ss) x) as Hag.
      { intros x Hx. left. apply lookup_insert_ne. by intros ->. }
      rewrite !decide_True by done. split; [done|]. split.
      * exists (Nested.with_timer t sp). rewrite lookup_insert_eq.
        rewrite (expected_top_agree _ _ _ _ Hag). simplify_eq. done.
      * by eapply frames_ok_agree.
    + intros Htop Hok.
      destruct (expected_top_in _ _ _ _ Htop) as [Hin Hph].
      assert (a ≠ p) as Hne by (intros ->; done).
      assert (scope_histogram (<[p:=Nested.with_timer t sp]> ss) a
              = scope_histogram ss a) as ->.
      { unfold scope_histogram. by rewrite lookup_insert_ne. }
      rewrite !decide_False by done. by apply IH.
  - destruct (decide (pause_histogram_ s = Some h)); [done|]. by apply IH.
Qed.

Lemma advancing_running t :
  Timer.advancing t = true → ∃ since, phase t = Running since.
Proof. unfold Timer.advancing. destruct (phase t); try done. eauto. Qed.

Lemma paused_phase t : Timer.paused t = true → phase t = Paused.
Proof. unfold Timer.paused. by destruct (phase t). Qed.

Lemma agree_insert_fresh h ss a v x : x ≠ a → agree h ss (<[a := v]> ss) x.
Proof. intros Hne. left. by apply lookup_insert_ne. Qed.

Lemma agree_delete h ss a x : x ≠ a → agree h ss (delete a ss) x.
Proof. intros Hne. left. by apply lookup_delete_ne. Qed.

Lemma agree_retime_other h ss p sp t h0 x :
  ss !! p = Some sp →
  histogram_ (nested_base sp) = Some h0 →
  h0 ≠ h →
  agree h ss (<[p := Nested.with_timer t sp]> ss) x.
Proof.
  intros Hp Hh0 Hne. destruct (decide (x = p)) as [->|Hx].
  - right. unfold scope_histogram. rewrite lookup_insert_eq, Hp. cbn.
    split; [congruence|done].
  - left. by apply lookup_insert_ne.
Qed.

Lemma agree_trans h ss ss' ss'' x :
  agree h ss ss' x → agree h ss' ss'' x → agree h ss ss'' x.
Proof.
  intros [E1|[N1 E1]] [E2|[N2 E2]].
  - left. congruence.
  - right. unfold scope_histogram in *. rewrite E1 in *. done.
  - right. split; [done|]. unfold scope_histogram in *. by rewrite E2.
  - right. split; [done|]. congruence.
Qed.

Lemma stack_other h ss ss' fs top b :
  (∀ x, x ∈ nested_ids fs → agree h ss ss' x) →
  top = expected_top ss h fs ∧ frames_ok ss h b fs →
  top = expected_top ss' h fs ∧ frames_ok ss' h b fs.
Proof.
  intros Hag [-> Hok]. split.
  - symmetry. by apply expected_top_agree.
  - by eapply frames_ok_agree.
Qed.

Lemma scope_histogram_insert ss a sc :
  scope_histogram (<[a := sc]> ss) a = histogram_ (nested_base sc).
Proof. unfold scope_histogram. by rewrite lookup_insert_eq. Qed.

Ltac untouched :=
  unfold stacks_untouched; mcbv; split_and!; try done;
  let h' := fresh "h'" in
  let H' := fresh "H'" in
  let Hl := fresh "Hl" in
  intros h' H' Hl;
  try (rewrite lookup_insert in Hl; case_decide; simplify_eq);
  eauto.

Lemma stacks_untouched_refl w : stacks_untouched w w.
Proof. unfold stacks_untouched. split_and!; eauto. Qed.

Lemma timed_ctor_untouched h iso w s w1 :
  Timed.ctor h iso w = Ok (s, w1) → stacks_untouched w w1.
Proof. mrun. intros Hr. mcases; untouched. Qed.

Lemma timed_dtor_untouched s w w1 :
  Timed.dtor s w = Ok (tt, w1) → stacks_untouched w w1.
Proof. mrun. intros Hr. mcases; untouched. Qed.

Lemma optional_ctor_untouched h iso mode w s w1 :
  Optional.ctor h iso mode w = Ok (s, w1) → stacks_untouched w w1.
Proof. mrun. intros Hr. mcases; untouched. Qed.

Lemma optional_dtor_untouched s w w1 :
  Optional.dtor s w = Ok (tt, w1) → stacks_untouched w w1.
Proof. mrun. intros Hr. mcases; untouched. Qed.

Lemma lazy_ctor_untouched w s w1 :
  Lazy.ctor w = Ok (s, w1) → stacks_untouched w w1.
Proof. mrun. intros [= <- <-]. apply stacks_untouched_refl. Qed.

Lemma lazy_dtor_untouched s w w1 :
  Lazy.dtor s w = Ok (tt, w1) → stacks_untouched w w1.
Proof. mrun. intros Hr. mcases; untouched. Qed.

Lemma invariant_untouched w w1 fs :
  stacks_untouched w w1 →
  stack_invariant (mkMachine w fs) →
  stack_invariant (mkMachine w1 fs).
Proof.
  intros (Hss & Hn & Hh) (Hfresh & Hnd & Hst). unfold stack_invariant in *.
  cbn [world live] in *. rewrite Hss, Hn. split_and!; try done.
  intros h H' Hl Hen. destruct (Hh h H' Hl) as (H & Hl0 & Hen0 & Htop).
  rewrite <- Htop. apply Hst; [done|congruence].
Qed.

Lemma invariant_new_nested w fs h mode this w1 :
  stack_invariant (mkMachine w fs) →
  Nested.ctor h mode w = Ok (this, w1) →
  stack_invariant (mkMachine w1 (ANested this :: fs)).
Proof.
  intros (Hfresh & Hnd & Hst) E. cbn [world live] in *.
  destruct h as [h|]; [|revert E; by mrun].
  destruct (histograms w !! h) as [H|] eqn:Hh; [|revert E; by mrun].
  assert (∀ x v, x ∈ nested_ids fs →
                 ∀ h', agree h' (scopes w) (<[next_scope w := v]> (scopes w)) x)
    as Hnew.
  { intros x v Hx h'. apply agree_insert_fresh. specialize (Hfresh x Hx). lia. }
  assert (next_scope w ∉ nested_ids fs) as Hnotin.
  { intros Hin. specialize (Hfresh _ Hin). lia. }
  destruct (hist_enabled H) eqn:Hen.
  - destruct (Hst h H Hh Hen) as [Htop Hok].
    destruct (current_ H) as [p|] eqn:Hcur.
    + symmetry in Htop.
      destruct (frames_ok_top _ _ _ _ _ Htop Hok) as (sp & Hp & Hph & Hadv).
      apply advancing_running in Hadv as [since Hrun].
      destruct (expected_top_in _ _ _ _ Htop) as [Hpin _].
      assert (p ≠ next_scope w) as Hne by (intros ->; done).
      rewrite (nested_ctor_top _ _ _ mode _ _ _ Hh Hen Hcur Hp Hrun Hne) in E.
      injection E as <- <-. unfold stack_invariant. cbn [world live nested_ids].
      mcbv. split_and!.
      * intros a [->|Ha]%elem_of_cons; [lia|]. specialize (Hfresh a Ha). lia.
      * by apply NoDup_cons.
      * intros h' H' Hl Hen'. cbn [expected_top frames_ok].
        rewrite !scope_histogram_insert. cbn [nested_base histogram_].
        rewrite lookup_insert in Hl.
        set (tp := mkTimer (accumulated (timer_ (nested_base sp))
                            + (clock w - since)) Paused) in *.
        destruct (frames_ok_retime (scopes w) h fs p sp tp true false
                    Hnd Htop Hp eq_refl Hok) as [Htop' Hok'].
        case_decide as Hhh; simplify_eq.
        -- rewrite !decide_True by done. cbn [current_ set_top]. split; [done|].
           split.
           ++ eexists. rewrite lookup_insert_eq. split; [done|].
              cbn [previous_scope_ nested_base timer_]. split; [|done].
              rewrite <- Htop'. symmetry. apply expected_top_agree.
              intros x Hx. apply agree_insert_fresh. by intros ->.
           ++ eapply frames_ok_agree; [|exact Hok'].
              intros x Hx. apply agree_insert_fresh. by intros ->.
        -- rewrite !decide_False by congruence.
           apply (stack_other h' (scopes w)); [|by apply Hst].
           intros x Hx. eapply agree_trans.
           ++ by eapply (agree_retime_other h' _ p sp tp h).
           ++ apply agree_insert_fresh. by intros ->.
    + rewrite (nested_ctor_idle _ _ _ mode Hh Hen Hcur) in E.
      injection E as <- <-. unfold stack_invariant. cbn [world live nested_ids].
      mcbv. split_and!.
      * intros a [->|Ha]%elem_of_cons; [lia|]. specialize (Hfresh a Ha). lia.
      * by apply NoDup_cons.
      * intros h' H' Hl Hen'. cbn [expected_top frames_ok].
        rewrite !scope_histogram_insert. cbn [nested_base histogram_].
        rewrite lookup_insert in Hl.
        case_decide as Hhh; simplify_eq.
        -- rewrite !decide_True by done. cbn [current_ set_top]. split; [done|].
           split.
           ++ eexists. rewrite lookup_insert_eq. split; [done|].
              cbn [previous_scope_ nested_base timer_]. split; [|done].
              rewrite Htop. symmetry. apply expected_top_agree.
              intros x Hx. by apply Hnew.
           ++ eapply frames_ok_agree; [intros x Hx; by apply Hnew|].
              by eapply frames_ok_flag.
        -- rewrite !decide_False by congruence.
           apply (stack_other h' (scopes w)); [|by apply Hst].
           intros x Hx. by apply Hnew.
  - rewrite (nested_ctor_disabled _ _ _ mode Hh Hen) in E.
    injection E as <- <-. unfold stack_invariant. cbn [world live nested_ids].
    mcbv. split_and!.
    + intros a [->|Ha]%elem_of_cons; [lia|]. specialize (Hfresh a Ha). lia.
    + by apply NoDup_cons.
    + intros h' H' Hl Hen'. cbn [expected_top frames_ok].
      rewrite !scope_histogram_insert. cbn [nested_base histogram_].
      rewrite !decide_False by congruence.
      apply (stack_other h' (scopes w)); [|by apply Hst].
      intros x Hx. by apply Hnew.
Qed.

Lemma invariant_end_nested w a rest w1 :
  stack_invariant (mkMachine w (ANested a :: rest)) →
  Nested.dtor a w = Ok (tt, w1) →
  stack_invariant (mkMachine w1 rest).
Proof.
  intros (Hfresh & Hnd & Hst) E. cbn [world live nested_ids] in *.
  apply NoDup_cons in Hnd as [Hnotin Hnd].
  assert (∀ x, x ∈ nested_ids rest → (x < next_scope w)%nat) as Hfresh'.
  { intros x Hx. apply Hfresh, elem_of_cons. by right. }
  assert (∀ x, x ∈ nested_ids rest → x ≠ a) as Hother by (by intros x Hx ->).
  destruct (scopes w !! a) as [self|] eqn:Hs; [|revert E; by mrun].
  destruct (histogram_ (nested_base self)) as [h|] eqn:Hsh; [|revert E; by mrun].
  destruct (histograms w !! h) as [H|] eqn:Hh; [|revert E; by mrun].
  assert (scope_histogram (scopes w) a = Some h) as Hrel.
  { unfold scope_histogram. by rewrite Hs. }
  destruct (hist_enabled H) eqn:Hen.
  - destruct (Hst h H Hh Hen) as [Htop Hok]. cbn [expected_top frames_ok] in Htop, Hok.
    rewrite !decide_True in Hok by done.
    destruct Hok as [(sc & Hsc & Hprev & Hadv) Hok]. simplify_eq.
    apply advancing_running in Hadv as [since Hrun].
    destruct (previous_scope_ self) as [p|] eqn:Hp.
    + symmetry in Hprev.
      destruct (frames_ok_top _ _ _ _ _ Hprev Hok) as (sp & Hsp & Hph & Hpau).
      apply paused_phase in Hpau.
      destruct (expected_top_in _ _ _ _ Hprev) as [Hpin _].
      assert (p ≠ a) as Hne by (by apply Hother).
      rewrite (nested_dtor_inner _ _ _ _ _ _ _ _ Hs Hsh Hh Hen Hrun Hp Hne Hsp Hpau) in E.
      injection E as <-. unfold stack_invariant. cbn [world live]. mcbv.
      split_and!; try done.
      intros h' H' Hl Hen'.
      set (tr := mkTimer (accumulated (timer_ (nested_base sp))) (Running (clock w))) in *.
      destruct (frames_ok_retime (scopes w) h rest p sp tr false true
                  Hnd Hprev Hsp eq_refl Hok) as [Htop' Hok'].
      destruct (decide (h' = h)) as [->|Hhh];
        [rewrite lookup_insert_eq in Hl; injection Hl as <-
        |rewrite lookup_insert_ne in Hl by done].
      * cbn [current_ add_sample set_top].
        apply (stack_other h (<[p:=Nested.with_timer tr sp]> (scopes w))); [|done].
        intros x Hx. apply agree_delete. by apply Hother.
      * specialize (Hst h' H' Hl Hen'). cbn [expected_top frames_ok] in Hst.
        rewrite !decide_False in Hst by congruence.
        apply (stack_other h' (scopes w)); [|done].
        intros x Hx. eapply agree_trans.
        -- by eapply (agree_retime_other h' _ p sp tr h).
        -- apply agree_delete. by apply Hother.
    + rewrite (nested_dtor_last _ _ _ _ _ _ Hs Hsh Hh Hen Hrun Hp) in E.
      injection E as <-. unfold stack_invariant. cbn [world live]. mcbv.
      split_and!; try done.
      intros h' H' Hl Hen'.
      destruct (decide (h' = h)) as [->|Hhh];
        [rewrite lookup_insert_eq in Hl; injection Hl as <-
        |rewrite lookup_insert_ne in Hl by done].
      * cbn [current_ add_sample set_top].
        apply (stack_other h (scopes w)).
        { intros x Hx. apply agree_delete. by apply Hother. }
        split; [done|]. by eapply frames_ok_flag.
      * specialize (Hst h' H' Hl Hen'). cbn [expected_top frames_ok] in Hst.
        rewrite !decide_False in Hst by congruence.
        apply (stack_other h' (scopes w)); [|done].
        intros x Hx. apply agree_delete. by apply Hother.
  - rewrite (nested_dtor_disabled _ _ _ _ _ Hs Hsh Hh Hen) in E.
    injection E as <-. unfold stack_invariant. cbn [world live]. mcbv.
    split_and!; try done.
    intros h' H' Hl Hen'.
    specialize (Hst h' H' Hl Hen'). cbn [expected_top frames_ok] in Hst.
    rewrite !decide_False in Hst by congruence.
    apply (stack_other h' (scopes w)); [|done].
    intros x Hx. apply agree_delete. by apply Hother.
Qed.

Lemma invariant_new_pause w fs h s w1 :
  stack_invariant (mkMachine w fs) →
  PauseNested.ctor h w = Ok (s, w1) →
  stack_invariant (mkMachine w1 (APause s :: fs)).
Proof.
  intros (Hfresh & Hnd & Hst) E. cbn [world live] in *.
  destruct h as [h|]; [|revert E; by mrun].
  destruct (histograms w !! h) as [H|] eqn:Hh; [|revert E; by mrun].
  destruct (hist_enabled H) eqn:Hen.
  - destruct (Hst h H Hh Hen) as [Htop Hok].
    destruct (current_ H) as [p|] eqn:Hcur.
    + symmetry in Htop.
      destruct (frames_ok_top _ _ _ _ _ Htop Hok) as (sp & Hp & Hph & Hadv).
      apply advancing_running in Hadv as [since Hrun].
      rewrite (pause_ctor_top _ _ _ _ _ _ Hh Hen Hcur Hp Hrun) in E.
      injection E as <- <-. unfold stack_invariant. cbn [world live nested_ids].
      mcbv. split_and!; try done.
      intros h' H' Hl Hen'. cbn [expected_top frames_ok pause_histogram_ pause_previous_scope_].
      set (tp := mkTimer (accumulated (timer_ (nested_base sp))
                          + (clock w - since)) Paused) in *.
      destruct (frames_ok_retime (scopes w) h fs p sp tp true false
                  Hnd Htop Hp eq_refl Hok) as [Htop' Hok'].
      destruct (decide (h' = h)) as [->|Hhh];
        [rewrite lookup_insert_eq in Hl; injection Hl as <-
        |rewrite lookup_insert_ne in Hl by done].
      * rewrite !decide_True by done. cbn [current_ set_top]. done.
      * rewrite !decide_False by congruence.
        apply (stack_other h' (scopes w)); [|by apply Hst].
        intros x Hx. by eapply (agree_retime_other h' _ p sp tp h).
    + rewrite (pause_ctor_idle _ _ _ Hh Hen Hcur) in E.
      injection E as <- <-. unfold stack_invariant. cbn [world live nested_ids].
      split_and!; try done.
      intros h' H' Hl Hen'. cbn [expected_top frames_ok pause_histogram_ pause_previous_scope_].
      destruct (decide (Some h = Some h')) as [[= <-]|Hhh].
      * simplify_eq. split; [congruence|]. split; [congruence|].
        by eapply frames_ok_flag.
      * by apply Hst.
  - rewrite (pause_ctor_disabled _ _ _ Hh Hen) in E.
    injection E as <- <-. unfold stack_invariant. cbn [world live nested_ids].
    split_and!; try done.
    intros h' H' Hl Hen'. cbn [expected_top frames_ok pause_histogram_ pause_previous_scope_].
    rewrite !decide_False by congruence. by apply Hst.
Qed.

Lemma invariant_end_pause w s rest w1 :
  stack_invariant (mkMachine w (APause s :: rest)) →
  PauseNested.dtor s w = Ok (tt, w1) →
  stack_invariant (mkMachine w1 rest).
Proof.
  intros (Hfresh & Hnd & Hst) E. cbn [world live nested_ids] in *.
  destruct s as [ph [p|]].
  2:{ rewrite pause_dtor_none in E. injection E as <-.
      unfold stack_invariant. cbn [world live]. split_and!; try done.
      intros h' H' Hl Hen'. specialize (Hst h' H' Hl Hen').
      cbn [expected_top frames_ok pause_histogram_ pause_previous_scope_] in Hst.
      destruct (decide (ph = Some h')) as [->|Hhh]; [|done].
      destruct Hst as (Hcur & Hprev & Hok). split; [congruence|].
      by eapply frames_ok_flag. }
  destruct ph as [h|]; [|revert E; by mrun].
  destruct (histograms w !! h) as [H|] eqn:Hh; [|revert E; by mrun].
  destruct (hist_enabled H) eqn:Hen.
  - destruct (Hst h H Hh Hen) as [Htop Hok].
    cbn [expected_top frames_ok pause_histogram_ pause_previous_scope_] in Htop, Hok.
    rewrite !decide_True in Hok by done. destruct Hok as [Hprev Hok].
    symmetry in Hprev.
    destruct (frames_ok_top _ _ _ _ _ Hprev Hok) as (sp & Hsp & Hph & Hpau).
    apply paused_phase in Hpau.
    rewrite (pause_dtor_top _ _ _ _ _ Hh Hen Hsp Hpau) in E.
    injection E as <-. unfold stack_invariant. cbn [world live]. mcbv.
    split_and!; try done.
    intros h' H' Hl Hen'.
    set (tr := mkTimer (accumulated (timer_ (nested_base sp))) (Running (clock w))) in *.
    destruct (frames_ok_retime (scopes w) h rest p sp tr false true
                Hnd Hprev Hsp eq_refl Hok) as [Htop' Hok'].
    destruct (decide (h' = h)) as [->|Hhh];
        [rewrite lookup_insert_eq in Hl; injection Hl as <-
        |rewrite lookup_insert_ne in Hl by done].
    + cbn [current_ set_top]. done.
    + specialize (Hst h' H' Hl Hen').
      cbn [expected_top frames_ok pause_histogram_ pause_previous_scope_] in Hst.
      rewrite !decide_False in Hst by congruence.
      apply (stack_other h' (scopes w)); [|done].
      intros x Hx. by eapply (agree_retime_other h' _ p sp tr h).
  - rewrite (pause_dtor_disabled _ _ _ _ Hh Hen) in E.
    injection E as <-. unfold stack_invariant. cbn [world live].
    split_and!; try done.
    intros h' H' Hl Hen'. specialize (Hst h' H' Hl Hen').
    cbn [expected_top frames_ok pause_histogram_ pause_previous_scope_] in Hst.
    rewrite !decide_False in Hst by congruence. done.
Qed.

Lemma step_set_histogram_inv w fs i h m' :
  step (mkMachine w fs) (SetHistogram i h) = Ok m' →
  ∃ s, fs !! i = Some (ALazy s)
       ∧ m' = mkMachine w (<[i := ALazy (mkBase (timer_ s) h)]> fs).
Proof.
  cbn [step world live]. destruct (fs !! i) as [[]|]; try done.
  cbv [Lazy.set_histogram mret M_ret]. intros [= <-]. eauto.
Qed.

Lemma set_lazy_nested_ids fs : ∀ i s s',
  fs !! i = Some (ALazy s) →
  nested_ids (<[i := ALazy s']> fs) = nested_ids fs.
Proof.
  induction fs as [|o fs IH]; intros [|i] s s' Hi; try done.
  - by injection Hi as ->.
  - cbn in Hi. cbn [insert list_insert]. fold (<[i := ALazy s']> fs).
    destruct o; cbn [nested_ids]; by rewrite (IH _ _ _ Hi).
Qed.

Lemma set_lazy_expected_top ss h fs : ∀ i s s',
  fs !! i = Some (ALazy s) →
  expected_top ss h (<[i := ALazy s']> fs) = expected_top ss h fs.
Proof.
  induction fs as [|o fs IH]; intros [|i] s s' Hi; try done.
  - by injection Hi as ->.
  - cbn in Hi. cbn [insert list_insert]. fold (<[i := ALazy s']> fs).
    destruct o; cbn [expected_top]; by rewrite (IH _ _ _ Hi).
Qed.

Lemma set_lazy_frames_ok ss h fs : ∀ b i s s',
  fs !! i = Some (ALazy s) →
  frames_ok ss h b (<[i := ALazy s']> fs) = frames_ok ss h b fs.
Proof.
  induction fs as [|o fs IH]; intros b [|i] s s' Hi; try done.
  - by injection Hi as ->.
  - cbn in Hi. cbn [insert list_insert]. fold (<[i := ALazy s']> fs).
    destruct o; cbn [frames_ok];
      rewrite ?(IH _ _ _ _ Hi), ?(set_lazy_expected_top _ _ _ _ _ _ Hi); done.
Qed.

Lemma invariant_set_lazy w fs i s s' :
  fs !! i = Some (ALazy s) →
  stack_invariant (mkMachine w fs) →
  stack_invariant (mkMachine w (<[i := ALazy s']> fs)).
Proof.
  intros Hi (Hfresh & Hnd & Hst). unfold stack_invariant. cbn [world live] in *.
  rewrite (set_lazy_nested_ids _ _ _ s' Hi). split_and!; try done.
  intros h H Hh Hen.
  rewrite (set_lazy_expected_top _ _ _ _ _ s' Hi),
    (set_lazy_frames_ok _ _ _ _ _ _ s' Hi).
  by apply Hst.
Qed.

Lemma invariant_step m a m' :
  stack_invariant m → step m a = Ok m' → stack_invariant m'.
Proof.
  destruct m as [w fs]. intros Hinv Hstep.
  destruct a; cbn [step] in Hstep;
    try (apply construct_ret_inv in Hstep as (s & w1 & E & ->);
         cbn [world live] in *).
  - injection Hstep as <-. exact Hinv.
  - apply timed_ctor_untouched in E. exact (invariant_untouched _ _ _ E Hinv).
  - apply optional_ctor_untouched in E. exact (invariant_untouched _ _ _ E Hinv).
  - apply lazy_ctor_untouched in E. exact (invariant_untouched _ _ _ E Hinv).
  - apply step_set_histogram_inv in Hstep as (s & Hi & ->).
    by eapply invariant_set_lazy.
  - by eapply invariant_new_nested.
  - by eapply invariant_new_nested.
  - by eapply invariant_new_pause.
  - cbn [world live] in Hstep. destruct fs as [|o rest]; [done|].
    destruct (destroy o w) as [[[] w1]|] eqn:E; [|done]. injection Hstep as <-.
    destruct o; cbn [destroy] in E.
    + apply timed_dtor_untouched in E. exact (invariant_untouched _ _ _ E Hinv).
    + apply optional_dtor_untouched in E. exact (invariant_untouched _ _ _ E Hinv).
    + apply lazy_dtor_untouched in E. exact (invariant_untouched _ _ _ E Hinv).
    + by eapply invariant_end_nested.
    + by eapply invariant_end_pause.
Qed.

Lemma invariant_run prog : ∀ m m',
  stack_invariant m → run m prog = Ok m' → stack_invariant m'.
Proof.
  induction prog as [|a prog IH]; intros m m' Hinv Hrun; cbn [run] in Hrun.
  - by injection Hrun as <-.
  - destruct (step m a) as [m1|] eqn:Hstep; [|done].
    eapply IH; [|done]. by eapply invariant_step.
Qed.

Lemma invariant_boot t0 hs c :
  (∀ h H, hs !! h = Some H → current_ H = None) →
  stack_invariant (boot t0 hs c).
Proof.
  intros Hidle. unfold stack_invariant, boot. cbn. split_and!.
  - intros a Ha. by apply elem_of_nil in Ha.
  - apply NoDup_nil_2.
  - intros h H Hh _. split; [by eapply Hidle|done].
Qed.

Lemma chain_sound ss h fs : ∀ b,
  NoDup (nested_ids fs) →
  frames_ok ss h b fs →
  ∀ a, on_chain ss (expected_top ss h fs) a →
       a ∈ nested_ids fs
       ∧ ∃ sc, ss !! a = Some sc
               ∧ (if decide (Some a = expected_top ss h fs)
                  then phase_flag b (timer_ (nested_base sc))
                  else Timer.paused (timer_ (nested_base sc))) = true.
Proof.
  induction fs as [|[s|s|s|x|s] fs IH]; cbn [frames_ok expected_top nested_ids];
    intros b Hnd; try (by apply IH).
  - intros _ a Hch. inversion Hch.
  - apply NoDup_cons in Hnd as [Hnotin Hnd].
    destruct (decide (scope_histogram ss x = Some h)) as [Hrel|Hrel].
    + intros [(sc & Hsc & Hprev & Hph) Hok] a Hch.
      inversion Hch as [|? sc' ? Hsc' Hch']; subst.
      * split; [apply elem_of_cons; by left|]. exists sc.
        by rewrite decide_True by done.
      * rewrite Hsc in Hsc'. injection Hsc' as <-. rewrite Hprev in Hch'.
        destruct (IH false Hnd Hok a Hch') as (Hin & sa & Hsa & Hpa).
        split; [apply elem_of_cons; by right|]. exists sa. split; [done|].
        rewrite decide_False by (intros [= ->]; done).
        by destruct (decide (Some a = expected_top ss h fs)).
    + intros Hok a Hch. destruct (IH b Hnd Hok a Hch) as (Hin & Hrest).
      split; [apply elem_of_cons; by right|done].
  - destruct (decide (pause_histogram_ s = Some h)).
    + intros _ a Hch. inversion Hch.
    + by apply IH.
Qed.

Lemma nested_ids_live a fs : a ∈ nested_ids fs → ANested a ∈ fs.
Proof.
  induction fs as [|[] fs IH]; cbn [nested_ids]; intros Hin;
    try (apply elem_of_cons; right; by apply IH).
  - by apply elem_of_nil in Hin.
  - apply elem_of_cons in Hin as [->|Hin]; apply elem_of_cons;
      [by left|right; by apply IH].
Qed.

Lemma invariant_discipline m h H top :
  stack_invariant m →
  histograms (world m) !! h = Some H →
  hist_enabled H = true →
  current_ H = Some top →
  ANested top ∈ live m ∧ chain_discipline (world m) top.
Proof.
  intros (_ & Hnd & Hst) Hh Hen Htop.
  destruct (Hst h H Hh Hen) as [Hexp Hok]. rewrite Htop in Hexp.
  split.
  - symmetry in Hexp. apply expected_top_in in Hexp as [Hin _].
    by apply nested_ids_live.
  - intros a Hch. rewrite Hexp in Hch.
    destruct (chain_sound _ _ _ true Hnd Hok a Hch) as (_ & sc & Hsc & Hph).
    exists sc. split; [done|]. rewrite <- Hexp in Hph.
    destruct (decide (a = top)) as [->|Hne].
    + by rewrite decide_True in Hph by done.
    + by rewrite decide_False in Hph by congruence.
Qed.

Lemma enter_succeeds m h H mode :
  stack_invariant m →
  histograms (world m) !! h = Some H →
  hist_enabled H = true →
  ∃ w1,
    Nested.ctor (Some h) mode (world m) = Ok (next_scope (world m), w1)
    ∧ histograms w1 !! h = Some (set_top (Some (next_scope (world m))) H).
Proof.
  intros (Hfresh & Hnd & Hst) Hh Hen.
  destruct (Hst h H Hh Hen) as [Htop Hok].
  destruct (current_ H) as [p|] eqn:Hcur.
  - symmetry in Htop.
    destruct (frames_ok_top _ _ _ _ _ Htop Hok) as (sp & Hp & Hph & Hadv).
    apply advancing_running in Hadv as [since Hrun].
    destruct (expected_top_in _ _ _ _ Htop) as [Hpin _].
    assert (p ≠ next_scope (world m)) as Hne.
    { intros ->. specialize (Hfresh _ Hpin). lia. }
    eexists. split; [by eapply nested_ctor_top|].
    mcbv. by rewrite lookup_insert_eq.
  - eexists. split; [by eapply nested_ctor_idle|].
    mcbv. by rewrite lookup_insert_eq.
Qed.

Lemma leave_succeeds w a rest h H :
  stack_invariant (mkMachine w (ANested a :: rest)) →
  scope_histogram (scopes w) a = Some h →
  histograms w !! h = Some H →
  hist_enabled H = true →
  ∃ w1 H1,
    Nested.dtor a w = Ok (tt, w1)
    ∧ histograms w1 !! h = Some H1
    ∧ hist_enabled H1 = true.
Proof.
  intros (Hfresh & Hnd & Hst) Hrel Hh Hen. cbn [world live nested_ids] in *.
  apply NoDup_cons in Hnd as [Hnotin Hnd].
  destruct (Hst h H Hh Hen) as [Htop Hok]. cbn [expected_top frames_ok] in Htop, Hok.
  rewrite !decide_True in Hok by done.
  destruct Hok as [(self & Hs & Hprev & Hadv) Hok].
  assert (histogram_ (nested_base self) = Some h) as Hsh.
  { unfold scope_histogram in Hrel. by rewrite Hs in Hrel. }
  apply advancing_running in Hadv as [since Hrun].
  destruct (previous_scope_ self) as [p|] eqn:Hp.
  - symmetry in Hprev.
    destruct (frames_ok_top _ _ _ _ _ Hprev Hok) as (sp & Hsp & Hph & Hpau).
    apply paused_phase in Hpau.
    destruct (expected_top_in _ _ _ _ Hprev) as [Hpin _].
    assert (p ≠ a) as Hne by (by intros ->).
    eexists _, _. split; [by eapply nested_dtor_inner|].
    mcbv. rewrite lookup_insert_eq. split; [done|]. by cbn.
  - eexists _, _. split; [by eapply nested_dtor_last|].
    mcbv. rewrite lookup_insert_eq. split; [done|]. by cbn.
Qed.

Lemma example_histograms_idle h H :
  Example.hs !! h = Some H → current_ H = None.
Proof.
  unfold Example.hs. intros [[_ <-]|[_ Hh]]%lookup_insert_Some; [done|].
  by apply lookup_singleton_Some in Hh as [_ <-].
Qed.

(** ** The claims *)

(** Claim C1.  For every well-formed nesting of nested scopes on one enabled
    histogram whose stack is empty at the start (a sequence of enter, leave
    and wait events that [Spec.run] accepts), the code runs without a
    fault and the samples it adds to the histogram are, in the order the
    scopes are left, exactly those of the specification: for each scope
    (time at leave) - (time at enter) - (sum of the intervals over which
    its children were open).  The timers get there incrementally, by pause
    and resume, as [simulates] records. *)
Theorem nested_scopes_record_self_time (t0 : Z)
    (hs : gmap positive TimedHistogram) (c : Counters) (h : positive)
    (H : TimedHistogram) (es : list nest_event) (s : Spec.state) :
  hs !! h = Some H →
  hist_enabled H = true →
  current_ H = None →
  Spec.run (Spec.init t0) es = Some s →
  ∃ m,
    run (boot t0 hs c) (to_action h <$> es) = Ok m
    ∧ samples_of h (world m) = hist_samples H ++ Spec.recorded s
    ∧ clock (world m) = Spec.now s
    ∧ length (live m) = length (Spec.open s).
Proof.
  intros Hh Hen Htop Hrun.
  destruct (simulation_run h _ es _ _ _ _ (boot_simulates t0 hs c h H Hh Hen Htop) Hrun)
    as (ids & m & Hm & Hlive & Hclock & (H' & Hh' & _ & _ & Hsam) & _ & _ & Htim).
  exists m. split_and!; try done.
  - unfold samples_of. by rewrite Hh'.
  - rewrite Hlive, length_fmap. clear -Htim.
    revert Htim. generalize (Spec.open s), (@None Z).
    induction ids as [|a ids IH]; intros [|o os] ce; cbn; try done.
    intros [_ Htail]. f_equal. by eapply IH.
Qed.

(** Claim C1 at scenario A: A enters at t=0, B at t=10, B leaves at t=30
    and records 20, A leaves at t=50 and records (50-0)-(30-10) = 30. *)
Lemma nested_scopes_record_self_time_witness :
  Spec.run (Spec.init 0) ScenarioA.events = Some (Spec.mkState 50 [] [20; 30])
  ∧ ∃ m,
      run Example.m0 (to_action Example.H1 <$> ScenarioA.events) = Ok m
      ∧ samples_of Example.H1 (world m) = [20; 30]
      ∧ clock (world m) = 50
      ∧ length (live m) = 0%nat.
Proof.
  split; [reflexivity|].
  exact (nested_scopes_record_self_time 0 Example.hs Example.cs Example.H1
           (idle_histogram "V8.Execute" true) ScenarioA.events
           (Spec.mkState 50 [] [20; 30]) eq_refl eq_refl eq_refl eq_refl).
Defined.

(** Scenario D: A over 0..100, B over 10..80 inside A, C over 20..50 inside
    B record C=30, B=40 and A=30. *)
Example scenario_D_triple_nesting :
  samples_of Example.H1 <$>
    after (match run Example.m0 (to_action Example.H1 <$> ScenarioD.events) with
           | Ok m => Ok (tt, world m)
           | Fault e => Fault e
           end)
  = Some [30; 40; 30].
Proof. vm_compute. reflexivity. Qed.

(** Claim C2 as stated fails.  After scope A was entered and a pause scope
    was created on the same enabled histogram, A is a live nested scope of
    that histogram, yet the stack top is the null placeholder, no scope is
    on the previous-chain of the stack, and no timer in the store
    advances. *)
Lemma suspended_stack_has_no_advancing_timer :
  run Example.m0 ScenarioSuspended.prog = Ok ScenarioSuspended.m
  ∧ nested_scope_active Example.H1 ScenarioSuspended.m
  ∧ ¬ one_timer_advancing Example.H1 (world ScenarioSuspended.m)
  ∧ ∀ a sc, scopes (world ScenarioSuspended.m) !! a = Some sc →
            Timer.advancing (timer_ (nested_base sc)) = false.
Proof.
  split_and!.
  - vm_compute. reflexivity.
  - exists 0%nat, ScenarioB.A_paused. split_and!; try reflexivity.
    apply elem_of_cons. right. apply elem_of_cons. by left.
  - intros (top & Htop & _). vm_compute in Htop. discriminate.
  - intros a sc. cbn [world ScenarioSuspended.m scopes ScenarioB.wQ].
    intros [<- <-]%lookup_singleton_Some. reflexivity.
Qed.

Lemma frames_ok_timers ss h fs a : ∀ b,
  NoDup (nested_ids fs) →
  frames_ok ss h b fs →
  a ∈ nested_ids fs →
  scope_histogram ss a = Some h →
  ∃ sc, ss !! a = Some sc
        ∧ phase_flag (b && bool_decide (expected_top ss h fs = Some a))
                     (timer_ (nested_base sc)) = true.
Proof.
  induction fs as [|[s|s|s|x|s] fs IH]; cbn [frames_ok expected_top nested_ids];
    intros b Hnd Hok Ha Hrel; try (by apply IH).
  - by apply elem_of_nil in Ha.
  - apply NoDup_cons in Hnd as [Hnotin Hnd].
    destruct (decide (scope_histogram ss x = Some h)) as [Hx|Hx].
    + destruct Hok as [(sc & Hsc & _ & Hph) Hok].
      apply elem_of_cons in Ha as [->|Ha].
      * exists sc. split; [done|].
        by rewrite bool_decide_eq_true_2, andb_true_r.
      * destruct (IH false Hnd Hok Ha Hrel) as (sa & Hsa & Hpa).
        exists sa. split; [done|].
        rewrite bool_decide_eq_false_2, andb_false_r; [done|].
        intros [= ->]. done.
    + apply elem_of_cons in Ha as [->|Ha]; [done|]. by apply IH.
  - destruct (decide (pause_histogram_ s = Some h)).
    + destruct Hok as [_ Hok].
      destruct (IH false Hnd Hok Ha Hrel) as (sa & Hsa & Hpa).
      exists sa. split; [done|].
      by rewrite bool_decide_eq_false_2, andb_false_r.
    + by apply IH.
Qed.

Lemma nested_ids_in a fs : ANested a ∈ fs → a ∈ nested_ids fs.
Proof.
  induction fs as [|o fs IH]; [by intros ?%elem_of_nil|].
  intros [<-|Hin]%elem_of_cons; [by left|].
  destruct o; cbn [nested_ids]; try by apply IH.
  right. by apply IH.
Qed.

Lemma invariant_disciplined m : stack_invariant m → timers_disciplined m.
Proof.
  intros (_ & Hnd & Hst) h H Hh Hen.
  destruct (Hst h H Hh Hen) as [Htop Hok]. split; [done|].
  intros a Ha Hrel.
  destruct (frames_ok_timers _ _ _ a true Hnd Hok (nested_ids_in _ _ Ha) Hrel)
    as (sc & Hsc & Hph).
  exists sc. split; [done|]. rewrite <- Htop in Hph. cbn [andb] in Hph.
  destruct (decide (current_ H = Some a)).
  - by rewrite bool_decide_eq_true_2 in Hph.
  - by rewrite bool_decide_eq_false_2 in Hph.
Qed.

Lemma active_not_suspended_top ss h fs a :
  ANested a ∈ fs →
  scope_histogram ss a = Some h →
  ¬ suspended ss h fs →
  ∃ top, expected_top ss h fs = Some top.
Proof.
  induction fs as [|[s|s|s|x|s] fs IH]; cbn [suspended expected_top];
    intros Ha Hrel Hns;
    try (apply IH; [by apply elem_of_cons in Ha as [?|?]|done|done]).
  - by apply elem_of_nil in Ha.
  - destruct (decide (scope_histogram ss x = Some h)) as [Hx|Hx]; [by eexists|].
    apply IH; [|done|done].
    apply elem_of_cons in Ha as [[= ->]|?]; done.
  - destruct (decide (pause_histogram_ s = Some h)); [done|].
    apply IH; [|done|done]. by apply elem_of_cons in Ha as [?|?].
Qed.

Lemma leave_restores w a rest h H :
  stack_invariant (mkMachine w (ANested a :: rest)) →
  scope_histogram (scopes w) a = Some h →
  histograms w !! h = Some H →
  hist_enabled H = true →
  ∃ w1 self,
    Nested.dtor a w = Ok (tt, w1)
    ∧ scopes w !! a = Some self
    ∧ previous_scope_ self = expected_top (scopes w) h rest
    ∧ top_of h w1 = previous_scope_ self.
Proof.
  intros (Hfresh & Hnd & Hst) Hrel Hh Hen. cbn [world live nested_ids] in *.
  apply NoDup_cons in Hnd as [Hnotin Hnd].
  destruct (Hst h H Hh Hen) as [Htop Hok]. cbn [expected_top frames_ok] in Htop, Hok.
  rewrite !decide_True in Hok by done.
  destruct Hok as [(self & Hs & Hprev & Hadv) Hok].
  assert (histogram_ (nested_base self) = Some h) as Hsh.
  { unfold scope_histogram in Hrel. by rewrite Hs in Hrel. }
  apply advancing_running in Hadv as [since Hrun].
  destruct (previous_scope_ self) as [p|] eqn:Hp.
  - pose proof Hprev as Hprev'. symmetry in Hprev.
    destruct (frames_ok_top _ _ _ _ _ Hprev Hok) as (sp & Hsp & Hph & Hpau).
    apply paused_phase in Hpau.
    destruct (expected_top_in _ _ _ _ Hprev) as [Hpin _].
    assert (p ≠ a) as Hne by (by intros ->).
    eexists _, self. split; [by eapply nested_dtor_inner|].
    split_and!; [done|by rewrite Hp|].
    unfold top_of. mcbv. by rewrite lookup_insert_eq.
  - eexists _, self. split; [by eapply nested_dtor_last|].
    split_and!; [done|by rewrite Hp|].
    unfold top_of. mcbv. by rewrite lookup_insert_eq.
Qed.

(** Claim C2, amended.  The claim fails only while a pause scope is the
    innermost live object of the histogram.  In every state that a caller
    can reach from a context whose scope stacks are empty, and for every
    enabled histogram: the stack top is the innermost live object of the
    histogram if that is a nested scope and null otherwise; of the live
    nested scopes of the histogram the one on top runs its timer and every
    other one is paused ([timers_disciplined]); if the top is a scope, it is
    live, and along its previous-chain exactly its own timer advances.  So
    whenever a nested scope of the histogram is live and the stack is not
    suspended by a pause scope, one timer along the previous-chain of the
    stack advances, the top's.  In such a state every enter on an enabled
    histogram returns, puts the new scope on top, running, and establishes
    all of this again; every leave of a nested scope of an enabled
    histogram returns, puts back on top the scope that the one left had
    found when it was entered, which was the innermost other live object of
    the histogram, and establishes all of this again, so that a scope put
    back on top runs. *)
Theorem running_top_has_paused_ancestors (t0 : Z)
    (hs : gmap positive TimedHistogram) (c : Counters)
    (prog : list action) (m : Machine) :
  (∀ h H, hs !! h = Some H → current_ H = None) →
  run (boot t0 hs c) prog = Ok m →
  timers_disciplined m
  ∧ (∀ h H top,
       histograms (world m) !! h = Some H →
       hist_enabled H = true →
       current_ H = Some top →
       ANested top ∈ live m ∧ chain_discipline (world m) top)
  ∧ (∀ h H,
       histograms (world m) !! h = Some H →
       hist_enabled H = true →
       nested_scope_active h m →
       ¬ suspended (scopes (world m)) h (live m) →
       one_timer_advancing h (world m))
  ∧ (∀ h H mode,
       histograms (world m) !! h = Some H →
       hist_enabled H = true →
       ∃ m' top,
         step m (NewNested (Some h) mode) = Ok m'
         ∧ live m' = ANested top :: live m
         ∧ top_of h (world m') = Some top
         ∧ chain_discipline (world m') top
         ∧ timers_disciplined m')
  ∧ (∀ a rest h H,
       live m = ANested a :: rest →
       scope_histogram (scopes (world m)) a = Some h →
       histograms (world m) !! h = Some H →
       hist_enabled H = true →
       ∃ m' self,
         step m EndScope = Ok m'
         ∧ live m' = rest
         ∧ scopes (world m) !! a = Some self
         ∧ previous_scope_ self = expected_top (scopes (world m)) h rest
         ∧ top_of h (world m') = previous_scope_ self
         ∧ timers_disciplined m'
         ∧ ∀ top, top_of h (world m') = Some top →
                  ANested top ∈ rest ∧ chain_discipline (world m') top).
Proof.
  intros Hidle Hrun.
  pose proof (invariant_run prog _ _ (invariant_boot t0 hs c Hidle) Hrun) as Hinv.
  split_and!.
  - by apply invariant_disciplined.
  - intros h H top. by apply invariant_discipline.
  - intros h H Hh Hen (a & sc & Ha & Hsc & Hsh) Hns.
    destruct (invariant_disciplined m Hinv h H Hh Hen) as [Htop _].
    destruct (active_not_suspended_top (scopes (world m)) h (live m) a Ha)
      as [top Hexp]; [|done|].
    { unfold scope_histogram. by rewrite Hsc. }
    exists top. unfold top_of. rewrite Hh, Htop. split; [done|].
    eapply invariant_discipline; [done..|]. by rewrite Htop.
  - intros h H mode Hh Hen.
    destruct (enter_succeeds m h H mode Hinv Hh Hen) as (w1 & Hctor & Hh1).
    pose proof (step_new_nested _ _ _ _ _ Hctor) as Hstep.
    pose proof (invariant_step _ _ _ Hinv Hstep) as Hinv1.
    eexists _, _. split; [exact Hstep|]. cbn [live world].
    split; [done|]. unfold top_of. rewrite Hh1. split; [done|].
    split; [|by apply invariant_disciplined].
    by eapply (invariant_discipline (mkMachine w1 _) h).
  - intros a rest h H Hlive Hrel Hh Hen. destruct m as [w fs].
    cbn [world live] in *. subst fs.
    destruct (leave_restores w a rest h H Hinv Hrel Hh Hen)
      as (w1 & self & Hdtor & Hself & Hprev & Htop1).
    assert (step (mkMachine w (ANested a :: rest)) EndScope
            = Ok (mkMachine w1 rest)) as Hstep.
    { by eapply step_end_scope. }
    pose proof (invariant_step _ _ _ Hinv Hstep) as Hinv1.
    exists (mkMachine w1 rest), self. split; [exact Hstep|]. cbn [live world].
    split_and!; try done; [by apply invariant_disciplined|].
    intros top Htop.
    unfold top_of in Htop.
    destruct (histograms w1 !! h) as [H1|] eqn:Hh1; [|done].
    destruct (hist_enabled H1) eqn:Hen1.
    + by eapply (invariant_discipline (mkMachine w1 rest) h).
    + exfalso.
      destruct (leave_succeeds w a rest h H Hinv Hrel Hh Hen)
        as (w1' & H1' & Hdtor' & Hh1' & Hen1').
      rewrite Hdtor in Hdtor'. injection Hdtor' as <-. congruence.
Qed.

(** Claim C2, amended, after A entered at t=0 and B inside it at t=10: B is
    on top and runs, A is paused, and one timer of the stack advances; one
    more scope can be entered and is then on top; leaving B puts A back on
    top, and A runs again. *)
Lemma running_top_has_paused_ancestors_witness :
  run Example.m0 ScenarioNested.prog = Ok ScenarioNested.m
  ∧ top_of Example.H1 (world ScenarioNested.m) = Some 1%nat
  ∧ (ANested 1%nat ∈ live ScenarioNested.m
     ∧ chain_discipline (world ScenarioNested.m) 1%nat)
  ∧ one_timer_advancing Example.H1 (world ScenarioNested.m)
  ∧ (∃ sc, scopes (world ScenarioNested.m) !! 1%nat = Some sc
           ∧ Timer.advancing (timer_ (nested_base sc)) = true)
  ∧ (∃ sc, scopes (world ScenarioNested.m) !! 0%nat = Some sc
           ∧ Timer.paused (timer_ (nested_base sc)) = true)
  ∧ (∃ m' top,
       step ScenarioNested.m (NewNested (Some Example.H1) kSkip) = Ok m'
       ∧ live m' = ANested top :: live ScenarioNested.m
       ∧ top_of Example.H1 (world m') = Some top
       ∧ chain_discipline (world m') top)
  ∧ (∃ m',
       step ScenarioNested.m EndScope = Ok m'
       ∧ live m' = [ANested 0%nat]
       ∧ top_of Example.H1 (world m') = Some 0%nat
       ∧ chain_discipline (world m') 0%nat
       ∧ ∃ sc, scopes (world m') !! 0%nat = Some sc
               ∧ Timer.advancing (timer_ (nested_base sc)) = true).
Proof.
  assert (run Example.m0 ScenarioNested.prog = Ok ScenarioNested.m) as Hrun
    by (vm_compute; reflexivity).
  destruct (running_top_has_paused_ancestors 0 Example.hs Example.cs
              ScenarioNested.prog ScenarioNested.m example_histograms_idle Hrun)
    as (Hdisc & Hnow & Hone & Henter & Hleave).
  destruct (Hdisc Example.H1 ScenarioNested.top_histogram eq_refl eq_refl)
    as [_ Hall].
  assert (ANested 1%nat ∈ live ScenarioNested.m) as Hin1 by (by left).
  assert (ANested 0%nat ∈ live ScenarioNested.m) as Hin0 by (right; by left).
  split; [exact Hrun|]. split; [reflexivity|].
  split.
  { exact (Hnow Example.H1 ScenarioNested.top_histogram 1%nat
             eq_refl eq_refl eq_refl). }
  split.
  { apply (Hone Example.H1 ScenarioNested.top_histogram eq_refl eq_refl).
    - eexists 1%nat, _. split; [exact Hin1|]. split; reflexivity.
    - cbn. rewrite decide_True by reflexivity. tauto. }
  split.
  { destruct (Hall 1%nat Hin1 eq_refl) as (sc & Hsc & Hph). by exists sc. }
  split.
  { destruct (Hall 0%nat Hin0 eq_refl) as (sc & Hsc & Hph). by exists sc. }
  split.
  { destruct (Henter Example.H1 ScenarioNested.top_histogram kSkip
                eq_refl eq_refl) as (m' & top & Hstep & Hlive & Htop & Hch & _).
    by exists m', top. }
  destruct (Hleave 1%nat [ANested 0%nat] Example.H1
              ScenarioNested.top_histogram eq_refl eq_refl eq_refl eq_refl)
    as (m' & self & Hstep & Hlive & Hself & Hprev & Htop & _ & Hold).
  assert (top_of Example.H1 (world m') = Some 0%nat) as Htop0.
  { rewrite Htop, Hprev. reflexivity. }
  destruct (Hold 0%nat Htop0) as [_ Hch].
  exists m'. split; [done|]. split; [done|]. split; [done|]. split; [done|].
  destruct (Hch 0%nat (chain_here _ _)) as (sc & Hsc & Hph).
  exists sc. split; [done|]. by rewrite decide_True in Hph.
Defined.

(** Claim C3.  On an enabled histogram whose stack top is a running nested
    scope [p], creating a pause scope captures [p], installs the null
    placeholder and pauses the timer of [p]; destroying it restores [p] as
    the top and resumes its timer from the destruction instant.  So for a
    scope entered at [t0], paused from [t1] to [t2] and left at [t3] the
    recorded sample is (t3 - t0) - (t2 - t1). *)
Theorem pause_scope_excludes_interval :
  (∀ w h H p sp since,
     histograms w !! h = Some H →
     hist_enabled H = true →
     current_ H = Some p →
     scopes w !! p = Some sp →
     phase (timer_ (nested_base sp)) = Running since →
     ∃ s w1,
       PauseNested.ctor (Some h) w = Ok (s, w1)
       ∧ pause_previous_scope_ s = Some p
       ∧ top_of h w1 = None
       ∧ scopes w1 !! p
         = Some (Nested.with_timer
                   (mkTimer (accumulated (timer_ (nested_base sp))
                             + (clock w - since)) Paused) sp))
  ∧ (∀ w h H p sp,
       histograms w !! h = Some H →
       hist_enabled H = true →
       scopes w !! p = Some sp →
       phase (timer_ (nested_base sp)) = Paused →
       ∃ w1,
         PauseNested.dtor (mkPause (Some h) (Some p)) w = Ok (tt, w1)
         ∧ top_of h w1 = Some p
         ∧ scopes w1 !! p
           = Some (Nested.with_timer
                     (mkTimer (accumulated (timer_ (nested_base sp)))
                              (Running (clock w))) sp))
  ∧ (∀ t0 hs c h H mode (d1 d2 d3 : N),
       hs !! h = Some H →
       hist_enabled H = true →
       current_ H = None →
       let t1 := t0 + Z.of_N d1 in
       let t2 := t1 + Z.of_N d2 in
       let t3 := t2 + Z.of_N d3 in
       ∃ m,
         run (boot t0 hs c)
             [NewNested (Some h) mode; Elapse d1; NewPause (Some h); Elapse d2;
              EndScope; Elapse d3; EndScope]
         = Ok m
         ∧ live m = []
         ∧ samples_of h (world m) = hist_samples H ++ [(t3 - t0) - (t2 - t1)]).
Proof.
  split_and!.
  - intros w h H p sp since Hh Hen Htop Hp Hph.
    eexists _, _. split; [by eapply pause_ctor_top|].
    unfold top_of. mcbv. by rewrite !lookup_insert_eq.
  - intros w h H p sp Hh Hen Hp Hph.
    eexists. split; [by eapply pause_dtor_top|].
    unfold top_of. mcbv. by rewrite !lookup_insert_eq.
  - intros t0 hs c h H mode d1 d2 d3 Hh Hen Htop t1 t2 t3.
    destruct mode, (decide (h = execute c)) as [->|Hex].
    all: eexists; (split; [drun; reflexivity|]); cbn [live world];
         (split; [done|]); unfold samples_of; mcbv;
         rewrite lookup_insert_eq; mcbv; do 2 f_equal; lia.
Qed.

(** Claim C3 at scenario B: enter A at t=0, pause from t=5 to t=25, leave A
    at t=40; A records (40-0)-(25-5) = 20. *)
Lemma pause_scope_excludes_interval_witness :
  (∃ s w1,
     PauseNested.ctor (Some Example.H1) ScenarioB.wA = Ok (s, w1)
     ∧ pause_previous_scope_ s = Some 0%nat
     ∧ top_of Example.H1 w1 = None
     ∧ scopes w1 !! 0%nat = Some ScenarioB.A_paused)
  ∧ (∃ w1,
       PauseNested.dtor (mkPause (Some Example.H1) (Some 0%nat)) ScenarioB.wP
       = Ok (tt, w1)
       ∧ top_of Example.H1 w1 = Some 0%nat
       ∧ scopes w1 !! 0%nat
         = Some (mkNested (mkBase (mkTimer 5 (Running 25)) (Some Example.H1))
                          None kSkip))
  ∧ ∃ m, run Example.m0 ScenarioB.prog = Ok m
         ∧ live m = []
         ∧ samples_of Example.H1 (world m) = [20].
Proof.
  destruct pause_scope_excludes_interval as (Hctor & Hdtor & Hrun).
  split_and!.
  - exact (Hctor ScenarioB.wA Example.H1
             (set_top (Some 0%nat) (idle_histogram "V8.Execute" true)) 0%nat
             (mkNested (mkBase (mkTimer 0 (Running 0)) (Some Example.H1)) None kSkip)
             0 eq_refl eq_refl eq_refl eq_refl eq_refl).
  - exact (Hdtor ScenarioB.wP Example.H1
             (set_top None (idle_histogram "V8.Execute" true)) 0%nat
             ScenarioB.A_paused eq_refl eq_refl eq_refl eq_refl).
  - exact (Hrun 0 Example.hs Example.cs Example.H1
             (idle_histogram "V8.Execute" true) kSkip 5%N 20%N 15%N
             eq_refl eq_refl eq_refl).
Defined.

(** Claim C4.  A pause scope created on an enabled histogram whose scope
    stack is empty captures no previous scope and leaves the store as it
    was; its destructor then returns at once in whatever store it runs:
    nothing is resumed, the stack top is not written and no pointer is
    followed. *)
Theorem pause_scope_on_empty_stack_skips_resume (w : World) (h : hist_id)
    (H : TimedHistogram) :
  histograms w !! h = Some H →
  hist_enabled H = true →
  current_ H = None →
  ∃ s,
    PauseNested.ctor (Some h) w = Ok (s, w)
    ∧ pause_previous_scope_ s = None
    ∧ ∀ w2, PauseNested.dtor s w2 = Ok (tt, w2).
Proof.
  intros Hh Hen Htop. exists (mkPause (Some h) None). split; [|done].
  mrun. do 2 f_equal. destruct w as [c hs cs ss n es v]; cbn in *. f_equal.
  apply insert_id. rewrite Hh. f_equal. destruct H; cbn in *; congruence.
Qed.

(** Claim C4 on the execute histogram of the example context. *)
Lemma pause_scope_on_empty_stack_skips_resume_witness :
  ∃ s, PauseNested.ctor (Some Example.H1) (world Example.m0) = Ok (s, world Example.m0)
       ∧ pause_previous_scope_ s = None
       ∧ ∀ w2, PauseNested.dtor s w2 = Ok (tt, w2).
Proof.
  apply (pause_scope_on_empty_stack_skips_resume (world Example.m0) Example.H1
           (idle_histogram "V8.Execute" true)); reflexivity.
Defined.

(** Claim C5.  A nested scope on a disabled histogram: the constructor adds
    no sample, leaves every histogram (its stack top included) and every
    other scope as it was, does not start the timer of the new scope, and
    logs the start event; the destructor, with the histogram still
    disabled, again changes no histogram and no timer, and logs the end
    event.  The long-task counter stays as it was. *)
Theorem disabled_nested_scope_is_inert (w : World) (h : hist_id)
    (H : TimedHistogram) (mode : LongTaskRecordMode) :
  histograms w !! h = Some H →
  hist_enabled H = false →
  ∃ this w1,
    Nested.ctor (Some h) mode w = Ok (this, w1)
    ∧ histograms w1 = histograms w
    ∧ (∀ a, a ≠ this → scopes w1 !! a = scopes w !! a)
    ∧ (∃ self, scopes w1 !! this = Some self
               ∧ nested_base self = mkBase Timer.fresh (Some h)
               ∧ long_task_record_mode_ self = mode)
    ∧ events w1 = events w ++ [mkEvent (Some (isolate (counters w))) (hist_name H) kStart true]
    ∧ v8_execute_us w1 = v8_execute_us w
    ∧ ∀ w2 self H2,
        scopes w2 !! this = Some self →
        histogram_ (nested_base self) = Some h →
        histograms w2 !! h = Some H2 →
        hist_enabled H2 = false →
        ∃ w3,
          Nested.dtor this w2 = Ok (tt, w3)
          ∧ histograms w3 = histograms w2
          ∧ scopes w3 = delete this (scopes w2)
          ∧ events w3 = events w2 ++ [mkEvent (Some (isolate (counters w2))) (hist_name H2) kEnd true]
          ∧ v8_execute_us w3 = v8_execute_us w2.
Proof.
  intros Hh Hen. eexists _, _. split.
  { mrun. reflexivity. }
  mcbv. split_and!; try done.
  - intros a Ha. by rewrite lookup_insert_ne.
  - eexists. by rewrite lookup_insert_eq.
  - intros w2 self H2 Hs Hhs Hh2 Hen2. eexists. split.
    { mrun. reflexivity. }
    mcbv. done.
Qed.

(** Claim C5 on the disabled histogram of the example context. *)
Lemma disabled_nested_scope_is_inert_witness :
  ∃ this w1 w3,
    Nested.ctor (Some Example.H2) kSkip (world Example.m0) = Ok (this, w1)
    ∧ Nested.dtor this w1 = Ok (tt, w3)
    ∧ histograms w3 = histograms (world Example.m0)
    ∧ scopes w3 = delete this (scopes w1)
    ∧ events w3 = [mkEvent (Some Example.iso) "V8.GC" kStart true;
                   mkEvent (Some Example.iso) "V8.GC" kEnd true].
Proof.
  destruct (disabled_nested_scope_is_inert (world Example.m0) Example.H2
              (idle_histogram "V8.GC" false) kSkip eq_refl eq_refl)
    as (this & w1 & Hc & Hh & _ & (self & Hthis & Hbase & _) & Hev & _ & Hd).
  destruct (Hd w1 self (idle_histogram "V8.GC" false) Hthis
              (f_equal histogram_ Hbase)
              (eq_trans (f_equal (λ m, m !! Example.H2) Hh) eq_refl) eq_refl)
    as (w3 & Hdt & Hh3 & Hs3 & Hev3 & _).
  exists this, w1, w3. split_and!; try done.
  - congruence.
  - rewrite Hev3, Hev. vm_compute in Hc. injection Hc as _ <-. reflexivity.
Defined.

(** Claim C6.  A call of the caller changes the long-task counter only if
    it ends a nested scope whose record mode is [kRecord] and whose
    histogram is the enabled [execute()] histogram of the counters; every
    construction and every other destruction leaves it as it was.  When a
    running nested scope is left, the counter grows by exactly the sample
    that the same call records if the mode is [kRecord] and the histogram
    is [execute()], and by nothing otherwise. *)
Theorem long_task_counter_frame :
  (∀ m a m',
     step m a = Ok m' →
     v8_execute_us (world m') ≠ v8_execute_us (world m) →
     a = EndScope
     ∧ ∃ this rest self H,
         live m = ANested this :: rest
         ∧ scopes (world m) !! this = Some self
         ∧ long_task_record_mode_ self = kRecord
         ∧ histogram_ (nested_base self) = Some (execute (counters (world m)))
         ∧ histograms (world m) !! execute (counters (world m)) = Some H
         ∧ hist_enabled H = true)
  ∧ (∀ m this rest self h H since,
       live m = ANested this :: rest →
       scopes (world m) !! this = Some self →
       histogram_ (nested_base self) = Some h →
       histograms (world m) !! h = Some H →
       hist_enabled H = true →
       phase (timer_ (nested_base self)) = Running since →
       (∀ p, previous_scope_ self = Some p →
             p ≠ this
             ∧ ∃ sp, scopes (world m) !! p = Some sp
                     ∧ phase (timer_ (nested_base sp)) = Paused) →
       let elapsed :=
         accumulated (timer_ (nested_base self)) + (clock (world m) - since) in
       ∃ m',
         step m EndScope = Ok m'
         ∧ samples_of h (world m') = hist_samples H ++ [elapsed]
         ∧ v8_execute_us (world m')
           = v8_execute_us (world m)
             + long_task_share (world m) h (long_task_record_mode_ self) elapsed).
Proof.
  split.
  - intros [w fs] a m' Hstep Hv.
    destruct a; cbn [step] in Hstep;
      try (apply construct_ret_inv in Hstep as (s & w1 & E & ->);
           cbn [world live] in *).
    + first [by simplify_eq | simplify_eq; by cbn in Hv].
    + by apply timed_ctor_long_task in E.
    + by apply optional_ctor_long_task in E.
    + by injection E as _ <-.
    + apply step_set_histogram_inv in Hstep as (s & Hi & ->). done.
    + by apply nested_ctor_long_task in E.
    + by apply nested_ctor_long_task in E.
    + by apply pause_ctor_long_task in E.
    + cbn [world live] in *.
      split; [done|]. destruct fs as [|o rest]; [done|].
      destruct (destroy o w) as [[[] w1]|] eqn:E; simplify_eq. cbn [world] in Hv.
      destruct o; cbn [destroy] in E.
      * by apply timed_dtor_long_task in E.
      * by apply optional_dtor_long_task in E.
      * by apply lazy_dtor_long_task in E.
      * destruct (nested_dtor_long_task _ _ _ E Hv) as (self & H & ?).
        by exists this, rest, self, H.
      * by apply pause_dtor_long_task in E.
  - intros [w fs] this rest self h H since Hl Hs Hsh Hh Hen Hph Hprev elapsed.
    cbn [world live] in *. subst fs. cbn [step destroy live world].
    destruct (previous_scope_ self) as [p|] eqn:Hp.
    + destruct (Hprev p eq_refl) as (Hne & sp & Hsp & Hpp).
      rewrite (nested_dtor_inner _ _ _ _ _ _ _ _ Hs Hsh Hh Hen Hph Hp Hne Hsp Hpp).
      eexists. split; [done|]. cbn [world]. split; [|done].
      unfold samples_of. mcbv. by rewrite lookup_insert_eq.
    + rewrite (nested_dtor_last _ _ _ _ _ _ Hs Hsh Hh Hen Hph Hp).
      eexists. split; [done|]. cbn [world]. split; [|done].
      unfold samples_of. mcbv. by rewrite lookup_insert_eq.
Qed.

(** Claim C6 for a long-task scope on the execute histogram left ten
    microseconds after it was entered. *)
Lemma long_task_counter_frame_witness :
  ∃ m',
    step ScenarioLongTask.mL EndScope = Ok m'
    ∧ samples_of Example.H1 (world m') = [10]
    ∧ v8_execute_us (world m') = 10
    ∧ ∃ self,
        scopes (world ScenarioLongTask.mL) !! 0%nat = Some self
        ∧ long_task_record_mode_ self = kRecord
        ∧ histogram_ (nested_base self) = Some Example.H1.
Proof.
  destruct long_task_counter_frame as [Honly Hadd].
  destruct (Hadd ScenarioLongTask.mL 0%nat [] ScenarioLongTask.self Example.H1
              (set_top (Some 0%nat) (idle_histogram "V8.Execute" true)) 0
              eq_refl eq_refl eq_refl eq_refl eq_refl eq_refl
              ltac:(discriminate))
    as (m' & Hstep & Hsam & Hv).
  exists m'. split_and!; [exact Hstep|exact Hsam|exact Hv|].
  assert (v8_execute_us (world m') ≠ v8_execute_us (world ScenarioLongTask.mL)) as Hne.
  { rewrite Hv. vm_compute. discriminate. }
  destruct (Honly _ _ _ Hstep Hne)
    as (_ & this & rest & self & H & Hl & Hs & Hmode & Hh & _).
  injection Hl as <- _. exists self. split_and!; [exact Hs|exact Hmode|exact Hh].
Defined.

(** Claim C7 as stated fails: with a null isolate an optional scope in mode
    [TAKE_TIME] calls the event logger where a plain scope does not. *)
Lemma optional_take_time_is_not_plain_without_isolate :
  events <$> after (Optional.ctor (Some Example.H1) None TAKE_TIME (world Example.m0))
  ≠ events <$> after (Timed.ctor (Some Example.H1) None (world Example.m0)).
Proof. vm_compute. discriminate. Qed.

(** Claim C7, amended.  In mode [DONT_TAKE_TIME] an optional scope does
    nothing at all, whatever the histogram is: the constructor and the
    destructor leave the store as it was, timer not started, no sample, no
    log event.  In mode [TAKE_TIME] with a non-null isolate it behaves as
    a plain scope does; with any isolate its timer, the histograms, the
    scopes and the long-task counter end up as with a plain scope, and
    both fault alike. *)
Theorem optional_scope_mode_gates_everything :
  (∀ h iso w,
     Optional.ctor h iso DONT_TAKE_TIME w
     = Ok (mkOptional (mkBase Timer.fresh h) iso DONT_TAKE_TIME, w))
  ∧ (∀ b iso w, Optional.dtor (mkOptional b iso DONT_TAKE_TIME) w = Ok (tt, w))
  ∧ (∀ h i w,
       Optional.ctor h (Some i) TAKE_TIME w
       = (s ← Timed.ctor h (Some i);
          mret (mkOptional (timed_base s) (Some i) TAKE_TIME)) w)
  ∧ (∀ b i w,
       Optional.dtor (mkOptional b (Some i) TAKE_TIME) w
       = Timed.dtor (mkTimed b (Some i)) w)
  ∧ (∀ h iso w,
       match Optional.ctor h iso TAKE_TIME w, Timed.ctor h iso w with
       | Ok (s, w1), Ok (s', w1') =>
           opt_base s = timed_base s' ∧ histograms w1 = histograms w1'
           ∧ scopes w1 = scopes w1' ∧ v8_execute_us w1 = v8_execute_us w1'
       | Fault e, Fault e' => e = e'
       | _, _ => False
       end)
  ∧ (∀ b iso w,
       match Optional.dtor (mkOptional b iso TAKE_TIME) w,
             Timed.dtor (mkTimed b iso) w with
       | Ok (_, w1), Ok (_, w1') =>
           histograms w1 = histograms w1'
           ∧ scopes w1 = scopes w1' ∧ v8_execute_us w1 = v8_execute_us w1'
       | Fault e, Fault e' => e = e'
       | _, _ => False
       end).
Proof.
  split_and!; intros; try reflexivity; mrun; mcases.
Qed.

(** Claim C8.  The constructor of a lazy scope starts the timer at once and
    leaves [histogram_] null.  The destructor calls [Stop()] without looking
    at [histogram_] first: with no histogram assigned it faults on the null
    pointer, in every store; after [set_histogram] with an enabled histogram
    it records the time since construction as a sample. *)
Theorem lazy_scope_requires_histogram (w : World) :
  ∃ s,
    Lazy.ctor w = Ok (s, w)
    ∧ histogram_ s = None
    ∧ timer_ s = mkTimer 0 (Running (clock w))
    ∧ (∀ w2, Lazy.dtor s w2 = Fault NullDereference)
    ∧ (∀ h w1, Lazy.set_histogram s h w1 = Ok (mkBase (timer_ s) h, w1))
    ∧ ∀ h w2 H2,
        histograms w2 !! h = Some H2 →
        hist_enabled H2 = true →
        Lazy.dtor (mkBase (timer_ s) (Some h)) w2
        = Ok (tt, with_histograms
                    (<[h := mkHistogram (hist_name H2) true
                              (hist_samples H2 ++ [clock w2 - clock w])
                              (current_ H2)]> (histograms w2)) w2).
Proof.
  eexists. split; [reflexivity|]. cbn. repeat split.
  intros h w2 H2 Hh Hen. mrun. reflexivity.
Qed.

(** Claim C8 in the example context: a fault without a histogram, the sample
    4 on the execute histogram four microseconds after construction. *)
Lemma lazy_scope_requires_histogram_witness :
  histograms (world Example.m0) !! Example.H1 = Some (idle_histogram "V8.Execute" true)
  ∧ Lazy.dtor (mkBase (mkTimer 0 (Running 0)) None) (world Example.m0)
    = Fault NullDereference
  ∧ samples_of Example.H1 <$>
      after (Lazy.dtor (mkBase (mkTimer 0 (Running 0)) (Some Example.H1))
                       (with_clock 4 (world Example.m0)))
    = Some [4].
Proof.
  destruct (lazy_scope_requires_histogram (world Example.m0))
    as (s & Hc & _ & Ht & Hnull & _ & Hrec).
  injection Hc as <-.
  split; [reflexivity|]. split; [apply Hnull|].
  refine (eq_trans
            (f_equal (λ r, samples_of Example.H1 <$> after r)
                     (Hrec Example.H1 (with_clock 4 (world Example.m0))
                           (idle_histogram "V8.Execute" true) eq_refl eq_refl))
            _).
  reflexivity.
Defined.

(** Claim C9.  On any histogram, enabled or not, and with any isolate, null
    included, an optional scope in mode [TAKE_TIME] logs one start event
    in its constructor and one end event in its destructor, carrying the
    isolate it was given.  A plain scope on the same histogram logs these
    events only when its isolate is not null. *)
Theorem optional_scope_logs_without_isolate (w : World) (h : hist_id)
    (H : TimedHistogram) (iso : option Isolate) :
  histograms w !! h = Some H →
  (∃ s w1,
     Optional.ctor (Some h) iso TAKE_TIME w = Ok (s, w1)
     ∧ events w1 = events w ++ [mkEvent iso (hist_name H) kStart true]
     ∧ ∀ w2 H2,
         histograms w2 !! h = Some H2 →
         hist_enabled H2 = hist_enabled H →
         ∃ w3,
           Optional.dtor s w2 = Ok (tt, w3)
           ∧ events w3 = events w2 ++ [mkEvent iso (hist_name H2) kEnd true])
  ∧ (∃ s w1,
       Timed.ctor (Some h) iso w = Ok (s, w1)
       ∧ events w1
         = events w ++ match iso with
                       | Some _ => [mkEvent iso (hist_name H) kStart true]
                       | None => []
                       end
       ∧ ∀ w2 H2,
           histograms w2 !! h = Some H2 →
           hist_enabled H2 = hist_enabled H →
           ∃ w3,
             Timed.dtor s w2 = Ok (tt, w3)
             ∧ events w3
               = events w2 ++ match iso with
                              | Some _ => [mkEvent iso (hist_name H2) kEnd true]
                              | None => []
                              end).
Proof.
  intros Hh. split.
  - destruct (hist_enabled H) eqn:Hen.
    + eexists _, _. split; [mrun; reflexivity|]. mcbv. split; [done|].
      intros w2 H2 Hh2 Hen2. eexists. split; [mrun; reflexivity|]. by mcbv.
    + eexists _, _. split; [mrun; reflexivity|]. mcbv. split; [done|].
      intros w2 H2 Hh2 Hen2. eexists. split; [mrun; reflexivity|]. by mcbv.
  - destruct (hist_enabled H) eqn:Hen, iso as [i|].
    all: eexists _, _; (split; [mrun; reflexivity|]); mcbv;
         (split; [by rewrite ?app_nil_r|]);
         intros w2 H2 Hh2 Hen2; eexists; (split; [mrun; reflexivity|]);
         mcbv; by rewrite ?app_nil_r.
Qed.

(** Claim C9 with a null isolate on the disabled histogram of the example
    context. *)
Lemma optional_scope_logs_without_isolate_witness :
  ∃ s w1 w3,
    Optional.ctor (Some Example.H2) None TAKE_TIME (world Example.m0) = Ok (s, w1)
    ∧ Optional.dtor s w1 = Ok (tt, w3)
    ∧ events w3 = [mkEvent None "V8.GC" kStart true; mkEvent None "V8.GC" kEnd true].
Proof.
  destruct (optional_scope_logs_without_isolate (world Example.m0) Example.H2
              (idle_histogram "V8.GC" false) None eq_refl)
    as [(s & w1 & Hc & Hev & Hd) _].
  assert (histograms w1 !! Example.H2 = Some (idle_histogram "V8.GC" false)) as Hh1.
  { injection Hc as _ <-. reflexivity. }
  destruct (Hd w1 _ Hh1 eq_refl) as (w3 & Hdt & Hev3).
  exists s, w1, w3. split_and!; try done.
  rewrite Hev3, Hev. reflexivity.
Defined.

(** Claim C10.  Whenever the constructor or the destructor of a pause scope
    returns, the clock, the counters, the log events, the long-task
    counter, all samples, names and enabled flags, every histogram other
    than its own and every scope other than the captured one are as
    before, and the captured scope differs at most in its timer
    ([pause_footprint]).  On an enabled histogram the constructor does
    return: it captures the top, installs the null placeholder and pauses
    the captured scope; the destructor restores the captured scope as the
    top and resumes it. *)
Theorem pause_scope_footprint :
  (∀ h w s w1,
     PauseNested.ctor h w = Ok (s, w1) →
     pause_histogram_ s = h
     ∧ pause_footprint h (pause_previous_scope_ s) w w1)
  ∧ (∀ s w w1,
       PauseNested.dtor s w = Ok (tt, w1) →
       pause_footprint (pause_histogram_ s) (pause_previous_scope_ s) w w1)
  ∧ (∀ w h H,
       histograms w !! h = Some H →
       hist_enabled H = true →
       (∀ p, current_ H = Some p →
             ∃ sp since, scopes w !! p = Some sp
                         ∧ phase (timer_ (nested_base sp)) = Running since) →
       ∃ s w1,
         PauseNested.ctor (Some h) w = Ok (s, w1)
         ∧ pause_previous_scope_ s = current_ H
         ∧ top_of h w1 = None
         ∧ ∀ p, current_ H = Some p →
                ∃ sp', scopes w1 !! p = Some sp'
                       ∧ phase (timer_ (nested_base sp')) = Paused)
  ∧ (∀ w h H p sp,
       histograms w !! h = Some H →
       hist_enabled H = true →
       scopes w !! p = Some sp →
       phase (timer_ (nested_base sp)) = Paused →
       ∃ w1,
         PauseNested.dtor (mkPause (Some h) (Some p)) w = Ok (tt, w1)
         ∧ top_of h w1 = Some p
         ∧ ∃ sp' since, scopes w1 !! p = Some sp'
                        ∧ phase (timer_ (nested_base sp')) = Running since).
Proof.
  split_and!.
  - intros h w s w1.
    destruct h as [h|]; [|discriminate].
    destruct (histograms w !! h) as [H|] eqn:Hh; [|by mrun].
    destruct (hist_enabled H) eqn:Hen.
    + destruct (current_ H) as [p|] eqn:Htop.
      * destruct (scopes w !! p) as [sp|] eqn:Hp; [|by mrun].
        destruct (phase (timer_ (nested_base sp))) eqn:Hph; try by mrun.
        rewrite (pause_ctor_top _ _ _ _ _ _ Hh Hen Htop Hp Hph).
        intros [= <- <-]. split; [done|]. by apply pause_footprint_change.
      * rewrite (pause_ctor_idle _ _ _ Hh Hen Htop).
        intros [= <- <-]. split; [done|]. apply pause_footprint_refl.
    + rewrite (pause_ctor_disabled _ _ _ Hh Hen).
      intros [= <- <-]. split; [done|]. apply pause_footprint_refl.
  - intros [h [p|]] w w1; cbn [pause_histogram_ pause_previous_scope_].
    2:{ rewrite pause_dtor_none. intros [= <-]. apply pause_footprint_refl. }
    destruct h as [h|]; [|discriminate].
    destruct (histograms w !! h) as [H|] eqn:Hh; [|by mrun].
    destruct (hist_enabled H) eqn:Hen.
    + destruct (scopes w !! p) as [sp|] eqn:Hp; [|by mrun].
      destruct (phase (timer_ (nested_base sp))) eqn:Hph; try by mrun.
      rewrite (pause_dtor_top _ _ _ _ _ Hh Hen Hp Hph).
      intros [= <-]. by apply pause_footprint_change.
    + rewrite (pause_dtor_disabled _ _ _ _ Hh Hen).
      intros [= <-]. apply pause_footprint_refl.
  - intros w h H Hh Hen Hrun. destruct (current_ H) as [p|] eqn:Htop.
    + destruct (Hrun p eq_refl) as (sp & since & Hp & Hph).
      eexists _, _. split; [by eapply pause_ctor_top|].
      unfold top_of. mcbv. rewrite !lookup_insert_eq. split_and!; try done.
      intros ? [= <-]. rewrite lookup_insert_eq. eauto.
    + eexists _, _. split; [by eapply pause_ctor_idle|].
      unfold top_of. rewrite Hh. done.
  - intros w h H p sp Hh Hen Hp Hph.
    eexists. split; [by eapply pause_dtor_top|].
    unfold top_of. mcbv. rewrite !lookup_insert_eq. eauto.
Qed.

(** Claim C10 at scenario B. *)
Lemma pause_scope_footprint_witness :
  ∃ w2,
    PauseNested.ctor (Some Example.H1) ScenarioB.wA
    = Ok (mkPause (Some Example.H1) (Some 0%nat), ScenarioB.wQ)
    ∧ pause_footprint (Some Example.H1) (Some 0%nat) ScenarioB.wA ScenarioB.wQ
    ∧ PauseNested.dtor (mkPause (Some Example.H1) (Some 0%nat)) ScenarioB.wP
      = Ok (tt, w2)
    ∧ pause_footprint (Some Example.H1) (Some 0%nat) ScenarioB.wP w2.
Proof.
  destruct pause_scope_footprint as (Hc & Hd & _ & Hdtot).
  assert (PauseNested.ctor (Some Example.H1) ScenarioB.wA
          = Ok (mkPause (Some Example.H1) (Some 0%nat), ScenarioB.wQ)) as E1
    by (vm_compute; reflexivity).
  destruct (Hc _ _ _ _ E1) as [_ F1].
  destruct (Hdtot ScenarioB.wP Example.H1
              (set_top None (idle_histogram "V8.Execute" true)) 0%nat
              ScenarioB.A_paused eq_refl eq_refl eq_refl eq_refl)
    as (w2 & E2 & _).
  exists w2. split_and!; [exact E1|exact F1|exact E2|exact (Hd _ _ _ E2)].
Defined.

(** * Further properties *)

(** ** Plain, optional and lazy scopes *)

(** Extra X1.  A plain scope on a histogram of the context: the constructor
    returns and logs the start event exactly when it was given an isolate.
    The destructor, in any later store in which the histogram has the
    enabled flag it had, returns; it adds the clock time that passed since
    the construction as one sample when the histogram is enabled and adds
    nothing when it is disabled, and it logs the end event exactly when the
    scope was given an isolate. *)
Theorem plain_scope_records_elapsed (w : World) (h : hist_id)
    (H : TimedHistogram) (iso : option Isolate) :
  histograms w !! h = Some H →
  ∃ s,
    Timed.ctor (Some h) iso w
    = Ok (s, with_events (events w ++ plain_log iso H kStart) w)
    ∧ ∀ w2 H2,
        histograms w2 !! h = Some H2 →
        hist_enabled H2 = hist_enabled H →
        Timed.dtor s w2
        = Ok (tt, let w3 := stopped h H2 (clock w2 - clock w) w2 in
                  with_events (events w3 ++ plain_log iso H2 kEnd) w3).
Proof.
  intros Hh. unfold stopped.
  destruct (hist_enabled H) eqn:Hen, iso as [i|].
  all: eexists; (split; [mrun; unfold plain_log; rewrite ?app_nil_r;
                         destruct w; reflexivity|]).
  all: intros w2 H2 Hh2 Hen2; rewrite Hen2; mrun; unfold plain_log, add_sample;
       rewrite ?app_nil_r, ?Hen2; try (destruct w2; reflexivity); reflexivity.
Qed.

Lemma plain_scope_records_elapsed_witness :
  let w1 := with_events [mkEvent (Some Example.iso) "V8.Execute" kStart true]
                        (world Example.m0) in
  ∃ s,
    Timed.ctor (Some Example.H1) (Some Example.iso) (world Example.m0) = Ok (s, w1)
    ∧ ∃ w3,
        Timed.dtor s (with_clock 7 w1) = Ok (tt, w3)
        ∧ samples_of Example.H1 w3 = [7]
        ∧ events w3 = [mkEvent (Some Example.iso) "V8.Execute" kStart true;
                       mkEvent (Some Example.iso) "V8.Execute" kEnd true].
Proof.
  intros w1.
  destruct (plain_scope_records_elapsed (world Example.m0) Example.H1
              (idle_histogram "V8.Execute" true) (Some Example.iso) eq_refl)
    as (s & Hc & Hd).
  exists s. split; [exact Hc|]. eexists. split.
  - exact (Hd (with_clock 7 w1) (idle_histogram "V8.Execute" true)
             eq_refl eq_refl).
  - split; reflexivity.
Defined.

(** Extra X2.  The plain, the optional and the lazy scope take no part in
    any scope stack: whenever one of their constructors or destructors
    returns, the store of nested scopes and its next address are as before,
    every histogram has the enabled flag and the stack top it had, and the
    long-task counter is unchanged.  The constructor of a lazy scope and
    [set_histogram] leave the whole context as it was. *)
Theorem base_scopes_leave_stacks_alone :
  (∀ h iso w s w1,
     Timed.ctor h iso w = Ok (s, w1) →
     stacks_untouched w w1 ∧ v8_execute_us w1 = v8_execute_us w)
  ∧ (∀ s w w1,
       Timed.dtor s w = Ok (tt, w1) →
       stacks_untouched w w1 ∧ v8_execute_us w1 = v8_execute_us w)
  ∧ (∀ h iso mode w s w1,
       Optional.ctor h iso mode w = Ok (s, w1) →
       stacks_untouched w w1 ∧ v8_execute_us w1 = v8_execute_us w)
  ∧ (∀ s w w1,
       Optional.dtor s w = Ok (tt, w1) →
       stacks_untouched w w1 ∧ v8_execute_us w1 = v8_execute_us w)
  ∧ (∀ w s w1, Lazy.ctor w = Ok (s, w1) → w1 = w)
  ∧ (∀ s h w s' w1, Lazy.set_histogram s h w = Ok (s', w1) → w1 = w)
  ∧ (∀ s w w1,
       Lazy.dtor s w = Ok (tt, w1) →
       stacks_untouched w w1 ∧ v8_execute_us w1 = v8_execute_us w).
Proof.
  split_and!.
  - intros h iso w s w1 E. split;
      [by eapply timed_ctor_untouched|by eapply timed_ctor_long_task].
  - intros s w w1 E. split;
      [by eapply timed_dtor_untouched|by eapply timed_dtor_long_task].
  - intros h iso mode w s w1 E. split;
      [by eapply optional_ctor_untouched|by eapply optional_ctor_long_task].
  - intros s w w1 E. split;
      [by eapply optional_dtor_untouched|by eapply optional_dtor_long_task].
  - intros w s w1. mrun. by intros [= _ <-].
  - intros s h w s' w1. mrun. by intros [= _ <-].
  - intros s w w1 E. split;
      [by eapply lazy_dtor_untouched|by eapply lazy_dtor_long_task].
Qed.

Lemma base_scopes_leave_stacks_alone_witness :
  let w := world ScenarioNested.m in
  let w1 := with_events (events w ++ [mkEvent (Some Example.iso) "V8.Execute" kStart true]) w in
  ∃ s,
    Timed.ctor (Some Example.H1) (Some Example.iso) w = Ok (s, w1)
    ∧ stacks_untouched w w1
    ∧ v8_execute_us w1 = v8_execute_us w
    ∧ top_of Example.H1 w1 = Some 1%nat.
Proof.
  intros w w1.
  destruct base_scopes_leave_stacks_alone as (Hctor & _).
  exists (mkTimed (mkBase (mkTimer 0 (Running 10)) (Some Example.H1))
                  (Some Example.iso)).
  assert (Timed.ctor (Some Example.H1) (Some Example.iso) w
          = Ok (mkTimed (mkBase (mkTimer 0 (Running 10)) (Some Example.H1))
                        (Some Example.iso), w1)) as Hc
    by (vm_compute; reflexivity).
  split; [exact Hc|].
  destruct (Hctor _ _ _ _ _ Hc) as [Hst Hv].
  split; [exact Hst|]. split; [exact Hv|reflexivity].
Defined.




(** ** Nested scopes and pause scopes together *)

Lemma step_new_pause m h s w' :
  PauseNested.ctor h (world m) = Ok (s, w') →
  step m (NewPause h) = Ok (mkMachine w' (APause s :: live m)).
Proof.
  intros E. cbn [step]. unfold construct, mbind, M_bind. by rewrite E.
Qed.

Lemma pmatch_ext ss ss' h fs : ∀ ce os,
  (∀ a, a ∈ nested_ids fs → ss' !! a = ss !! a) →
  pmatch ss h ce fs os → pmatch ss' h ce fs os.
Proof.
  induction fs as [|[s|s|s|a|s] fs IH]; intros ce [|[e c mode|st] os] Hext;
    cbn [pmatch nested_ids] in *; try done.
  - intros [(sc & Hsc & Hrest) Htail]. split.
    + exists sc. rewrite Hext by (apply elem_of_cons; by left). done.
    + apply IH; [|done]. intros b Hb. apply Hext, elem_of_cons. by right.
  - intros [Hp Htail]. split; [done|]. by apply IH.
Qed.

Lemma pmatch_under_pause ss h ce ce' s fs os :
  pmatch ss h ce (APause s :: fs) os → pmatch ss h ce' (APause s :: fs) os.
Proof. by destruct os as [|[]]. Qed.

Lemma long_task_share_primary w h mode x c :
  counters w = c →
  long_task_share w h mode x
  = if bool_decide (h = execute c) && bool_decide (mode = kRecord) then x else 0.
Proof.
  intros <-. unfold long_task_share.
  destruct mode, (decide (h = execute (counters w))) as [Heq|Hne].
  - rewrite bool_decide_eq_false_2 by (intros [? ?]; done).
    by rewrite (bool_decide_eq_false_2 (kSkip = kRecord)), andb_false_r.
  - rewrite bool_decide_eq_false_2 by (intros [? ?]; done).
    by rewrite (bool_decide_eq_false_2 (h = _)).
  - by rewrite !bool_decide_eq_true_2.
  - rewrite bool_decide_eq_false_2 by (intros [? ?]; done).
    by rewrite (bool_decide_eq_false_2 (h = _)).
Qed.

Ltac psim_start :=
  intros (Hclock & Hcnt & (H & Hh & Hen & Htop & Hsam) & Hv & Hfresh & Hnd & Hpm);
  cbn [world live PSpec.now PSpec.open PSpec.recorded PSpec.long_task] in *.

Ltac psim_goal :=
  unfold psimulates;
  cbn [world live nested_ids ptop PSpec.now PSpec.open PSpec.recorded
       PSpec.long_task];
  mcbv.

Lemma psim_wait h base v0 c w fs t os rec lt d :
  psimulates h base v0 c (mkMachine w fs) (PSpec.mkState t os rec lt) →
  psimulates h base v0 c
    (mkMachine (with_clock (clock w + Z.of_N d) w) fs)
    (PSpec.mkState (t + Z.of_N d) os rec lt).
Proof.
  psim_start. psim_goal. split_and!; try done; [by rewrite Hclock|eauto].
Qed.

Lemma psim_enter h base v0 c w fs t os rec lt mode :
  psimulates h base v0 c (mkMachine w fs) (PSpec.mkState t os rec lt) →
  ∃ m',
    step (mkMachine w fs) (NewNested (Some h) mode) = Ok m'
    ∧ psimulates h base v0 c m'
        (PSpec.mkState t (PSpec.OScope t 0 mode :: os) rec lt).
Proof.
  psim_start.
  assert (∀ a, a ∈ nested_ids fs → a ≠ next_scope w) as Hnew.
  { intros a Ha ->. specialize (Hfresh _ Ha). lia. }
  assert (∀ a, a ∈ next_scope w :: nested_ids fs → (a < S (next_scope w))%nat)
    as Hfresh'.
  { intros a [->|Ha]%elem_of_cons; [lia|]. specialize (Hfresh a Ha). lia. }
  assert (NoDup (next_scope w :: nested_ids fs)) as Hnd'.
  { apply NoDup_cons. split; [|done]. intros Hin. by apply (Hnew _ Hin). }
  destruct fs as [|[s|s|s|p|ps] fs']; destruct os as [|[e c0 m0|st] os'];
    cbn [pmatch] in Hpm; try done; cbn [ptop] in Htop.
  - (* empty stack *)
    eexists. split.
    { apply step_new_nested. by eapply nested_ctor_idle. }
    psim_goal. split_and!; try done.
    + eexists. rewrite lookup_insert_eq. by unfold set_top.
    + cbn [pmatch]. split; [|done]. eexists. rewrite lookup_insert_eq.
      split_and!; try done. exists (clock w). split; [done|]. cbn. lia.
  - (* a nested scope on top *)
    destruct Hpm as [(sp & Hp & Hph & Hmode & Hprev & since & Hrun & Hacc) Htail].
    cbn [nested_ids] in *. apply NoDup_cons in Hnd as [Hnotin Hnd].
    assert (p ≠ next_scope w) as Hne
      by (apply Hnew, elem_of_cons; by left).
    eexists. split.
    { apply step_new_nested. by eapply nested_ctor_top. }
    psim_goal. split_and!; try done.
    + eexists. rewrite lookup_insert_eq. by unfold set_top.
    + cbn [pmatch]. split.
      { eexists. rewrite lookup_insert_eq. split_and!; try done.
        exists (clock w). split; [done|]. cbn. lia. }
      split.
      { eexists. rewrite lookup_insert_ne by done. rewrite lookup_insert_eq.
        split_and!; try done. cbn. lia. }
      eapply pmatch_ext; [|done]. intros a Ha.
      rewrite !lookup_insert_ne; [done| |].
      * by intros ->.
      * intros <-. apply (Hnew (next_scope w)); [|done].
        apply elem_of_cons. by right.
  - (* a pause scope on top *)
    eexists. split.
    { apply step_new_nested. by eapply nested_ctor_idle. }
    psim_goal. split_and!; try done.
    + eexists. rewrite lookup_insert_eq. by unfold set_top.
    + cbn [pmatch]. split.
      { eexists. rewrite lookup_insert_eq. split_and!; try done.
        exists (clock w). split; [done|]. cbn. lia. }
      destruct Hpm as [Hps Htail]. split; [done|].
      eapply pmatch_ext; [|done]. intros a Ha.
      rewrite lookup_insert_ne; [done|]. intros <-. by apply (Hnew (next_scope w)).
Qed.

Lemma psim_pause h base v0 c w fs t os rec lt :
  psimulates h base v0 c (mkMachine w fs) (PSpec.mkState t os rec lt) →
  ∃ m',
    step (mkMachine w fs) (NewPause (Some h)) = Ok m'
    ∧ psimulates h base v0 c m'
        (PSpec.mkState t (PSpec.OPause t :: os) rec lt).
Proof.
  psim_start.
  destruct fs as [|[s|s|s|p|ps] fs']; destruct os as [|[e c0 m0|st] os'];
    cbn [pmatch] in Hpm; try done; cbn [ptop] in Htop.
  - eexists. split.
    { apply step_new_pause. by eapply pause_ctor_idle. }
    psim_goal. split_and!; try done. eauto 10.
  - destruct Hpm as [(sp & Hp & Hph & Hmode & Hprev & since & Hrun & Hacc) Htail].
    cbn [nested_ids] in *. apply NoDup_cons in Hnd as [Hnotin Hnd'].
    eexists. split.
    { apply step_new_pause. by eapply pause_ctor_top. }
    psim_goal. split_and!; try done.
    + eexists. rewrite lookup_insert_eq. by unfold set_top.
    + by apply NoDup_cons.
    + cbn [pmatch pause_histogram_ pause_previous_scope_ ptop].
      split; [done|]. split.
      { eexists. rewrite lookup_insert_eq. split_and!; try done. cbn. lia. }
      eapply pmatch_ext; [|done]. intros a Ha.
      rewrite lookup_insert_ne; [done|]. by intros ->.
  - eexists. split.
    { apply step_new_pause. by eapply pause_ctor_idle. }
    psim_goal. split_and!; try done. eauto 10.
Qed.

Lemma psim_leave h base v0 c w fs t os rec lt s' :
  psimulates h base v0 c (mkMachine w fs) (PSpec.mkState t os rec lt) →
  PSpec.step (bool_decide (h = execute c)) (PSpec.mkState t os rec lt) PLeave
  = Some s' →
  ∃ m',
    step (mkMachine w fs) EndScope = Ok m' ∧ psimulates h base v0 c m' s'.
Proof.
  psim_start. cbn [PSpec.step PSpec.open PSpec.now PSpec.recorded PSpec.long_task].
  destruct fs as [|[s|s|s|a|ps] fs']; destruct os as [|[e c0 m0|st] os'];
    cbn [pmatch] in Hpm; try done; cbn [ptop] in Htop; intros [= <-].
  - (* the innermost object is a nested scope *)
    destruct Hpm as [(sc & Ha & Hsh & Hmode & Hprev & since & Hrun & Hacc) Htail].
    cbn [nested_ids] in *. apply NoDup_cons in Hnd as [Hnotin Hnd'].
    assert (∀ x, x ∈ nested_ids fs' → (x < next_scope w)%nat) as Hfresh'.
    { intros x Hx. apply Hfresh, elem_of_cons. by right. }
    assert (accumulated (timer_ (nested_base sc)) + (clock w - since)
            = t - e - c0) as Hel by lia.
    destruct fs' as [|[s|s|s|p|ps] fs'']; destruct os' as [|[e2 c2 m2|st] os''];
      cbn [pmatch] in Htail; try done; cbn [ptop] in Hprev.
    + eexists. split.
      { eapply step_end_scope; [done|]. cbn [destroy world].
        by eapply nested_dtor_last. }
      psim_goal. rewrite Hel, (long_task_share_primary _ _ _ _ c Hcnt), Hmode.
      split_and!; try done.
      * eexists. rewrite lookup_insert_eq. unfold add_sample, set_top.
        split_and!; try done. cbn [hist_samples]. by rewrite Hsam, <- app_assoc.
      * lia.
    + destruct Htail as [(sp & Hp & Hph & Hpmode & Hpprev & Hpau & Hpacc) Htail].
      cbn [nested_ids] in *.
      assert (p ≠ a) as Hne.
      { intros ->. apply Hnotin, elem_of_cons. by left. }
      eexists. split.
      { eapply step_end_scope; [done|]. cbn [destroy world].
        by eapply nested_dtor_inner. }
      psim_goal. rewrite Hel, (long_task_share_primary _ _ _ _ c Hcnt), Hmode.
      split_and!; try done.
      * eexists. rewrite lookup_insert_eq. unfold add_sample, set_top.
        split_and!; try done. cbn [hist_samples]. by rewrite Hsam, <- app_assoc.
      * lia.
      * cbn [pmatch PSpec.charge]. split.
        { eexists. rewrite lookup_delete_ne by done. rewrite lookup_insert_eq.
          split_and!; try done. exists (clock w). split; [done|]. cbn. lia. }
        apply NoDup_cons in Hnd' as [Hnotin' Hnd''].
        eapply pmatch_ext; [|done]. intros x Hx.
        rewrite lookup_delete_ne
          by (intros ->; apply Hnotin, elem_of_cons; by right).
        rewrite lookup_insert_ne by (intros ->; done). done.
    + eexists. split.
      { eapply step_end_scope; [done|]. cbn [destroy world].
        by eapply nested_dtor_last. }
      psim_goal. rewrite Hel, (long_task_share_primary _ _ _ _ c Hcnt), Hmode.
      split_and!; try done.
      * eexists. rewrite lookup_insert_eq. unfold add_sample, set_top.
        split_and!; try done. cbn [hist_samples]. by rewrite Hsam, <- app_assoc.
      * lia.
      * cbn [pmatch PSpec.charge]. destruct Htail as [Hps Htail].
        split; [done|]. eapply pmatch_ext; [|done]. intros x Hx.
        apply lookup_delete_ne. by intros ->.
  - (* the innermost object is a pause scope *)
    destruct Hpm as [[Hph Hprev] Htail]. destruct ps as [ph pp].
    cbn [pause_histogram_ pause_previous_scope_ nested_ids] in *. subst ph.
    destruct fs' as [|[s|s|s|p|ps] fs'']; destruct os' as [|[e2 c2 m2|st2] os''];
      cbn [pmatch] in Htail; try done; cbn [ptop] in Hprev; subst pp.
    + eexists. split.
      { eapply step_end_scope; [done|]. cbn [destroy world].
        apply pause_dtor_none. }
      psim_goal. split_and!; try done. eauto 10.
    + destruct Htail as [(sp & Hp & Hsph & Hpmode & Hpprev & Hpau & Hpacc) Htail].
      cbn [nested_ids] in *. apply NoDup_cons in Hnd as [Hnotin Hnd'].
      eexists. split.
      { eapply step_end_scope; [done|]. cbn [destroy world].
        by eapply pause_dtor_top. }
      psim_goal. split_and!; try done.
      * eexists. rewrite lookup_insert_eq. by unfold set_top.
      * by apply NoDup_cons.
      * cbn [pmatch PSpec.charge]. split.
        { eexists. rewrite lookup_insert_eq.
          split_and!; try done. exists (clock w). split; [done|]. cbn. lia. }
        eapply pmatch_ext; [|done]. intros x Hx.
        rewrite lookup_insert_ne by (intros ->; done). done.
    + eexists. split.
      { eapply step_end_scope; [done|]. cbn [destroy world].
        apply pause_dtor_none. }
      psim_goal. split_and!; try done. eauto 10.
Qed.

Lemma psim_step h base v0 c m s e s' :
  psimulates h base v0 c m s →
  PSpec.step (bool_decide (h = execute c)) s e = Some s' →
  ∃ m', step m (to_paction h e) = Ok m' ∧ psimulates h base v0 c m' s'.
Proof.
  destruct m as [w fs], s as [t os rec lt]. intros Hsim.
  destruct e as [mode| | |d]; cbn [to_paction].
  - intros [= <-]. by apply psim_enter.
  - intros [= <-]. by apply psim_pause.
  - by apply psim_leave.
  - intros [= <-]. eexists. split; [apply step_elapse|]. by apply psim_wait.
Qed.

Lemma psim_run h base v0 c es : ∀ m s s',
  psimulates h base v0 c m s →
  PSpec.run (bool_decide (h = execute c)) s es = Some s' →
  ∃ m', run m (to_paction h <$> es) = Ok m' ∧ psimulates h base v0 c m' s'.
Proof.
  induction es as [|e es IH]; intros m s s' Hsim Hrun; cbn [PSpec.run] in Hrun.
  - injection Hrun as <-. by exists m.
  - destruct (PSpec.step _ s e) as [s1|] eqn:Hstep; [|done].
    destruct (psim_step _ _ _ _ _ _ _ _ Hsim Hstep) as (m1 & Hm1 & Hsim1).
    destruct (IH _ _ _ Hsim1 Hrun) as (m' & Hm' & Hsim').
    exists m'. split; [|done]. cbn [fmap list_fmap run]. by rewrite Hm1.
Qed.

Lemma psim_boot t0 hs c h H :
  hs !! h = Some H →
  hist_enabled H = true →
  current_ H = None →
  psimulates h (hist_samples H) 0 c (boot t0 hs c) (PSpec.init t0).
Proof.
  intros Hh Hen Htop. unfold psimulates, boot, PSpec.init. cbn.
  split_and!; try done.
  - exists H. by rewrite app_nil_r.
  - intros a Ha. by apply elem_of_nil in Ha.
  - apply NoDup_nil_2.
Qed.

Lemma pmatch_length ss h fs : ∀ ce os,
  pmatch ss h ce fs os → length fs = length os.
Proof.
  induction fs as [|[s|s|s|a|s] fs IH]; intros ce [|[e c mode|st] os];
    cbn [pmatch]; try done.
  - intros [_ Htail]. cbn. f_equal. by eapply IH.
  - intros [_ Htail]. cbn. f_equal. by eapply IH.
Qed.

(** Extra X5.  Nested scopes and pause scopes of one enabled histogram, in
    any nesting that a caller can write, started from a context in which the
    stack of the histogram is empty: every call returns, and the samples
    added, in the order in which the scopes are left, are for every scope
    the time between its construction and its destruction minus the time
    during which a scope or a pause scope directly inside it was alive.  The
    long-task counter grows by the samples of the scopes in mode kRecord
    when the histogram is the execute histogram of the counters, and not at
    all otherwise. *)
Theorem nesting_with_pauses_records_self_time (t0 : Z)
    (hs : gmap positive TimedHistogram) (c : Counters) (h : positive)
    (H : TimedHistogram) (es : list pevent) (s : PSpec.state) :
  hs !! h = Some H →
  hist_enabled H = true →
  current_ H = None →
  PSpec.run (bool_decide (h = execute c)) (PSpec.init t0) es = Some s →
  ∃ m,
    run (boot t0 hs c) (to_paction h <$> es) = Ok m
    ∧ samples_of h (world m) = hist_samples H ++ PSpec.recorded s
    ∧ v8_execute_us (world m) = PSpec.long_task s
    ∧ clock (world m) = PSpec.now s
    ∧ length (live m) = length (PSpec.open s).
Proof.
  intros Hh Hen Htop Hrun.
  destruct (psim_run h _ 0 c es _ _ _ (psim_boot t0 hs c h H Hh Hen Htop) Hrun)
    as (m & Hm & Hclock & _ & (H' & Hh' & _ & _ & Hsam) & Hv & _ & _ & Hpm).
  exists m. split_and!; try done.
  - unfold samples_of. by rewrite Hh'.
  - by eapply pmatch_length.
Qed.

Lemma nesting_with_pauses_records_self_time_witness :
  PSpec.run true (PSpec.init 0) ScenarioInsidePause.events
  = Some ScenarioInsidePause.final
  ∧ ∃ m,
      run Example.m0 (to_paction Example.H1 <$> ScenarioInsidePause.events) = Ok m
      ∧ samples_of Example.H1 (world m) = [4; 11]
      ∧ v8_execute_us (world m) = 0
      ∧ clock (world m) = 20
      ∧ length (live m) = 0%nat.
Proof.
  split; [reflexivity|].
  exact (nesting_with_pauses_records_self_time 0 Example.hs Example.cs
           Example.H1 (idle_histogram "V8.Execute" true)
           ScenarioInsidePause.events ScenarioInsidePause.final
           eq_refl eq_refl eq_refl eq_refl).
Defined.

(** ** No time is counted twice *)

Lemma total_app l x : total (l ++ [x]) = total l + x.
Proof. unfold total. induction l as [|y l IH]; cbn; lia. Qed.

Lemma pending_some t now now' os : pending (Some t) now os = pending (Some t) now' os.
Proof.
  revert t. induction os as [|[e c mode|st] os IH]; intros t; cbn [pending];
    [done|by rewrite (IH e)|apply IH].
Qed.

Lemma pending_now now os : pending None now os = pending (Some now) now os.
Proof. by destruct os as [|[]]. Qed.

Lemma pending_wait now d os :
  pending None (now + d) os
  = pending None now os
    + match is_scope <$> os with true :: _ => d | _ => 0 end.
Proof.
  destruct os as [|[e c mode|st] os]; cbn [pending fmap list_fmap is_scope].
  - lia.
  - rewrite (pending_some e (now + d) now). lia.
  - rewrite (pending_some st (now + d) now). lia.
Qed.

Lemma kinds_charge x os : is_scope <$> PSpec.charge x os = is_scope <$> os.
Proof. by destruct os as [|[]]. Qed.

Lemma pending_charge t now os :
  pending None now (PSpec.charge (now - t) os) = pending (Some t) now os.
Proof.
  destruct os as [|[e c mode|st] os]; cbn [PSpec.charge pending]; [done| |done].
  lia.
Qed.

Lemma measured_step primary s e s' :
  PSpec.step primary s e = Some s' →
  total (PSpec.recorded s') + pending None (PSpec.now s') (PSpec.open s')
  = total (PSpec.recorded s) + pending None (PSpec.now s) (PSpec.open s)
    + (time_measured (is_scope <$> PSpec.open s) [e])
  ∧ ∀ es, time_measured (is_scope <$> PSpec.open s) (e :: es)
          = time_measured (is_scope <$> PSpec.open s) [e]
            + time_measured (is_scope <$> PSpec.open s') es.
Proof.
  destruct s as [t os rec lt], e as [mode| | |d];
    cbn [PSpec.step PSpec.now PSpec.open PSpec.recorded PSpec.long_task
         time_measured].
  - intros [= <-]. cbn [PSpec.now PSpec.open PSpec.recorded pending fmap
                        list_fmap is_scope].
    rewrite <- pending_now. split; [lia|]. intros es. lia.
  - intros [= <-]. cbn [PSpec.now PSpec.open PSpec.recorded pending fmap
                        list_fmap is_scope].
    rewrite <- pending_now. split; [lia|]. intros es. lia.
  - destruct os as [|[e c mode|st] os]; [done| |]; intros [= <-];
      cbn [PSpec.now PSpec.open PSpec.recorded pending fmap list_fmap is_scope
           tail].
    + rewrite total_app, pending_charge, kinds_charge. split; [lia|].
      intros es. lia.
    + rewrite pending_charge, kinds_charge. split; [lia|]. intros es. lia.
  - intros [= <-]. cbn [PSpec.now PSpec.open PSpec.recorded].
    rewrite pending_wait. split; [|intros es; lia].
    destruct (is_scope <$> os) as [|[] ?]; lia.
Qed.

Lemma measured_run primary es : ∀ s s',
  PSpec.run primary s es = Some s' →
  total (PSpec.recorded s') + pending None (PSpec.now s') (PSpec.open s')
  = total (PSpec.recorded s) + pending None (PSpec.now s) (PSpec.open s)
    + time_measured (is_scope <$> PSpec.open s) es.
Proof.
  induction es as [|e es IH]; intros s s' Hrun; cbn [PSpec.run] in Hrun.
  - injection Hrun as <-. cbn. lia.
  - destruct (PSpec.step primary s e) as [s1|] eqn:Hstep; [|done].
    destruct (measured_step _ _ _ _ Hstep) as [H1 H2].
    rewrite (IH _ _ Hrun), H1, (H2 es). lia.
Qed.

(** Extra X6.  No instant is counted twice, and none is lost: when nested
    scopes and pause scopes of one enabled histogram have all been left, the
    new samples add up to the time during which at least one scope was
    alive and the innermost live object was a scope, not a pause scope. *)
Theorem no_time_is_counted_twice (t0 : Z)
    (hs : gmap positive TimedHistogram) (c : Counters) (h : positive)
    (H : TimedHistogram) (es : list pevent) (s : PSpec.state) :
  hs !! h = Some H →
  hist_enabled H = true →
  current_ H = None →
  PSpec.run (bool_decide (h = execute c)) (PSpec.init t0) es = Some s →
  PSpec.open s = [] →
  ∃ m new,
    run (boot t0 hs c) (to_paction h <$> es) = Ok m
    ∧ live m = []
    ∧ samples_of h (world m) = hist_samples H ++ new
    ∧ total new = time_in_scopes es.
Proof.
  intros Hh Hen Htop Hrun Hopen.
  destruct (psim_run h _ 0 c es _ _ _ (psim_boot t0 hs c h H Hh Hen Htop) Hrun)
    as (m & Hm & _ & _ & (H' & Hh' & _ & _ & Hsam) & _ & _ & _ & Hpm).
  exists m, (PSpec.recorded s). split_and!; try done.
  - apply pmatch_length in Hpm. rewrite Hopen in Hpm. by destruct (live m).
  - unfold samples_of. by rewrite Hh'.
  - pose proof (measured_run _ _ _ _ Hrun) as Hsum. rewrite Hopen in Hsum.
    cbn in Hsum. unfold time_in_scopes. lia.
Qed.

Lemma no_time_is_counted_twice_witness :
  time_in_scopes ScenarioInsidePause.events = 15
  ∧ ∃ m new,
      run Example.m0 (to_paction Example.H1 <$> ScenarioInsidePause.events) = Ok m
      ∧ live m = []
      ∧ samples_of Example.H1 (world m) = new
      ∧ total new = 15.
Proof.
  split; [reflexivity|].
  exact (no_time_is_counted_twice 0 Example.hs Example.cs
           Example.H1 (idle_histogram "V8.Execute" true)
           ScenarioInsidePause.events ScenarioInsidePause.final
           eq_refl eq_refl eq_refl eq_refl eq_refl).
Defined.

(** ** The long-task total *)

Lemma run_long_task h es : ∀ m,
  run m (to_long_task_action h <$> es)
  = run m (to_paction h <$> (as_record <$> es)).
Proof.
  induction es as [|e es IH]; intros m; [done|].
  cbn [fmap list_fmap run].
  assert (step m (to_long_task_action h e) = step m (to_paction h (as_record e)))
    as -> by (by destruct e).
  destruct (step m _); [apply IH|done].
Qed.

Lemma all_record_charge x os : all_record os → all_record (PSpec.charge x os).
Proof.
  destruct os as [|[e c mode|st] os]; cbn [PSpec.charge]; try done.
  intros [Hm Hrest]%Forall_cons. by apply Forall_cons.
Qed.

Lemma long_task_step primary s e s' :
  PSpec.step primary s (as_record e) = Some s' →
  all_record (PSpec.open s) →
  all_record (PSpec.open s')
  ∧ PSpec.long_task s' - PSpec.long_task s
    = if primary
      then total (PSpec.recorded s') - total (PSpec.recorded s)
      else 0.
Proof.
  destruct s as [t os rec lt], e as [mode| | |d];
    cbn [as_record PSpec.step PSpec.now PSpec.open PSpec.recorded PSpec.long_task].
  - intros [= <-] Hall.
    cbn [PSpec.now PSpec.open PSpec.recorded PSpec.long_task]. split; [by apply Forall_cons|]. destruct primary; lia.
  - intros [= <-] Hall.
    cbn [PSpec.now PSpec.open PSpec.recorded PSpec.long_task]. split; [by apply Forall_cons|]. destruct primary; lia.
  - destruct os as [|[e c mode|st] os]; [done| |]; intros [= <-];
      intros [Hm Hall]%Forall_cons;
      cbn [PSpec.now PSpec.open PSpec.recorded PSpec.long_task].
    + split; [by apply all_record_charge|]. subst mode.
      rewrite total_app, (bool_decide_eq_true_2 (kRecord = kRecord)) by done.
      destruct primary; cbn [andb]; lia.
    + split; [by apply all_record_charge|]. destruct primary; lia.
  - intros [= <-] Hall.
    cbn [PSpec.now PSpec.open PSpec.recorded PSpec.long_task]. split; [done|]. destruct primary; lia.
Qed.

Lemma long_task_run primary es : ∀ s s',
  PSpec.run primary s (as_record <$> es) = Some s' →
  all_record (PSpec.open s) →
  PSpec.long_task s' - PSpec.long_task s
  = if primary
    then total (PSpec.recorded s') - total (PSpec.recorded s)
    else 0.
Proof.
  induction es as [|e es IH]; intros s s' Hrun Hall;
    cbn [fmap list_fmap PSpec.run] in Hrun.
  - injection Hrun as <-. destruct primary; lia.
  - destruct (PSpec.step primary s (as_record e)) as [s1|] eqn:Hstep; [|done].
    destruct (long_task_step _ _ _ _ Hstep Hall) as [Hall1 H1].
    pose proof (IH _ _ Hrun Hall1) as H2. destruct primary; lia.
Qed.

(** Extra X7.  Long-task nested scopes are nested scopes in mode kRecord:
    when they are used on the execute histogram of the counters, with or
    without pause scopes, the long-task counter ends as the sum of the
    samples they added to the histogram; on any other histogram it stays
    zero. *)
Theorem long_task_scopes_add_up (t0 : Z)
    (hs : gmap positive TimedHistogram) (c : Counters) (h : positive)
    (H : TimedHistogram) (es : list pevent) (s : PSpec.state) :
  hs !! h = Some H →
  hist_enabled H = true →
  current_ H = None →
  PSpec.run (bool_decide (h = execute c)) (PSpec.init t0) (as_record <$> es)
  = Some s →
  ∃ m,
    run (boot t0 hs c) (to_long_task_action h <$> es) = Ok m
    ∧ samples_of h (world m) = hist_samples H ++ PSpec.recorded s
    ∧ v8_execute_us (world m)
      = if bool_decide (h = execute c) then total (PSpec.recorded s) else 0.
Proof.
  intros Hh Hen Htop Hrun.
  destruct (psim_run h _ 0 c _ _ _ _ (psim_boot t0 hs c h H Hh Hen Htop) Hrun)
    as (m & Hm & _ & _ & (H' & Hh' & _ & _ & Hsam) & Hv & _ & _ & _).
  exists m. split_and!.
  - by rewrite run_long_task.
  - unfold samples_of. by rewrite Hh'.
  - pose proof (long_task_run _ _ _ _ Hrun (Forall_nil_2 _)) as Hlt.
    cbn in Hlt. rewrite Hv. destruct (bool_decide (h = execute c)); lia.
Qed.

Lemma long_task_scopes_add_up_witness :
  PSpec.run true (PSpec.init 0) (as_record <$> ScenarioLongTasks.events)
  = Some ScenarioLongTasks.final
  ∧ ∃ m,
      run Example.m0 (to_long_task_action Example.H1 <$> ScenarioLongTasks.events)
      = Ok m
      ∧ samples_of Example.H1 (world m) = [20; 30]
      ∧ v8_execute_us (world m) = 50.
Proof.
  split; [reflexivity|].
  exact (long_task_scopes_add_up 0 Example.hs Example.cs
           Example.H1 (idle_histogram "V8.Execute" true)
           ScenarioLongTasks.events ScenarioLongTasks.final
           eq_refl eq_refl eq_refl eq_refl).
Defined.

(** ** One nested scope in any store *)

Lemma run_step m a m' prog :
  step m a = Ok m' → run m (a :: prog) = run m' prog.
Proof. intros E. cbn [run]. by rewrite E. Qed.

(** Extra X8.  One nested scope on an enabled histogram, constructed in any
    store in which the address of the new scope is free and the scope on top
    of the stack, if there is one, runs its timer: constructing it, letting
    [d] microseconds pass and destroying it returns, adds the one sample
    [d], restores the stack top, changes no other histogram and no scope
    but the one that was on top, and of that one only the timer, which from
    then on reads [d] microseconds less than it would have. *)
Theorem nested_scope_round_trip (w : World) (fs : list scope_object)
    (h : hist_id) (H : TimedHistogram) (mode : LongTaskRecordMode) (d : N) :
  histograms w !! h = Some H →
  hist_enabled H = true →
  scopes w !! next_scope w = None →
  (∀ p, current_ H = Some p →
        ∃ sp since, scopes w !! p = Some sp
                    ∧ phase (timer_ (nested_base sp)) = Running since) →
  ∃ m',
    run (mkMachine w fs) [NewNested (Some h) mode; Elapse d; EndScope] = Ok m'
    ∧ live m' = fs
    ∧ top_of h (world m') = current_ H
    ∧ samples_of h (world m') = hist_samples H ++ [Z.of_N d]
    ∧ (∀ h', h' ≠ h → histograms (world m') !! h' = histograms w !! h')
    ∧ (∀ a, Some a ≠ current_ H → scopes (world m') !! a = scopes w !! a)
    ∧ ∀ p sp,
        current_ H = Some p →
        scopes w !! p = Some sp →
        ∃ sp',
          scopes (world m') !! p = Some sp'
          ∧ same_but_timer (Some sp) (Some sp')
          ∧ ∀ t x,
              Timer.Elapsed t (timer_ (nested_base sp)) = Ok x →
              Timer.Elapsed t (timer_ (nested_base sp')) = Ok (x - Z.of_N d).
Proof.
  intros Hh Hen Hfree Hrun.
  destruct (current_ H) as [p|] eqn:Htop.
  - destruct (Hrun p eq_refl) as (sp & since & Hp & Hph).
    assert (p ≠ next_scope w) as Hne by (intros ->; congruence).
    erewrite run_step;
      [|apply step_new_nested; by eapply (nested_ctor_top _ _ _ mode)].
    erewrite run_step; [|apply step_elapse].
    erewrite run_step.
    2:{ eapply step_end_scope; [done|]. cbn [destroy world].
        eapply (nested_dtor_inner _ _ _ h _ (clock w) p);
          [mcbv; by rewrite lookup_insert_eq
          |done
          |mcbv; by rewrite lookup_insert_eq
          |done
          |done
          |done
          |done
          |mcbv; by rewrite lookup_insert_ne, lookup_insert_eq
          |done]. }
    eexists. split; [done|]. cbn [live world]. mcbv.
    unfold top_of, samples_of. mcbv.
    rewrite !lookup_insert_eq. cbn [add_sample set_top hist_samples current_].
    split_and!; try done.
    + do 2 f_equal. lia.
    + intros h' Hh'. by rewrite !lookup_insert_ne.
    + intros a Ha. destruct (decide (a = next_scope w)) as [->|Hna].
      * by rewrite lookup_delete_eq.
      * rewrite lookup_delete_ne, !lookup_insert_ne by congruence. done.
    + intros ? sp0 [= <-] Hsp0. simplify_eq.
      eexists. rewrite lookup_delete_ne, lookup_insert_eq by done.
      split; [done|]. split; [by destruct sp as [[] ? ?]|].
      intros t x. unfold Timer.Elapsed. rewrite Hph. cbn.
      intros [= <-]. f_equal. lia.
  - erewrite run_step;
      [|apply step_new_nested; by eapply (nested_ctor_idle _ _ _ mode)].
    erewrite run_step; [|apply step_elapse].
    erewrite run_step.
    2:{ eapply step_end_scope; [done|]. cbn [destroy world].
        eapply (nested_dtor_last _ _ _ h _ (clock w));
          [mcbv; by rewrite lookup_insert_eq
          |done
          |mcbv; by rewrite lookup_insert_eq
          |done
          |done
          |done]. }
    eexists. split; [done|]. cbn [live world]. mcbv.
    unfold top_of, samples_of. mcbv.
    rewrite !lookup_insert_eq. cbn [add_sample set_top hist_samples current_].
    split_and!; try done.
    + do 2 f_equal. lia.
    + intros h' Hh'. by rewrite !lookup_insert_ne.
    + intros a Ha. destruct (decide (a = next_scope w)) as [->|Hna].
      * by rewrite lookup_delete_eq.
      * rewrite lookup_delete_ne, !lookup_insert_ne by congruence. done.
Qed.

Lemma nested_scope_round_trip_witness :
  ∃ m',
    run ScenarioNested.m [NewNested (Some Example.H1) kSkip; Elapse 4; EndScope]
    = Ok m'
    ∧ live m' = live ScenarioNested.m
    ∧ top_of Example.H1 (world m') = Some 1%nat
    ∧ samples_of Example.H1 (world m') = [4].
Proof.
  destruct (nested_scope_round_trip (world ScenarioNested.m)
              (live ScenarioNested.m) Example.H1 ScenarioNested.top_histogram
              kSkip 4%N eq_refl eq_refl eq_refl)
    as (m' & Hrun & Hlive & Htop & Hsam & _).
  - intros p [= <-]. eexists _, _. split; reflexivity.
  - exists m'. split_and!; [exact Hrun|exact Hlive|exact Htop|exact Hsam].
Defined.

(** ** What no scope ever changes *)

Ltac hist_frame_solve :=
  let h' := fresh "h'" in
  intros h'; mcbv; rewrite ?lookup_insert;
  repeat (case_decide; simplify_eq);
  repeat match goal with
         | Hl : histograms ?w !! ?k = _ |- context [histograms ?w !! ?k] =>
             rewrite Hl
         end;
  try (split_and!; [done|done|congruence]);
  try (destruct (histograms _ !! h') as [[]|]; done).

Lemma hist_frame_refl w : hist_frame w w.
Proof. intros h. by destruct (histograms w !! h). Qed.

Ltac scopes_solve :=
  let a := fresh "a" in
  intros a; mcbv;
  rewrite ?lookup_delete_is_Some, ?lookup_insert_is_Some';
  split;
  [ intros; repeat match goal with
                   | Hx : _ ∧ _ |- _ => destruct Hx
                   | Hx : _ ∨ _ |- _ => destruct Hx
                   end;
    subst; split; eauto; try congruence
  | intros [[?|?] ?]; simplify_eq; eauto 6; try (split; [congruence|eauto]) ].

Ltac lookup_norm :=
  repeat match goal with
         | Hl : <[?k := _]> _ !! ?a = _ |- _ =>
             first [ rewrite lookup_insert_eq in Hl
                   | rewrite lookup_insert_ne in Hl by done
                   | destruct (decide (k = a)) as [?|?];
                     [subst; rewrite lookup_insert_eq in Hl
                     |rewrite lookup_insert_ne in Hl by done] ]
         end;
  simplify_eq; mhyps.

Ltac kept_solve :=
  let a := fresh "a" in
  let sc := fresh "sc" in
  intros a sc ? ? ?; mcbv;
  repeat match goal with
         | |- context [<[?k := _]> _ !! a] =>
             destruct (decide (a = k)) as [->|?];
             [rewrite lookup_insert_eq|rewrite lookup_insert_ne by done]
         | |- context [delete ?k _ !! a] =>
             destruct (decide (a = k)) as [->|?];
             [done|rewrite lookup_delete_ne by done]
         end;
  try done; lookup_norm; eauto.

Ltac call_frame_solve :=
  unfold call_frame; mcbv;
  split_and!; [done|done|hist_frame_solve|done|scopes_solve|kept_solve].

Ltac logs_solve :=
  unfold statuses; mcbv; rewrite ?fmap_app, ?app_nil_r; done.

Lemma timed_ctor_frame h iso w s w1 :
  Timed.ctor h iso w = Ok (s, w1) →
  call_frame None None w w1
  ∧ timed_isolate_ s = iso
  ∧ statuses w1 = statuses w ++ (if logs (ATimed s) then [kStart] else []).
Proof.
  mrun. intros Hr.
  mcases; (split; [call_frame_solve|]); (split; [done|]); cbn [logs timed_isolate_];
    destruct iso; logs_solve.
Qed.

Lemma timed_dtor_frame s w w1 :
  Timed.dtor s w = Ok (tt, w1) →
  call_frame None None w w1
  ∧ statuses w1 = statuses w ++ (if logs (ATimed s) then [kEnd] else []).
Proof.
  mrun. intros Hr. destruct s as [b [i|]].
  all: mcases; (split; [call_frame_solve|]); cbn [logs timed_isolate_]; logs_solve.
Qed.

Lemma optional_ctor_frame h iso mode w s w1 :
  Optional.ctor h iso mode w = Ok (s, w1) →
  call_frame None None w w1
  ∧ statuses w1 = statuses w ++ (if logs (AOptional s) then [kStart] else []).
Proof.
  mrun. intros Hr. destruct mode.
  all: mcases; (split; [call_frame_solve|]); cbn [logs opt_mode_]; logs_solve.
Qed.

Lemma optional_dtor_frame s w w1 :
  Optional.dtor s w = Ok (tt, w1) →
  call_frame None None w w1
  ∧ statuses w1 = statuses w ++ (if logs (AOptional s) then [kEnd] else []).
Proof.
  mrun. intros Hr. destruct s as [b i []].
  all: mcases; (split; [call_frame_solve|]); cbn [logs opt_mode_]; logs_solve.
Qed.

Lemma lazy_dtor_frame s w w1 :
  Lazy.dtor s w = Ok (tt, w1) →
  call_frame None None w w1 ∧ statuses w1 = statuses w.
Proof.
  mrun. intros Hr. mcases; (split; [call_frame_solve|]); logs_solve.
Qed.

Lemma pause_ctor_frame h w s w1 :
  PauseNested.ctor h w = Ok (s, w1) →
  call_frame None None w w1 ∧ statuses w1 = statuses w.
Proof.
  mrun. intros Hr. mcases; (split; [call_frame_solve|]); logs_solve.
Qed.

Lemma pause_dtor_frame s w w1 :
  PauseNested.dtor s w = Ok (tt, w1) →
  call_frame None None w w1 ∧ statuses w1 = statuses w.
Proof.
  mrun. intros Hr. mcases; (split; [call_frame_solve|]); logs_solve.
Qed.

Lemma nested_ctor_frame h mode w this w1 :
  Nested.ctor h mode w = Ok (this, w1) →
  this = next_scope w
  ∧ call_frame (Some this) None w w1
  ∧ statuses w1 = statuses w ++ [kStart]
  ∧ scope_histogram (scopes w1) this = h.
Proof.
  mrun. intros Hr.
  mcases; lookup_norm; (split; [done|]); (split; [call_frame_solve|]);
    try (split; [logs_solve|unfold scope_histogram; mcbv;
                            by rewrite lookup_insert_eq]).
Qed.

Lemma nested_dtor_frame this w w1 :
  Nested.dtor this w = Ok (tt, w1) →
  call_frame None (Some this) w w1
  ∧ statuses w1 = statuses w ++ [kEnd].
Proof.
  intros Hr.
  destruct (scopes w !! this) as [self|] eqn:Hs; [|revert Hr; by mrun].
  destruct (histogram_ (nested_base self)) as [h|] eqn:Hsh; [|revert Hr; by mrun].
  destruct (histograms w !! h) as [H|] eqn:Hh; [|revert Hr; by mrun].
  destruct (hist_enabled H) eqn:Hen.
  2:{ rewrite (nested_dtor_disabled _ _ _ _ _ Hs Hsh Hh Hen) in Hr.
      injection Hr as <-. split; [call_frame_solve|logs_solve]. }
  destruct (long_task_record_mode_ self) eqn:Hmode;
    [|destruct (decide (h = execute (counters w))) as [Hex|Hex]; [subst h|]].
  all: destruct (phase (timer_ (nested_base self))) eqn:Hph;
    [revert Hr; by mrun| |].
  all: destruct (previous_scope_ self) as [p|] eqn:Hprev.
  all: try (destruct (decide (p = this)) as [->|Hne];
            [|destruct (scopes w !! p) as [sp|] eqn:Hp;
              [destruct (phase (timer_ (nested_base sp))) eqn:Hpp|]]).
  all: revert Hr; mrun; try done; intros [= <-].
  all: split; [call_frame_solve|logs_solve].
Qed.

Lemma hist_frame_trans w w1 w2 :
  hist_frame w w1 → hist_frame w1 w2 → hist_frame w w2.
Proof.
  intros F1 F2 h. specialize (F1 h). specialize (F2 h).
  destruct (histograms w !! h) as [H|], (histograms w1 !! h) as [H1|],
    (histograms w2 !! h) as [H2|]; try done.
  destruct F1 as (N1 & E1 & D1), F2 as (N2 & E2 & D2).
  split_and!; [congruence|congruence|].
  intros Hd. rewrite D2, D1; [done|done|]. rewrite D1; done.
Qed.

Lemma starts_of_app l x :
  starts_of (l ++ [x]) = (starts_of l + if decide (x = kStart) then 1 else 0)%nat.
Proof.
  unfold starts_of. rewrite filter_app, length_app. f_equal.
  rewrite filter_cons, filter_nil. by case_decide.
Qed.

Lemma ends_of_app l x :
  ends_of (l ++ [x]) = (ends_of l + if decide (x = kEnd) then 1 else 0)%nat.
Proof.
  unfold ends_of. rewrite filter_app, length_app. f_equal.
  rewrite filter_cons, filter_nil. by case_decide.
Qed.

Lemma owed_cons o fs :
  owed (o :: fs) = ((if logs o then 1 else 0) + owed fs)%nat.
Proof. unfold owed. rewrite filter_cons. by destruct (logs o). Qed.

Lemma step_frame m a m' :
  step m a = Ok m' →
  counters (world m') = counters (world m) ∧ hist_frame (world m) (world m').
Proof.
  destruct m as [w fs]. intros Hstep.
  destruct a; cbn [step] in Hstep;
    try (apply construct_ret_inv in Hstep as (s & w1 & E & ->);
         cbn [world live] in * ).
  - injection Hstep as <-. split; [done|].
    intros h. cbn. by destruct (histograms w !! h).
  - apply timed_ctor_frame in E as [(_ & ? & ? & _) _]. done.
  - apply optional_ctor_frame in E as [(_ & ? & ? & _) _]. done.
  - revert E. mrun. intros [= _ <-]. split; [done|].
    intros h. cbn. by destruct (histograms w !! h).
  - apply step_set_histogram_inv in Hstep as (s & Hi & ->).
    split; [done|apply hist_frame_refl].
  - apply nested_ctor_frame in E as (_ & (_ & ? & ? & _) & _). done.
  - apply nested_ctor_frame in E as (_ & (_ & ? & ? & _) & _). done.
  - apply pause_ctor_frame in E as [(_ & ? & ? & _) _]. done.
  - cbn [world live] in Hstep. destruct fs as [|o rest]; [done|].
    destruct (destroy o w) as [[[] w1]|] eqn:E; [|done]. injection Hstep as <-.
    cbn [world]. destruct o; cbn [destroy] in E.
    + apply timed_dtor_frame in E as [(_ & ? & ? & _) _]. done.
    + apply optional_dtor_frame in E as [(_ & ? & ? & _) _]. done.
    + apply lazy_dtor_frame in E as [(_ & ? & ? & _) _]. done.
    + apply nested_dtor_frame in E as [(_ & ? & ? & _) _]. done.
    + apply pause_dtor_frame in E as [(_ & ? & ? & _) _]. done.
Qed.

Lemma run_frame prog : ∀ m m',
  run m prog = Ok m' →
  counters (world m') = counters (world m) ∧ hist_frame (world m) (world m').
Proof.
  induction prog as [|a prog IH]; intros m m' Hrun; cbn [run] in Hrun.
  - injection Hrun as <-. split; [done|apply hist_frame_refl].
  - destruct (step m a) as [m1|] eqn:Hstep; [|done].
    destruct (step_frame _ _ _ Hstep) as [C1 F1].
    destruct (IH _ _ Hrun) as [C2 F2].
    split; [congruence|by eapply hist_frame_trans].
Qed.

Lemma hist_frame_disabled w w1 h H :
  hist_frame w w1 →
  histograms w !! h = Some H → hist_enabled H = false →
  histograms w1 !! h = Some H.
Proof.
  intros Hf Hh Hd. specialize (Hf h). rewrite Hh in Hf.
  destruct (histograms w1 !! h) as [H'|]; [|done].
  destruct Hf as (_ & _ & ->); done.
Qed.

(** Extra X9.  Whatever the caller does, from any state: the counters
    object stays, no histogram appears or disappears, every histogram keeps
    its name and its enabled flag, and a disabled histogram keeps its
    samples and its stack top. *)
Theorem disabled_histograms_never_change (prog : list action)
    (m m' : Machine) :
  run m prog = Ok m' →
  counters (world m') = counters (world m)
  ∧ (∀ h, is_Some (histograms (world m') !! h)
          ↔ is_Some (histograms (world m) !! h))
  ∧ (∀ h H H',
       histograms (world m) !! h = Some H →
       histograms (world m') !! h = Some H' →
       hist_name H' = hist_name H ∧ hist_enabled H' = hist_enabled H)
  ∧ ∀ h H,
      histograms (world m) !! h = Some H →
      hist_enabled H = false →
      histograms (world m') !! h = Some H.
Proof.
  intros Hrun. destruct (run_frame _ _ _ Hrun) as [Hc Hf].
  split_and!; [done| | |].
  - intros h. specialize (Hf h).
    destruct (histograms (world m) !! h), (histograms (world m') !! h);
      try done; split; by eauto.
  - intros h H H' Hh Hh'. specialize (Hf h). rewrite Hh, Hh' in Hf.
    by destruct Hf as (? & ? & _).
  - intros h H. by apply hist_frame_disabled.
Qed.

Lemma disabled_histograms_never_change_witness :
  ∃ m',
    run Example.m0
        [NewNested (Some Example.H2) kRecord; Elapse 3;
         NewTimed (Some Example.H2) (Some Example.iso); Elapse 2;
         NewPause (Some Example.H2); EndScope; EndScope; EndScope]
    = Ok m'
    ∧ histograms (world m') !! Example.H2 = Some (idle_histogram "V8.GC" false).
Proof.
  set (prog := [NewNested (Some Example.H2) kRecord; Elapse 3;
                NewTimed (Some Example.H2) (Some Example.iso); Elapse 2;
                NewPause (Some Example.H2); EndScope; EndScope; EndScope]).
  destruct (run Example.m0 prog) as [m'|f] eqn:Hrun; [|by vm_compute in Hrun].
  exists m'. split; [done|].
  by apply (disabled_histograms_never_change prog Example.m0 m' Hrun).
Defined.

(** ** The store and the log along a run *)

Lemma count_start_suffix l (b : bool) :
  starts_of (l ++ (if b then [kStart] else []))
  = (starts_of l + if b then 1 else 0)%nat
  ∧ ends_of (l ++ (if b then [kStart] else [])) = ends_of l.
Proof.
  destruct b; rewrite ?app_nil_r, ?starts_of_app, ?ends_of_app;
    repeat case_decide; try done; split; lia.
Qed.

Lemma count_end_suffix l (b : bool) :
  starts_of (l ++ (if b then [kEnd] else [])) = starts_of l
  ∧ ends_of (l ++ (if b then [kEnd] else []))
    = (ends_of l + if b then 1 else 0)%nat.
Proof.
  destruct b; rewrite ?app_nil_r, ?starts_of_app, ?ends_of_app;
    repeat case_decide; try done; split; lia.
Qed.

Lemma hygiene_push w fs o w1 :
  call_frame None None w w1 →
  statuses w1 = statuses w ++ (if logs o then [kStart] else []) →
  nested_ids (o :: fs) = nested_ids fs →
  hygiene (mkMachine w fs) → hygiene (mkMachine w1 (o :: fs)).
Proof.
  intros (_ & _ & _ & Hn & Hs & _) Hl Hids (I1 & I2 & I3 & I4).
  cbn [world live] in *. unfold hygiene. cbn [world live].
  rewrite Hids, Hl, Hn, owed_cons.
  destruct (count_start_suffix (statuses w) (logs o)) as [-> ->].
  split_and!; [|done|done|lia].
  intros a. rewrite Hs, <- I1.
  split; [by intros [[?|?] _]|]. intros ?. split; [by right|done].
Qed.

Lemma hygiene_pop w fs o w1 :
  call_frame None None w w1 →
  statuses w1 = statuses w ++ (if logs o then [kEnd] else []) →
  nested_ids (o :: fs) = nested_ids fs →
  hygiene (mkMachine w (o :: fs)) → hygiene (mkMachine w1 fs).
Proof.
  intros (_ & _ & _ & Hn & Hs & _) Hl Hids (I1 & I2 & I3 & I4).
  cbn [world live] in *. unfold hygiene. cbn [world live].
  rewrite Hids in I1, I2, I3. rewrite owed_cons in I4. rewrite Hl, Hn.
  destruct (count_end_suffix (statuses w) (logs o)) as [-> ->].
  split_and!; [|done|done|lia].
  intros a. rewrite Hs, <- I1.
  split; [by intros [[?|?] _]|]. intros ?. split; [by right|done].
Qed.

Lemma hygiene_enter w fs this w1 :
  this = next_scope w →
  call_frame (Some this) None w w1 →
  statuses w1 = statuses w ++ [kStart] →
  hygiene (mkMachine w fs) → hygiene (mkMachine w1 (ANested this :: fs)).
Proof.
  intros -> (_ & _ & _ & Hn & Hs & _) Hl (I1 & I2 & I3 & I4).
  cbn [world live] in *. unfold hygiene. cbn [world live nested_ids].
  rewrite Hl, Hn, owed_cons, starts_of_app, ends_of_app. cbn [logs].
  rewrite decide_True, decide_False by done.
  split_and!; [| | |lia].
  - intros a. rewrite Hs, elem_of_cons, <- I1. split.
    + intros [[[= ->]|?] _]; [by left|by right].
    + intros [->|?]; (split; [|done]); [by left|by right].
  - intros a [->|Ha]%elem_of_cons; [lia|]. apply I2 in Ha. lia.
  - apply NoDup_cons. split; [|done]. intros Ha. apply I2 in Ha. lia.
Qed.

Lemma hygiene_leave w fs this w1 :
  call_frame None (Some this) w w1 →
  statuses w1 = statuses w ++ [kEnd] →
  hygiene (mkMachine w (ANested this :: fs)) → hygiene (mkMachine w1 fs).
Proof.
  intros (_ & _ & _ & Hn & Hs & _) Hl (I1 & I2 & I3 & I4).
  cbn [world live nested_ids] in *. unfold hygiene. cbn [world live].
  rewrite owed_cons in I4. cbn [logs] in I4.
  rewrite Hl, Hn, starts_of_app, ends_of_app.
  rewrite decide_False, decide_True by done.
  apply NoDup_cons in I3 as [Hnot I3].
  split_and!; [| |done|lia].
  - intros a. rewrite Hs. specialize (I1 a). rewrite elem_of_cons in I1.
    split.
    + intros [[?|Ha] Hne]; [done|]. apply I1 in Ha as [->|Ha]; done.
    + intros Ha. split; [right; apply I1; by right|]. intros [= ->]. done.
  - intros a Ha. apply I2. by right.
Qed.

Lemma set_lazy_owed fs : ∀ i s s',
  fs !! i = Some (ALazy s) → owed (<[i := ALazy s']> fs) = owed fs.
Proof.
  induction fs as [|o fs IH]; intros [|i] s s' Hi; try done.
  - by injection Hi as ->.
  - cbn in Hi. cbn [insert list_insert]. fold (<[i := ALazy s']> fs).
    by rewrite !owed_cons, (IH _ _ _ Hi).
Qed.

Lemma hygiene_step m a m' :
  step m a = Ok m' → hygiene m → hygiene m'.
Proof.
  destruct m as [w fs]. intros Hstep Hy.
  destruct a; cbn [step] in Hstep;
    try (apply construct_ret_inv in Hstep as (s & w1 & E & ->);
         cbn [world live] in * ).
  - injection Hstep as <-. exact Hy.
  - apply timed_ctor_frame in E as (F & _ & L). by eapply hygiene_push.
  - apply optional_ctor_frame in E as (F & L). by eapply hygiene_push.
  - revert E. mrun. intros [= <- <-]. exact Hy.
  - apply step_set_histogram_inv in Hstep as (s & Hi & ->).
    destruct Hy as (I1 & I2 & I3 & I4). unfold hygiene in *.
    cbn [world live] in *.
    by rewrite (set_lazy_nested_ids _ _ _ _ Hi), (set_lazy_owed _ _ _ _ Hi).
  - apply nested_ctor_frame in E as (T & F & L & _). by eapply hygiene_enter.
  - apply nested_ctor_frame in E as (T & F & L & _). by eapply hygiene_enter.
  - apply pause_ctor_frame in E as (F & L).
    eapply hygiene_push; [done| |done..]. cbn [logs]. by rewrite app_nil_r.
  - cbn [world live] in Hstep. destruct fs as [|o rest]; [done|].
    destruct (destroy o w) as [[[] w1]|] eqn:E; [|done]. injection Hstep as <-.
    destruct o as [s|s|s|this|s]; cbn [destroy] in E.
    + apply timed_dtor_frame in E as (F & L).
      by eapply (hygiene_pop _ _ (ATimed s)).
    + apply optional_dtor_frame in E as (F & L).
      by eapply (hygiene_pop _ _ (AOptional s)).
    + apply lazy_dtor_frame in E as (F & L).
      eapply (hygiene_pop _ _ (ALazy s)); [done| |done..].
      cbn [logs]. by rewrite app_nil_r.
    + apply nested_dtor_frame in E as (F & L). by eapply hygiene_leave.
    + apply pause_dtor_frame in E as (F & L).
      eapply (hygiene_pop _ _ (APause s)); [done| |done..].
      cbn [logs]. by rewrite app_nil_r.
Qed.

Lemma hygiene_run prog : ∀ m m',
  run m prog = Ok m' → hygiene m → hygiene m'.
Proof.
  induction prog as [|a prog IH]; intros m m' Hrun Hy; cbn [run] in Hrun.
  - by injection Hrun as <-.
  - destruct (step m a) as [m1|] eqn:Hstep; [|done].
    eapply IH; [done|]. by eapply hygiene_step.
Qed.

Lemma hygiene_boot t0 hs c : hygiene (boot t0 hs c).
Proof.
  unfold hygiene, boot. cbn. split_and!; try done.
  - intros a. rewrite lookup_empty. split; [by intros []|by intros ?%elem_of_nil].
  - intros a ?%elem_of_nil. done.
  - constructor.
Qed.

Lemma nested_ids_elem a fs : a ∈ nested_ids fs ↔ ANested a ∈ fs.
Proof.
  split; [apply nested_ids_live|].
  induction fs as [|o fs IH]; [by intros ?%elem_of_nil|].
  intros [<-|Hin]%elem_of_cons; [by left|].
  destruct o; cbn [nested_ids]; try by apply IH.
  right. by apply IH.
Qed.

(** Extra X10.  In every state that a caller reaches from a context whose
    scope stacks are empty, the store holds exactly the nested scopes that
    are live.  When all objects have been destroyed the store is empty and
    the stack of every histogram, enabled or not, is empty again. *)
Theorem balanced_run_leaves_nothing_behind (t0 : Z)
    (hs : gmap positive TimedHistogram) (c : Counters)
    (prog : list action) (m : Machine) :
  (∀ h H, hs !! h = Some H → current_ H = None) →
  run (boot t0 hs c) prog = Ok m →
  (∀ a, is_Some (scopes (world m) !! a) ↔ ANested a ∈ live m)
  ∧ (live m = [] →
     scopes (world m) = ∅
     ∧ ∀ h H, histograms (world m) !! h = Some H → current_ H = None).
Proof.
  intros Hidle Hrun.
  destruct (hygiene_run _ _ _ Hrun (hygiene_boot t0 hs c)) as (Hstore & _).
  split.
  { intros a. by rewrite Hstore, nested_ids_elem. }
  intros Hlive. split.
  - apply map_eq. intros a. rewrite lookup_empty.
    apply eq_None_not_Some. rewrite Hstore, Hlive. by intros ?%elem_of_nil.
  - intros h H Hh.
    destruct (hist_enabled H) eqn:Hen.
    + pose proof (invariant_run _ _ _ (invariant_boot t0 hs c Hidle) Hrun)
        as (_ & _ & Hst).
      destruct (Hst h H Hh Hen) as [-> _]. by rewrite Hlive.
    + destruct (run_frame _ _ _ Hrun) as [_ Hf]. specialize (Hf h).
      cbn [boot world histograms] in Hf. rewrite Hh in Hf.
      destruct (hs !! h) as [H0|] eqn:Hh0; [|done].
      destruct Hf as (_ & E & Hsame).
      rewrite Hsame by congruence. by eapply Hidle.
Qed.

Lemma balanced_run_leaves_nothing_behind_witness :
  ∃ m,
    run Example.m0
        [NewNested (Some Example.H1) kSkip; Elapse 2;
         NewPause (Some Example.H1); NewNested (Some Example.H2) kRecord;
         NewNested (Some Example.H1) kSkip; Elapse 1;
         EndScope; EndScope; EndScope; EndScope]
    = Ok m
    ∧ scopes (world m) = ∅
    ∧ top_of Example.H1 (world m) = None
    ∧ top_of Example.H2 (world m) = None.
Proof.
  set (prog := [NewNested (Some Example.H1) kSkip; Elapse 2;
                NewPause (Some Example.H1); NewNested (Some Example.H2) kRecord;
                NewNested (Some Example.H1) kSkip; Elapse 1;
                EndScope; EndScope; EndScope; EndScope]).
  assert (∃ w, run Example.m0 prog = Ok (mkMachine w [])) as [w Hrun]
    by (eexists; vm_compute; reflexivity).
  destruct (balanced_run_leaves_nothing_behind 0 Example.hs Example.cs prog
              (mkMachine w []) example_histograms_idle Hrun) as (_ & Hdone).
  destruct (Hdone eq_refl) as (Hstore & Htops).
  exists (mkMachine w []). split; [done|]. split; [done|].
  unfold top_of. cbn [world] in *.
  destruct (histograms w !! Example.H1) as [H1|] eqn:E1;
    destruct (histograms w !! Example.H2) as [H2|] eqn:E2; eauto.
Defined.

(** Extra X11.  In every state that a caller reaches from a fresh context,
    the log holds one start event more than end events for every live
    object that logs: every nested scope, every plain scope that was given
    an isolate and every optional scope in mode TAKE_TIME.  When all
    objects have been destroyed the log holds as many end events as start
    events. *)
Theorem log_start_and_end_events_balance (t0 : Z)
    (hs : gmap positive TimedHistogram) (c : Counters)
    (prog : list action) (m : Machine) :
  run (boot t0 hs c) prog = Ok m →
  starts_of (statuses (world m))
  = (ends_of (statuses (world m)) + owed (live m))%nat
  ∧ (live m = [] →
     starts_of (statuses (world m)) = ends_of (statuses (world m))).
Proof.
  intros Hrun.
  destruct (hygiene_run _ _ _ Hrun (hygiene_boot t0 hs c)) as (_ & _ & _ & Hlog).
  split; [done|]. intros Hlive. rewrite Hlog, Hlive. cbn. lia.
Qed.

Lemma log_start_and_end_events_balance_witness :
  ∃ m,
    run Example.m0
        [NewNested (Some Example.H2) kSkip;
         NewTimed (Some Example.H1) (Some Example.iso);
         NewOptional (Some Example.H1) None DONT_TAKE_TIME;
         NewTimed (Some Example.H2) None; EndScope; EndScope]
    = Ok m
    ∧ length (live m) = 2%nat
    ∧ starts_of (statuses (world m)) = 2%nat
    ∧ ends_of (statuses (world m)) = 0%nat
    ∧ owed (live m) = 2%nat.
Proof.
  set (prog := [NewNested (Some Example.H2) kSkip;
                NewTimed (Some Example.H1) (Some Example.iso);
                NewOptional (Some Example.H1) None DONT_TAKE_TIME;
                NewTimed (Some Example.H2) None; EndScope; EndScope]).
  assert (∃ w s, run Example.m0 prog
                 = Ok (mkMachine w [ATimed s; ANested 0%nat])
                 ∧ timed_isolate_ s = Some Example.iso
                 ∧ ends_of (statuses w) = 0%nat) as (w & s & Hrun & Hiso & Hends)
    by (do 2 eexists; vm_compute; split_and!; reflexivity).
  destruct (log_start_and_end_events_balance 0 Example.hs Example.cs prog _ Hrun)
    as [Hlog _].
  exists (mkMachine w [ATimed s; ANested 0%nat]).
  assert (owed [ATimed s; ANested 0%nat] = 2%nat) as Howed.
  { unfold owed. cbn [filter list_filter logs]. rewrite Hiso. reflexivity. }
  cbn [world live] in *. rewrite Howed, Hends in Hlog.
  split_and!; done.
Defined.

(** ** Which calls return *)

Lemma hist_frame_known w w1 k H :
  hist_frame w w1 →
  histograms w !! k = Some H →
  ∃ H1, histograms w1 !! k = Some H1 ∧ hist_enabled H1 = hist_enabled H.
Proof.
  intros Hf Hk. specialize (Hf k). rewrite Hk in Hf.
  destruct (histograms w1 !! k) as [H1|]; [|done].
  exists H1. by destruct Hf as (_ & ? & _).
Qed.














(** The calls return. *)





















(** ** Samples are durations, and stay *)

Lemma grows_refl w : grows w w.
Proof. intros h H Hh. exists H, []. by rewrite app_nil_r. Qed.

Lemma grows_trans w w1 w2 : grows w w1 → grows w1 w2 → grows w w2.
Proof.
  intros G1 G2 h H Hh.
  destruct (G1 h H Hh) as (H1 & n1 & Hh1 & E1 & F1).
  destruct (G2 h H1 Hh1) as (H2 & n2 & Hh2 & E2 & F2).
  exists H2, (n1 ++ n2). split_and!; [done| |by apply Forall_app].
  by rewrite E2, E1, app_assoc.
Qed.

Lemma timer_sane_later now now' t :
  now ≤ now' → timer_sane now t → timer_sane now' t.
Proof.
  intros Hle [Hacc Hrun]. split; [done|].
  intros since Hph. specialize (Hrun _ Hph). lia.
Qed.

Ltac sane_facts :=
  repeat match goal with
         | Hs : store_sane ?w, Hl : scopes ?w !! _ = Some ?sc |- _ =>
             lazymatch goal with
             | _ : timer_sane _ (timer_ (nested_base sc)) |- _ => fail
             | _ => pose proof (Hs _ _ Hl)
             end
         end.

Ltac sane_open :=
  repeat match goal with
         | Hx : timer_sane _ ?t, Hph : phase ?t = Running _ |- _ =>
             let Hy := fresh in destruct Hx as [? Hy]; specialize (Hy _ Hph)
         | Hx : timer_sane _ _ |- _ => destruct Hx as [? _]
         end.

Ltac timer_sane_solve :=
  first [ eassumption
        | sane_open; split; mcbv;
          [lia|intros ? ?; simplify_eq; lia] ].

Ltac store_sane_solve :=
  let a := fresh "a" in
  let sc := fresh "sc" in
  let Ha := fresh "Ha" in
  intros a sc; mcbv; intros Ha;
  repeat match type of Ha with
         | <[?k := _]> _ !! a = _ =>
             destruct (decide (k = a)) as [?|?];
             [subst; rewrite lookup_insert_eq in Ha
             |rewrite lookup_insert_ne in Ha by done]
         | delete ?k _ !! a = _ =>
             apply lookup_delete_Some in Ha as [_ Ha]
         end;
  simplify_eq; sane_facts; timer_sane_solve.

Ltac grows_solve :=
  let h' := fresh "h'" in
  let H' := fresh "H'" in
  let Hh' := fresh "Hh'" in
  intros h' H'; mcbv; intros Hh';
  repeat match goal with
         | |- context [<[?k := _]> _ !! h'] =>
             destruct (decide (k = h')) as [?|?];
             [subst; rewrite lookup_insert_eq
             |rewrite lookup_insert_ne by done]
         end;
  simplify_eq; eexists _, _;
  (split; [reflexivity || eassumption|]);
  mcbv;
  (split; [first [reflexivity|exact (eq_sym (app_nil_r _))]|]);
  sane_facts; sane_open; repeat constructor; lia.

Lemma timed_ctor_sane h iso w s w1 :
  Timed.ctor h iso w = Ok (s, w1) →
  histograms w1 = histograms w ∧ scopes w1 = scopes w
  ∧ timer_sane (clock w) (timer_ (timed_base s)).
Proof.
  mrun. intros Hr.
  mcases; (split_and!; [done|done|by split; mcbv; [lia|intros ? ?; simplify_eq; lia]]).
Qed.

Lemma optional_ctor_sane h iso mode w s w1 :
  Optional.ctor h iso mode w = Ok (s, w1) →
  histograms w1 = histograms w ∧ scopes w1 = scopes w
  ∧ timer_sane (clock w) (timer_ (opt_base s)).
Proof.
  mrun. intros Hr. destruct mode.
  all: mcases; (split_and!; [done|done|by split; mcbv; [lia|intros ? ?; simplify_eq; lia]]).
Qed.

Lemma lazy_ctor_sane w s w1 :
  Lazy.ctor w = Ok (s, w1) → w1 = w ∧ timer_sane (clock w) (timer_ s).
Proof.
  mrun. intros [= <- <-]. split; [done|].
  split; mcbv; [lia|intros ? ?; simplify_eq; lia].
Qed.

Lemma base_stop_sane b w b' w1 :
  timer_sane (clock w) (timer_ b) →
  Base.Stop b w = Ok (b', w1) →
  scopes w1 = scopes w ∧ clock w1 = clock w ∧ grows w w1
  ∧ events w1 = events w ∧ histogram_ b' = histogram_ b.
Proof.
  intros Hsane. mrun. intros Hr.
  mcases; (split_and!; [done|done| |done|done]); try apply grows_refl.
  all: grows_solve.
Qed.

Lemma grows_same w w1 : histograms w1 = histograms w → grows w w1.
Proof. intros E h H Hh. exists H, []. rewrite E, app_nil_r. done. Qed.

Lemma timed_dtor_sane s w w1 :
  timer_sane (clock w) (timer_ (timed_base s)) →
  Timed.dtor s w = Ok (tt, w1) →
  scopes w1 = scopes w ∧ clock w1 = clock w ∧ grows w w1.
Proof.
  intros Hsane. mrun. intros Hr. destruct s as [b [i|]].
  all: mcases; (split_and!; [done|done|]); try apply grows_refl.
  all: grows_solve.
Qed.

Lemma optional_dtor_sane s w w1 :
  timer_sane (clock w) (timer_ (opt_base s)) →
  Optional.dtor s w = Ok (tt, w1) →
  scopes w1 = scopes w ∧ clock w1 = clock w ∧ grows w w1.
Proof.
  intros Hsane. mrun. intros Hr. destruct s as [b i []].
  all: mcases; (split_and!; [done|done|]); try apply grows_refl.
  all: grows_solve.
Qed.

Lemma lazy_dtor_sane s w w1 :
  timer_sane (clock w) (timer_ s) →
  Lazy.dtor s w = Ok (tt, w1) →
  scopes w1 = scopes w ∧ clock w1 = clock w ∧ grows w w1.
Proof.
  intros Hsane. mrun. intros Hr.
  mcases; (split_and!; [done|done|]); try apply grows_refl.
  all: grows_solve.
Qed.

Lemma pause_ctor_sane h w s w1 :
  store_sane w →
  PauseNested.ctor h w = Ok (s, w1) →
  store_sane w1 ∧ clock w1 = clock w ∧ grows w w1.
Proof.
  intros Hsane. mrun. intros Hr.
  mcases; (split_and!; [|done|]); try done; try apply grows_refl.
  all: first [store_sane_solve|grows_solve].
Qed.

Lemma pause_dtor_sane s w w1 :
  store_sane w →
  PauseNested.dtor s w = Ok (tt, w1) →
  store_sane w1 ∧ clock w1 = clock w ∧ grows w w1.
Proof.
  intros Hsane. mrun. intros Hr.
  mcases; (split_and!; [|done|]); try done; try apply grows_refl.
  all: first [store_sane_solve|grows_solve].
Qed.

Lemma nested_ctor_sane h mode w this w1 :
  store_sane w →
  Nested.ctor h mode w = Ok (this, w1) →
  store_sane w1 ∧ clock w1 = clock w ∧ grows w w1.
Proof.
  intros Hsane. mrun. intros Hr.
  mcases; lookup_norm; (split_and!; [|done|]).
  all: first [store_sane_solve|grows_solve].
Qed.

Lemma nested_dtor_sane this w w1 :
  store_sane w →
  Nested.dtor this w = Ok (tt, w1) →
  store_sane w1 ∧ clock w1 = clock w ∧ grows w w1.
Proof.
  intros Hsane Hr.
  destruct (scopes w !! this) as [self|] eqn:Hs; [|revert Hr; by mrun].
  destruct (histogram_ (nested_base self)) as [h|] eqn:Hsh; [|revert Hr; by mrun].
  destruct (histograms w !! h) as [H|] eqn:Hh; [|revert Hr; by mrun].
  destruct (hist_enabled H) eqn:Hen.
  2:{ rewrite (nested_dtor_disabled _ _ _ _ _ Hs Hsh Hh Hen) in Hr.
      injection Hr as <-. split_and!; [store_sane_solve|done|grows_solve]. }
  destruct (long_task_record_mode_ self) eqn:Hmode;
    [|destruct (decide (h = execute (counters w))) as [Hex|Hex]; [subst h|]].
  all: destruct (phase (timer_ (nested_base self))) eqn:Hph;
    [revert Hr; by mrun| |].
  all: destruct (previous_scope_ self) as [p|] eqn:Hprev.
  all: try (destruct (decide (p = this)) as [->|Hne];
            [|destruct (scopes w !! p) as [sp|] eqn:Hp;
              [destruct (phase (timer_ (nested_base sp))) eqn:Hpp|]]).
  all: revert Hr; mrun; try done; intros [= <-].
  all: split_and!; [store_sane_solve|done|grows_solve].
Qed.

Lemma sane_step m a m' :
  timers_sane m → step m a = Ok m' →
  timers_sane m' ∧ grows (world m) (world m').
Proof.
  destruct m as [w fs]. intros [Hst Hobj] Hstep. unfold timers_sane.
  cbn [world live] in *.
  destruct a; cbn [step] in Hstep;
    try (apply construct_ret_inv in Hstep as (s & w1 & E & ->);
         cbn [world live] in * ).
  - injection Hstep as <-. cbn [world live]. split; [|by apply grows_same].
    split.
    + intros a sc Ha. eapply timer_sane_later; [|by apply (Hst a sc)].
      cbn. lia.
    + eapply Forall_impl; [exact Hobj|]. intros o Ho t Ht.
      eapply timer_sane_later; [|by apply Ho]. cbn. lia.
  - pose proof (timed_ctor_frame _ _ _ _ _ E) as ((Hc & _) & _).
    apply timed_ctor_sane in E as (Eh & Es & Hs).
    split; [|by apply grows_same]. unfold store_sane. rewrite Es, Hc.
    split; [done|]. constructor; [|done]. by intros t [= <-].
  - pose proof (optional_ctor_frame _ _ _ _ _ _ E) as ((Hc & _) & _).
    apply optional_ctor_sane in E as (Eh & Es & Hs).
    split; [|by apply grows_same]. unfold store_sane. rewrite Es, Hc.
    split; [done|]. constructor; [|done]. by intros t [= <-].
  - apply lazy_ctor_sane in E as [-> Hs]. split; [|apply grows_refl].
    split; [done|]. constructor; [|done]. by intros t [= <-].
  - apply step_set_histogram_inv in Hstep as (s & Hi & ->).
    cbn [world live]. split; [|apply grows_refl]. split; [done|].
    apply Forall_insert; [done|].
    exact (Forall_lookup_1 _ _ _ _ Hobj Hi).
  - apply nested_ctor_sane in E as (Hs & Hc & Hg); [|done].
    split; [|done]. rewrite Hc. split; [done|]. by constructor.
  - apply nested_ctor_sane in E as (Hs & Hc & Hg); [|done].
    split; [|done]. rewrite Hc. split; [done|]. by constructor.
  - apply pause_ctor_sane in E as (Hs & Hc & Hg); [|done].
    split; [|done]. rewrite Hc. split; [done|]. by constructor.
  - cbn [world live] in Hstep. destruct fs as [|o rest]; [done|].
    destruct (destroy o w) as [[[] w1]|] eqn:E; [|done]. injection Hstep as <-.
    cbn [world live]. apply Forall_cons in Hobj as [Ho Hobj].
    destruct o as [s|s|s|this|s]; cbn [destroy] in E.
    + apply timed_dtor_sane in E as (Es & Hc & Hg); [|by apply Ho].
      split; [|done]. unfold store_sane. by rewrite Es, Hc.
    + apply optional_dtor_sane in E as (Es & Hc & Hg); [|by apply Ho].
      split; [|done]. unfold store_sane. by rewrite Es, Hc.
    + apply lazy_dtor_sane in E as (Es & Hc & Hg); [|by apply Ho].
      split; [|done]. unfold store_sane. by rewrite Es, Hc.
    + apply nested_dtor_sane in E as (Hs & Hc & Hg); [|done].
      split; [|done]. by rewrite Hc.
    + apply pause_dtor_sane in E as (Hs & Hc & Hg); [|done].
      split; [|done]. by rewrite Hc.
Qed.

Lemma sane_run prog : ∀ m m',
  timers_sane m → run m prog = Ok m' →
  timers_sane m' ∧ grows (world m) (world m').
Proof.
  induction prog as [|a prog IH]; intros m m' Hs Hrun; cbn [run] in Hrun.
  - injection Hrun as <-. split; [done|apply grows_refl].
  - destruct (step m a) as [m1|] eqn:Hstep; [|done].
    destruct (sane_step _ _ _ Hs Hstep) as [Hs1 G1].
    destruct (IH _ _ Hs1 Hrun) as [Hs2 G2].
    split; [done|by eapply grows_trans].
Qed.

Lemma sane_boot t0 hs c : timers_sane (boot t0 hs c).
Proof. split; [|constructor]. intros a sc Ha. by cbn in Ha. Qed.

(** Extra X13.  Between any two states of a caller that started from a
    fresh context, every histogram keeps the samples it had, in their
    order, and the samples added are not negative. *)
Theorem samples_are_durations_and_stay (t0 : Z)
    (hs : gmap positive TimedHistogram) (c : Counters)
    (before after : list action) (m1 m2 : Machine) :
  run (boot t0 hs c) before = Ok m1 →
  run m1 after = Ok m2 →
  ∀ h H1,
    histograms (world m1) !! h = Some H1 →
    ∃ new,
      samples_of h (world m2) = hist_samples H1 ++ new
      ∧ Forall (λ x, 0 ≤ x) new.
Proof.
  intros Hrun1 Hrun2 h H1 Hh.
  destruct (sane_run _ _ _ (sane_boot t0 hs c) Hrun1) as [Hs1 _].
  destruct (sane_run _ _ _ Hs1 Hrun2) as [_ Hg].
  destruct (Hg h H1 Hh) as (H2 & new & Hh2 & E & Hpos).
  exists new. unfold samples_of. by rewrite Hh2.
Qed.

Lemma samples_are_durations_and_stay_witness :
  ∃ m1 m2 new,
    run Example.m0 [NewNested (Some Example.H1) kSkip; Elapse 3; EndScope]
    = Ok m1
    ∧ run m1 [NewLazy; Elapse 4; NewTimed (Some Example.H1) None;
              SetHistogram 1 (Some Example.H1); Elapse 2; EndScope; EndScope]
      = Ok m2
    ∧ samples_of Example.H1 (world m1) = [3]
    ∧ samples_of Example.H1 (world m2) = [3] ++ new
    ∧ Forall (λ x, 0 ≤ x) new.
Proof.
  set (before := [NewNested (Some Example.H1) kSkip; Elapse 3; EndScope]).
  set (after := [NewLazy; Elapse 4; NewTimed (Some Example.H1) None;
                 SetHistogram 1 (Some Example.H1); Elapse 2; EndScope;
                 EndScope]).
  assert (∃ w1 H1 w2,
            run Example.m0 before = Ok (mkMachine w1 [])
            ∧ histograms w1 !! Example.H1 = Some H1
            ∧ hist_samples H1 = [3]
            ∧ run (mkMachine w1 []) after = Ok (mkMachine w2 []))
    as (w1 & H1 & w2 & Hrun1 & Hh1 & Hs1 & Hrun2)
    by (do 3 eexists; split_and!; vm_compute; reflexivity).
  destruct (samples_are_durations_and_stay 0 Example.hs Example.cs before after
              _ _ Hrun1 Hrun2 Example.H1 H1 Hh1) as (new & Hnew & Hpos).
  exists (mkMachine w1 []), (mkMachine w2 []), new.
  rewrite Hs1 in Hnew. split_and!; try done.
  unfold samples_of. cbn [world]. by rewrite Hh1.
Defined.

(** ** What a nested scope or a pause scope touches *)

Ltac touch_hist :=
  let k := fresh "k" in
  intros k ?; mcbv; rewrite ?lookup_insert_ne by congruence; done.

Ltac touch_scopes :=
  mcbv;
  repeat first [ rewrite lookup_insert_ne by congruence
               | rewrite lookup_delete_ne by congruence ];
  done.

Lemma nested_ctor_touches h mode w this w1 :
  Nested.ctor h mode w = Ok (this, w1) →
  (∀ k, Some k ≠ h → histograms w1 !! k = histograms w !! k)
  ∧ ∀ a,
      a ≠ this →
      (∀ k K sc, h = Some k → histograms w !! k = Some K →
                 hist_enabled K = true → scopes w1 !! this = Some sc →
                 Some a ≠ previous_scope_ sc) →
      scopes w1 !! a = scopes w !! a.
Proof.
  mrun. intros Hr.
  mcases; lookup_norm; (split; [touch_hist|]).
  all: intros a Hne Hprev; revert Hprev; mcbv; rewrite ?lookup_insert_eq;
    intros Hprev;
    try specialize (Hprev _ _ _ eq_refl ltac:(eassumption) ltac:(eassumption)
                          eq_refl);
    mhyps; touch_scopes.
Qed.

Lemma pause_ctor_touches h w s w1 :
  PauseNested.ctor h w = Ok (s, w1) →
  pause_histogram_ s = h
  ∧ (∀ k, Some k ≠ h → histograms w1 !! k = histograms w !! k)
  ∧ ∀ a,
      (∀ k K, h = Some k → histograms w !! k = Some K →
              hist_enabled K = true → Some a ≠ pause_previous_scope_ s) →
      scopes w1 !! a = scopes w !! a.
Proof.
  mrun. intros Hr.
  mcases; (split; [done|]); (split; [touch_hist|]).
  all: intros a Hprev;
    try specialize (Hprev _ _ eq_refl ltac:(eassumption) ltac:(eassumption));
    mhyps; touch_scopes.
Qed.

Lemma pause_dtor_touches s w w1 :
  PauseNested.dtor s w = Ok (tt, w1) →
  (∀ k, Some k ≠ pause_histogram_ s → histograms w1 !! k = histograms w !! k)
  ∧ ∀ a,
      (∀ k K, pause_histogram_ s = Some k → histograms w !! k = Some K →
              hist_enabled K = true → Some a ≠ pause_previous_scope_ s) →
      scopes w1 !! a = scopes w !! a.
Proof.
  mrun. intros Hr.
  mcases; (split; [touch_hist|]).
  all: intros a Hprev; try done.
  all: specialize (Hprev _ _ eq_refl ltac:(eassumption) ltac:(eassumption));
    mhyps; touch_scopes.
Qed.

Lemma nested_dtor_touches this self w w1 :
  scopes w !! this = Some self →
  Nested.dtor this w = Ok (tt, w1) →
  (∀ k, Some k ≠ histogram_ (nested_base self) →
        histograms w1 !! k = histograms w !! k)
  ∧ ∀ a,
      a ≠ this →
      (∀ k K, histogram_ (nested_base self) = Some k →
              histograms w !! k = Some K → hist_enabled K = true →
              Some a ≠ previous_scope_ self) →
      scopes w1 !! a = scopes w !! a.
Proof.
  intros Hs Hr.
  destruct (histogram_ (nested_base self)) as [h|] eqn:Hsh; [|revert Hr; by mrun].
  destruct (histograms w !! h) as [H|] eqn:Hh; [|revert Hr; by mrun].
  destruct (hist_enabled H) eqn:Hen.
  2:{ rewrite (nested_dtor_disabled _ _ _ _ _ Hs Hsh Hh Hen) in Hr.
      injection Hr as <-. split; [touch_hist|]. intros a Hne _. touch_scopes. }
  destruct (long_task_record_mode_ self) eqn:Hmode;
    [|destruct (decide (h = execute (counters w))) as [Hex|Hex]; [subst h|]].
  all: destruct (phase (timer_ (nested_base self))) eqn:Hph;
    [revert Hr; by mrun| |].
  all: destruct (previous_scope_ self) as [p|] eqn:Hprev.
  all: try (destruct (decide (p = this)) as [->|Hne];
            [|destruct (scopes w !! p) as [sp|] eqn:Hp;
              [destruct (phase (timer_ (nested_base sp))) eqn:Hpp|]]).
  all: revert Hr; mrun; try done; intros [= <-].
  all: split; [touch_hist|].
  all: intros a Hne' Hpr; specialize (Hpr _ _ eq_refl Hh Hen); touch_scopes.
Qed.

(** ** Scopes of other histograms *)

Lemma select_ids bs fs a :
  a ∈ nested_ids (select bs fs) → a ∈ nested_ids fs.
Proof.
  revert bs. induction fs as [|o fs IH]; intros [|[] bs]; cbn [select];
    try by intros ?%elem_of_nil.
  - destruct o; cbn [nested_ids]; try apply IH.
    intros [->|Ha]%elem_of_cons; [by left|]. right. by eapply IH.
  - intros Ha%IH. destruct o; cbn [nested_ids]; try done. by right.
Qed.

Lemma pmatch_own ss h fs : ∀ ce os a,
  pmatch ss h ce fs os → a ∈ nested_ids fs → scope_histogram ss a = Some h.
Proof.
  induction fs as [|[s|s|s|x|s] fs IH]; intros ce [|[e c mode|st] os] a;
    cbn [pmatch nested_ids]; try done.
  - by intros _ ?%elem_of_nil.
  - intros [(sc & Hsc & Hh & _) Htail] [->|Ha]%elem_of_cons.
    + unfold scope_histogram. by rewrite Hsc.
    + by eapply IH.
  - intros [_ Htail] Ha. by eapply IH.
Qed.

Lemma psim_foreign h base v0 c w w1 fs s :
  psimulates h base v0 c (mkMachine w fs) s →
  clock w1 = clock w →
  counters w1 = counters w →
  histograms w1 !! h = histograms w !! h →
  (next_scope w ≤ next_scope w1)%nat →
  (∀ a, a ∈ nested_ids fs → scopes w1 !! a = scopes w !! a) →
  psimulates h base (v0 + (v8_execute_us w1 - v8_execute_us w)) c
    (mkMachine w1 fs) s.
Proof.
  intros (Hclock & Hcnt & HH & Hv & Hfresh & Hnd & Hpm) Ec Ek Eh En Es.
  unfold psimulates. cbn [world live] in *.
  rewrite Ec, Ek, Eh. split_and!; try done.
  - lia.
  - intros a Ha. specialize (Hfresh a Ha). lia.
  - by eapply pmatch_ext.
Qed.

Lemma tags_frame h born gone w w1 bs fs :
  call_frame born gone w w1 →
  (∀ a, a ∈ nested_ids fs →
        is_Some (scopes w !! a) ∧ Some a ≠ gone ∧ Some a ≠ born) →
  Forall2 (tag_ok (scopes w) h) bs fs →
  Forall2 (tag_ok (scopes w1) h) bs fs.
Proof.
  intros (_ & _ & _ & _ & _ & Hkept) Hin Htags.
  induction Htags as [|b o bs fs Hb Htags IH]; constructor.
  - destruct o as [s|s|s|a|s]; cbn [tag_ok] in *; try done.
    destruct (Hin a) as ([sc Hsc] & Hg & Hb'); [by left|].
    destruct (Hkept a sc Hsc Hg Hb') as (sc' & Hsc' & Hsame).
    unfold scope_histogram in *. rewrite Hsc in Hb. by rewrite Hsc', Hsame.
  - apply IH. intros a Ha. apply Hin.
    destruct o; cbn [nested_ids]; try done. by right.
Qed.

Lemma tags_length ss h bs fs :
  Forall2 (tag_ok ss h) bs fs → length bs = length fs.
Proof. apply Forall2_length. Qed.

Section among.
Context (h : hist_id) (base : list TimeDelta) (c : Counters).

Let primary := bool_decide (h = execute c).

Lemma among_ids bs w fs s a :
  among h base c bs (mkMachine w fs) s →
  a ∈ nested_ids fs →
  is_Some (scopes w !! a) ∧ (a < next_scope w)%nat.
Proof.
  intros ((Hfresh & _) & (Hstore & _) & _) Ha. cbn [world live] in *.
  split; [by apply Hstore|by apply Hfresh].
Qed.

Lemma among_wait bs m s d m' :
  among h base c bs m s →
  step m (Elapse d) = Ok m' →
  ∃ s', PSpec.step primary s (PWait d) = Some s' ∧ among h base c bs m' s'.
Proof.
  intros (Hinv & Hy & Htags & v0 & Hsim & Hv0) Hstep.
  pose proof (invariant_step _ _ _ Hinv Hstep) as Hinv'.
  pose proof (hygiene_step _ _ _ Hstep Hy) as Hy'.
  destruct m as [w fs], s as [t os rec lt].
  cbn [step] in Hstep. injection Hstep as <-.
  eexists. split; [reflexivity|].
  split_and!; try done. exists v0. split; [|done].
  cbn [world live]. by apply psim_wait.
Qed.

Lemma among_enter_own bs m s mode m' :
  among h base c bs m s →
  step m (NewNested (Some h) mode) = Ok m' →
  ∃ s', PSpec.step primary s (PEnter mode) = Some s'
        ∧ among h base c (true :: bs) m' s'.
Proof.
  intros Ham Hstep. pose proof Ham as (Hinv & Hy & Htags & v0 & Hsim & Hv0).
  pose proof (invariant_step _ _ _ Hinv Hstep) as Hinv'.
  pose proof (hygiene_step _ _ _ Hstep Hy) as Hy'.
  destruct m as [w fs], s as [t os rec lt].
  cbn [step] in Hstep.
  apply construct_ret_inv in Hstep as (this & w1 & E & ->).
  cbn [world live] in *.
  destruct (psim_enter _ _ _ _ _ _ _ _ _ _ mode Hsim) as (mr & Hr & Hsim').
  cbn [step] in Hr. apply construct_ret_inv in Hr as (this' & w1' & E' & ->).
  cbn [world live] in *. rewrite E in E'. injection E' as <- <-.
  eexists. split; [reflexivity|].
  pose proof (nested_ctor_frame _ _ _ _ _ E) as (-> & F & _ & Hsh).
  split_and!; try done.
  - constructor.
    + cbn [tag_ok]. by rewrite bool_decide_eq_true_2.
    + eapply tags_frame; [exact F| |done].
      intros a Ha. destruct (among_ids _ _ _ _ _ Ham Ha) as [? ?].
      split_and!; [done|done|]. intros [= ->]. lia.
  - exists v0. done.
Qed.

Lemma among_pause_own bs m s m' :
  among h base c bs m s →
  step m (NewPause (Some h)) = Ok m' →
  ∃ s', PSpec.step primary s PPause = Some s'
        ∧ among h base c (true :: bs) m' s'.
Proof.
  intros Ham Hstep. pose proof Ham as (Hinv & Hy & Htags & v0 & Hsim & Hv0).
  pose proof (invariant_step _ _ _ Hinv Hstep) as Hinv'.
  pose proof (hygiene_step _ _ _ Hstep Hy) as Hy'.
  destruct m as [w fs], s as [t os rec lt].
  cbn [step] in Hstep.
  apply construct_ret_inv in Hstep as (ps & w1 & E & ->).
  cbn [world live] in *.
  destruct (psim_pause _ _ _ _ _ _ _ _ _ _ Hsim) as (mr & Hr & Hsim').
  cbn [step] in Hr. apply construct_ret_inv in Hr as (ps' & w1' & E' & ->).
  cbn [world live] in *. rewrite E in E'. injection E' as <- <-.
  eexists. split; [reflexivity|].
  pose proof (pause_ctor_frame _ _ _ _ E) as (F & _).
  pose proof (pause_ctor_touches _ _ _ _ E) as (Hph & _).
  split_and!; try done.
  - constructor.
    + cbn [tag_ok]. by rewrite bool_decide_eq_true_2.
    + eapply tags_frame; [exact F| |done].
      intros a Ha. destruct (among_ids _ _ _ _ _ Ham Ha) as [? ?]. done.
  - exists v0. done.
Qed.

Lemma step_end_inv w o rest m' :
  step (mkMachine w (o :: rest)) EndScope = Ok m' →
  ∃ w1, destroy o w = Ok (tt, w1) ∧ m' = mkMachine w1 rest.
Proof.
  cbn [step world live]. destruct (destroy o w) as [[[] w1]|]; [|done].
  intros [= <-]. eauto.
Qed.

Lemma among_rest_ids bs w o rest s a :
  among h base c bs (mkMachine w (o :: rest)) s →
  a ∈ nested_ids rest →
  is_Some (scopes w !! a) ∧ o ≠ ANested a.
Proof.
  intros Ham Ha.
  destruct (among_ids _ _ (o :: rest) _ a Ham) as [? _].
  { destruct o; cbn [nested_ids]; try done. by right. }
  split; [done|]. intros ->.
  destruct Ham as ((_ & Hnd & _) & _). cbn [live nested_ids] in Hnd.
  by apply NoDup_cons in Hnd as [? _].
Qed.

Lemma among_leave_own bs w o rest s m' :
  among h base c (true :: bs) (mkMachine w (o :: rest)) s →
  step (mkMachine w (o :: rest)) EndScope = Ok m' →
  ∃ s', PSpec.step primary s PLeave = Some s' ∧ among h base c bs m' s'.
Proof.
  intros Ham Hstep. pose proof Ham as (Hinv & Hy & Htags & v0 & Hsim & Hv0).
  pose proof (invariant_step _ _ _ Hinv Hstep) as Hinv'.
  pose proof (hygiene_step _ _ _ Hstep Hy) as Hy'.
  apply step_end_inv in Hstep as (w1 & E & ->).
  cbn [world live select] in *. destruct s as [t os rec lt].
  assert (∃ s', PSpec.step primary (PSpec.mkState t os rec lt) PLeave = Some s')
    as [s' Hs'].
  { destruct Hsim as (_ & _ & _ & _ & _ & _ & Hpm). cbn [world live PSpec.open] in Hpm.
    destruct os as [|[] os]; [by destruct o|by eexists..]. }
  destruct (psim_leave _ _ _ _ _ _ _ _ _ _ _ Hsim Hs') as (mr & Hr & Hsim').
  apply step_end_inv in Hr as (w1' & E' & ->).
  rewrite E in E'. injection E' as <-.
  exists s'. split; [done|]. split_and!; try done; [|by exists v0].
  apply Forall2_cons in Htags as [Ho Htags].
  destruct o as [?|?|?|a|ps]; cbn [tag_ok destroy] in *; try done.
  - apply nested_dtor_frame in E as (F & _).
    eapply tags_frame; [exact F| |done].
    intros x Hx. destruct (among_rest_ids _ _ _ _ _ x Ham Hx) as [? Hne].
    split_and!; [done| |done]. intros [= ->]. done.
  - apply pause_dtor_frame in E as (F & _).
    eapply tags_frame; [exact F| |done].
    intros x Hx. by destruct (among_rest_ids _ _ _ _ _ x Ham Hx) as [? _].
Qed.

Lemma own_not_on_stack ss k fs x :
  k ≠ h →
  scope_histogram ss x = Some h →
  expected_top ss k fs ≠ Some x.
Proof.
  intros Hne Hx Htop. apply expected_top_in in Htop as [_ Hk]. congruence.
Qed.

Lemma among_foreign bs bs' w fs fs' s w1 born gone :
  among h base c bs (mkMachine w fs) s →
  stack_invariant (mkMachine w1 fs') →
  hygiene (mkMachine w1 fs') →
  select bs' fs' = select bs fs →
  Forall2 (tag_ok (scopes w1) h) bs' fs' →
  call_frame born gone w w1 →
  histograms w1 !! h = histograms w !! h →
  (∀ a, a ∈ nested_ids (select bs fs) → scopes w1 !! a = scopes w !! a) →
  (h = execute c → v8_execute_us w1 = v8_execute_us w) →
  among h base c bs' (mkMachine w1 fs') s.
Proof.
  intros (_ & _ & _ & v0 & Hsim & Hv0) Hinv Hy Hsel Htags F Eh Es Ev.
  split_and!; try done. cbn [world live]. rewrite Hsel.
  exists (v0 + (v8_execute_us w1 - v8_execute_us w)). split.
  - destruct F as (Hc & Hk & _ & Hn & _).
    apply psim_foreign; try done. destruct born; lia.
  - intros Hp. rewrite (Hv0 Hp), (Ev Hp). lia.
Qed.

Lemma among_own_kept bs w fs s born gone w1 a :
  among h base c bs (mkMachine w fs) s →
  call_frame born gone w w1 →
  a ∈ nested_ids (select bs fs) →
  Some a ≠ gone → Some a ≠ born →
  scope_histogram (scopes w1) a = Some h.
Proof.
  intros Ham F Ha Hg Hb.
  destruct (among_ids _ _ _ _ a Ham) as [[sc Hsc] _]; [by eapply select_ids|].
  destruct Ham as (_ & _ & _ & v0 & Hsim & _).
  destruct Hsim as (_ & _ & _ & _ & _ & _ & Hpm). cbn [world live] in Hpm.
  pose proof (pmatch_own _ _ _ _ _ _ Hpm Ha) as Hown.
  destruct F as (_ & _ & _ & _ & _ & Hkept).
  destruct (Hkept a sc Hsc Hg Hb) as (sc' & Hsc' & Hsame).
  unfold scope_histogram in *. rewrite Hsc in Hown. by rewrite Hsc', Hsame.
Qed.

Lemma among_enter_foreign bs m s k mode m' :
  k ≠ h →
  among h base c bs m s →
  step m (NewNested (Some k) mode) = Ok m' →
  among h base c (false :: bs) m' s.
Proof.
  intros Hkh Ham Hstep. pose proof Ham as (Hinv & Hy & Htags & _).
  pose proof (invariant_step _ _ _ Hinv Hstep) as Hinv'.
  pose proof (hygiene_step _ _ _ Hstep Hy) as Hy'.
  destruct m as [w fs]. cbn [step] in Hstep.
  apply construct_ret_inv in Hstep as (this & w1 & E & ->).
  cbn [world live] in *.
  pose proof (nested_ctor_frame _ _ _ _ _ E) as (-> & F & _ & Hsh).
  pose proof (nested_ctor_touches _ _ _ _ _ E) as (T1 & T2).
  assert (∀ a, a ∈ nested_ids fs → a ≠ next_scope w) as Hfresh.
  { intros a Ha ->. destruct (among_ids _ _ _ _ _ Ham Ha) as [_ ?]. lia. }
  eapply (among_foreign bs (false :: bs) w fs); try done.
  - constructor.
    + cbn [tag_ok]. rewrite Hsh. by rewrite bool_decide_eq_false_2 by congruence.
    + eapply tags_frame; [exact F| |done].
      intros a Ha. destruct (among_ids _ _ _ _ _ Ham Ha) as [? ?].
      split_and!; [done|done|]. intros [= ->]. lia.
  - apply T1. congruence.
  - intros a Ha. pose proof (select_ids _ _ _ Ha) as Ha'.
    apply T2; [by apply Hfresh|].
    intros k' K sc [= <-] Hk Hen Hsc Hprev.
    pose proof F as (_ & _ & Hf & _).
    destruct (hist_frame_known _ _ _ _ Hf Hk) as (K1 & Hk1 & Hen1).
    destruct Hinv' as (_ & _ & Hst'). cbn [world live] in Hst'.
    destruct (Hst' k K1 Hk1 ltac:(congruence)) as [_ Hok].
    cbn [frames_ok] in Hok. rewrite decide_True in Hok by done.
    destruct Hok as [(sc' & Hsc' & Hp & _) _].
    rewrite Hsc in Hsc'. injection Hsc' as <-.
    eapply (own_not_on_stack (scopes w1) k fs a); [done| |congruence].
    eapply (among_own_kept bs w fs s _ _ w1 a Ham F Ha); [done|].
    intros [= ->]. by apply (Hfresh (next_scope w)).
  - intros _. by eapply nested_ctor_long_task.
Qed.

Lemma among_pause_foreign bs m s k m' :
  k ≠ h →
  among h base c bs m s →
  step m (NewPause (Some k)) = Ok m' →
  among h base c (false :: bs) m' s.
Proof.
  intros Hkh Ham Hstep. pose proof Ham as (Hinv & Hy & Htags & _).
  pose proof (invariant_step _ _ _ Hinv Hstep) as Hinv'.
  pose proof (hygiene_step _ _ _ Hstep Hy) as Hy'.
  destruct m as [w fs]. cbn [step] in Hstep.
  apply construct_ret_inv in Hstep as (ps & w1 & E & ->).
  cbn [world live] in *.
  pose proof (pause_ctor_frame _ _ _ _ E) as (F & _).
  pose proof (pause_ctor_touches _ _ _ _ E) as (Hph & T1 & T2).
  eapply (among_foreign bs (false :: bs) w fs); try done.
  - constructor.
    + cbn [tag_ok]. rewrite Hph. by rewrite bool_decide_eq_false_2 by congruence.
    + eapply tags_frame; [exact F| |done].
      intros a Ha. by destruct (among_ids _ _ _ _ _ Ham Ha) as [? ?].
  - apply T1. congruence.
  - intros a Ha. apply T2.
    intros k' K [= <-] Hk Hen Hprev.
    pose proof F as (_ & _ & Hf & _).
    destruct (hist_frame_known _ _ _ _ Hf Hk) as (K1 & Hk1 & Hen1).
    destruct Hinv' as (_ & _ & Hst'). cbn [world live] in Hst'.
    destruct (Hst' k K1 Hk1 ltac:(congruence)) as [_ Hok].
    cbn [frames_ok] in Hok. rewrite decide_True in Hok by done.
    destruct Hok as [Hp _].
    eapply (own_not_on_stack (scopes w1) k fs a); [done| |congruence].
    by eapply (among_own_kept bs w fs s _ _ w1 a Ham F Ha).
  - intros _. by eapply pause_ctor_long_task.
Qed.

Lemma among_leave_foreign bs w o rest s m' :
  among h base c (false :: bs) (mkMachine w (o :: rest)) s →
  step (mkMachine w (o :: rest)) EndScope = Ok m' →
  among h base c bs m' s.
Proof.
  intros Ham Hstep. pose proof Ham as (Hinv & Hy & Htags & v0 & Hsim & _).
  pose proof (invariant_step _ _ _ Hinv Hstep) as Hinv'.
  pose proof (hygiene_step _ _ _ Hstep Hy) as Hy'.
  apply step_end_inv in Hstep as (w1 & E & ->).
  cbn [world live select] in *.
  apply Forall2_cons in Htags as [Ho Htags].
  assert (∀ x, x ∈ nested_ids (select bs rest) →
               scope_histogram (scopes w) x = Some h) as Hown.
  { intros x Hx. destruct Hsim as (_ & _ & _ & _ & _ & _ & Hpm).
    by eapply pmatch_own. }
  destruct Hinv as (_ & _ & Hst). cbn [world live] in Hst.
  destruct o as [?|?|?|a|ps]; cbn [tag_ok destroy] in *; try done.
  - symmetry in Ho. apply bool_decide_eq_false_1 in Ho.
    destruct Hy as (Hstore & _). cbn [world live nested_ids] in Hstore.
    destruct (Hstore a) as [_ [self Hself]]; [by left|].
    assert (scope_histogram (scopes w) a = histogram_ (nested_base self)) as Hsa.
    { unfold scope_histogram. by rewrite Hself. }
    pose proof (nested_dtor_frame _ _ _ E) as (F & _).
    pose proof (nested_dtor_touches _ _ _ _ Hself E) as (T1 & T2).
    eapply (among_foreign (false :: bs) bs w (ANested a :: rest)); try done.
    + eapply tags_frame; [exact F| |done].
      intros x Hx. destruct (among_rest_ids _ _ _ _ _ x Ham Hx) as [? Hne].
      split_and!; [done| |done]. intros [= ->]. done.
    + apply T1. congruence.
    + cbn [select]. intros x Hx. pose proof (select_ids _ _ _ Hx) as Hx'.
      destruct (among_rest_ids _ _ _ _ _ x Ham Hx') as [_ Hne].
      apply T2; [by intros ->|].
      intros k K Hk HK Hen Hprev.
      destruct (Hst k K HK Hen) as [_ Hok].
      cbn [frames_ok] in Hok. rewrite decide_True in Hok by congruence.
      destruct Hok as [(sc' & Hsc' & Hp & _) _].
      rewrite Hself in Hsc'. injection Hsc' as <-.
      eapply (own_not_on_stack (scopes w) k rest x); [congruence|by apply Hown|].
      congruence.
    + intros Hp. destruct (decide (v8_execute_us w1 = v8_execute_us w)) as [|Hv];
        [done|].
      destruct (nested_dtor_long_task _ _ _ E Hv) as (self' & _ & Hs' & _ & Hx & _).
      destruct Hsim as (_ & Hcnt & _). cbn [world] in Hcnt.
      rewrite Hself in Hs'. injection Hs' as <-. congruence.
  - symmetry in Ho. apply bool_decide_eq_false_1 in Ho.
    pose proof (pause_dtor_frame _ _ _ E) as (F & _).
    pose proof (pause_dtor_touches _ _ _ E) as (T1 & T2).
    eapply (among_foreign (false :: bs) bs w (APause ps :: rest)); try done.
    + eapply tags_frame; [exact F| |done].
      intros x Hx. by destruct (among_rest_ids _ _ _ _ _ x Ham Hx) as [? _].
    + apply T1. congruence.
    + cbn [select]. intros x Hx. apply T2.
      intros k K Hk HK Hen Hprev.
      destruct (Hst k K HK Hen) as [_ Hok].
      cbn [frames_ok] in Hok. rewrite decide_True in Hok by congruence.
      destruct Hok as [Hp _].
      eapply (own_not_on_stack (scopes w) k rest x); [congruence|by apply Hown|].
      congruence.
    + intros _. by eapply pause_dtor_long_task.
Qed.

Lemma among_run es : ∀ bs m s m',
  among h base c bs m s →
  run m (to_maction <$> es) = Ok m' →
  ∃ bs' s',
    PSpec.run primary s (own_events h bs es) = Some s'
    ∧ among h base c bs' m' s'.
Proof.
  induction es as [|e es IH]; intros bs m s m' Ham Hrun;
    cbn [fmap list_fmap run] in Hrun.
  - injection Hrun as <-. by exists bs, s.
  - destruct (step m (to_maction e)) as [m1|] eqn:Hstep; [|done].
    change (list_fmap _ _ to_maction es) with (to_maction <$> es) in Hrun.
    destruct e as [k mode|k| |d]; cbn [to_maction own_events] in *.
    + destruct (decide (k = h)) as [->|Hkh].
      * destruct (among_enter_own _ _ _ _ _ Ham Hstep) as (s1 & Hs1 & Ham1).
        destruct (IH _ _ _ _ Ham1 Hrun) as (bs' & s' & Hs' & Ham').
        exists bs', s'. split; [|done]. cbn [PSpec.run].
        fold primary. by rewrite Hs1.
      * apply (IH _ m1); [|done]. by eapply among_enter_foreign.
    + destruct (decide (k = h)) as [->|Hkh].
      * destruct (among_pause_own _ _ _ _ Ham Hstep) as (s1 & Hs1 & Ham1).
        destruct (IH _ _ _ _ Ham1 Hrun) as (bs' & s' & Hs' & Ham').
        exists bs', s'. split; [|done]. cbn [PSpec.run].
        fold primary. by rewrite Hs1.
      * apply (IH _ m1); [|done]. by eapply among_pause_foreign.
    + destruct m as [w fs].
      pose proof Ham as (_ & _ & Htags & _). cbn [world live] in Htags.
      destruct fs as [|o rest]; [done|].
      destruct bs as [|[] bs]; [by apply Forall2_nil_cons_inv in Htags| |].
      * destruct (among_leave_own _ _ _ _ _ _ Ham Hstep) as (s1 & Hs1 & Ham1).
        destruct (IH _ _ _ _ Ham1 Hrun) as (bs' & s' & Hs' & Ham').
        exists bs', s'. split; [|done]. cbn [PSpec.run].
        fold primary. by rewrite Hs1.
      * apply (IH _ m1); [|done]. by eapply among_leave_foreign.
    + destruct (among_wait _ _ _ _ _ Ham Hstep) as (s1 & Hs1 & Ham1).
      destruct (IH _ _ _ _ Ham1 Hrun) as (bs' & s' & Hs' & Ham').
      exists bs', s'. split; [|done]. cbn [PSpec.run].
      fold primary. by rewrite Hs1.
Qed.
End among.

Lemma among_boot t0 hs c h H :
  (∀ k K, hs !! k = Some K → current_ K = None) →
  hs !! h = Some H →
  hist_enabled H = true →
  among h (hist_samples H) c [] (boot t0 hs c) (PSpec.init t0).
Proof.
  intros Hidle Hh Hen. split_and!.
  - by apply invariant_boot.
  - apply hygiene_boot.
  - constructor.
  - exists 0. split; [|done]. apply (psim_boot t0 hs c h H); eauto.
Qed.

(** Extra X14.  Histograms measure independently.  When nested scopes and
    pause scopes of several histograms are interleaved, started from a
    context whose scope stacks are empty, the samples added to an enabled
    histogram are those that its own scopes and pause scopes would add with
    the others left out: a scope of another histogram neither pauses nor
    resumes a timer of this one.  If the histogram is the execute histogram
    of the counters, the long-task counter is its own total as well. *)
Theorem histograms_measure_independently (t0 : Z)
    (hs : gmap positive TimedHistogram) (c : Counters)
    (h : positive) (H : TimedHistogram) (es : list mevent) (m : Machine) :
  (∀ k K, hs !! k = Some K → current_ K = None) →
  hs !! h = Some H →
  hist_enabled H = true →
  run (boot t0 hs c) (to_maction <$> es) = Ok m →
  ∃ s,
    PSpec.run (bool_decide (h = execute c)) (PSpec.init t0)
              (own_events h [] es) = Some s
    ∧ samples_of h (world m) = hist_samples H ++ PSpec.recorded s
    ∧ (h = execute c → v8_execute_us (world m) = PSpec.long_task s).
Proof.
  intros Hidle Hh Hen Hrun.
  destruct (among_run h (hist_samples H) c es [] _ _ m
              (among_boot t0 hs c h H Hidle Hh Hen) Hrun)
    as (bs & s & Hs & _ & _ & _ & v0 & Hsim & Hv0).
  exists s. split; [done|].
  destruct Hsim as (_ & _ & (H' & Hh' & _ & _ & Hsam) & Hv & _).
  cbn [world] in *. unfold samples_of. rewrite Hh'. split; [done|].
  intros Hp. rewrite Hv, (Hv0 Hp). lia.
Qed.

Lemma histograms_measure_independently_witness :
  ∃ m,
    run (boot 0 ScenarioTwoHistograms.hs Example.cs)
        (to_maction <$> ScenarioTwoHistograms.events) = Ok m
    ∧ own_events 1 [] ScenarioTwoHistograms.events
      = [PEnter kSkip; PWait 10; PWait 20; PPause; PWait 5; PLeave; PWait 4;
         PLeave]
    ∧ samples_of 1 (world m) = [34]
    ∧ samples_of 2 (world m) = [25].
Proof.
  assert (∀ k K, ScenarioTwoHistograms.hs !! k = Some K → current_ K = None)
    as Hidle.
  { unfold ScenarioTwoHistograms.hs.
    intros k K [[_ <-]|[_ Hk]]%lookup_insert_Some; [done|].
    by apply lookup_singleton_Some in Hk as [_ <-]. }
  assert (∃ w, run (boot 0 ScenarioTwoHistograms.hs Example.cs)
                   (to_maction <$> ScenarioTwoHistograms.events)
               = Ok (mkMachine w [])
               ∧ samples_of 2 w = [25]) as (w & Hrun & H2)
    by (eexists; split; vm_compute; reflexivity).
  destruct (histograms_measure_independently 0 ScenarioTwoHistograms.hs
              Example.cs 1 (idle_histogram "V8.Execute" true)
              ScenarioTwoHistograms.events _ Hidle eq_refl eq_refl Hrun)
    as (s & Hs & Hsam & _).
  exists (mkMachine w []). split; [done|]. split; [reflexivity|].
  split; [|done]. rewrite Hsam.
  vm_compute in Hs. injection Hs as <-. reflexivity.
Defined.

(** ** What a nested scope logs *)

(** Extra X15.  A nested scope logs whether or not its histogram is enabled:
    whenever its constructor returns it has logged exactly one start event,
    and whenever its destructor returns exactly one end event, each with the
    name of the histogram of the scope, the isolate of the counters and the
    flag [expose_to_api] set.  A long-task nested scope logs the same. *)
Theorem nested_scope_logs_whether_enabled_or_not :
  (∀ h mode w this w1,
     Nested.ctor h mode w = Ok (this, w1) →
     ∃ k H, h = Some k
            ∧ histograms w !! k = Some H
            ∧ events w1 = events w ++ [start_event w H])
  ∧ (∀ h w this w1,
       LongTaskNested.ctor h w = Ok (this, w1) →
       ∃ k H, h = Some k
              ∧ histograms w !! k = Some H
              ∧ events w1 = events w ++ [start_event w H])
  ∧ (∀ this w w1,
       Nested.dtor this w = Ok (tt, w1) →
       ∃ self k H,
         scopes w !! this = Some self
         ∧ histogram_ (nested_base self) = Some k
         ∧ histograms w !! k = Some H
         ∧ events w1 = events w ++ [end_event w H]).
Proof.
  assert (∀ h mode w this w1,
            Nested.ctor h mode w = Ok (this, w1) →
            ∃ k H, h = Some k
                   ∧ histograms w !! k = Some H
                   ∧ events w1 = events w ++ [start_event w H]) as Hctor.
  { intros h mode w this w1. mrun. intros Hr.
    mcases; lookup_norm; eexists _, _;
      (split_and!; [done|eassumption|]); unfold start_event; mcbv;
      congruence. }
  split_and!; [exact Hctor|intros h w; apply Hctor|].
  intros this w w1 Hr.
  destruct (scopes w !! this) as [self|] eqn:Hs; [|revert Hr; by mrun].
  destruct (histogram_ (nested_base self)) as [h|] eqn:Hsh; [|revert Hr; by mrun].
  destruct (histograms w !! h) as [H|] eqn:Hh; [|revert Hr; by mrun].
  exists self, h, H. split_and!; try done.
  destruct (hist_enabled H) eqn:Hen.
  2:{ rewrite (nested_dtor_disabled _ _ _ _ _ Hs Hsh Hh Hen) in Hr.
      by injection Hr as <-. }
  destruct (long_task_record_mode_ self) eqn:Hmode;
    [|destruct (decide (h = execute (counters w))) as [Hex|Hex]; [subst h|]].
  all: destruct (phase (timer_ (nested_base self))) eqn:Hph;
    [revert Hr; by mrun| |].
  all: destruct (previous_scope_ self) as [p|] eqn:Hprev.
  all: try (destruct (decide (p = this)) as [->|Hne];
            [|destruct (scopes w !! p) as [sp|] eqn:Hp;
              [destruct (phase (timer_ (nested_base sp))) eqn:Hpp|]]).
  all: revert Hr; mrun; try done; intros [= <-].
  all: unfold end_event; mcbv; done.
Qed.

Lemma nested_scope_logs_whether_enabled_or_not_witness :
  ∃ this w1 w2,
    Nested.ctor (Some Example.H2) kSkip (world ScenarioNested.m) = Ok (this, w1)
    ∧ Nested.dtor this w1 = Ok (tt, w2)
    ∧ events w2
      = events (world ScenarioNested.m)
        ++ [mkEvent (Some Example.iso) "V8.GC" kStart true;
            mkEvent (Some Example.iso) "V8.GC" kEnd true].
Proof.
  destruct nested_scope_logs_whether_enabled_or_not as (Hctor & _ & Hdtor).
  assert (∃ w1 w2,
            Nested.ctor (Some Example.H2) kSkip (world ScenarioNested.m)
            = Ok (2%nat, w1)
            ∧ Nested.dtor 2%nat w1 = Ok (tt, w2)) as (w1 & w2 & Hc & Hd)
    by (do 2 eexists; split; vm_compute; reflexivity).
  exists 2%nat, w1, w2. split; [done|]. split; [done|].
  destruct (Hctor _ _ _ _ _ Hc) as (k & H & [= <-] & Hk & E1).
  destruct (Hdtor _ _ _ Hd) as (self & k' & H' & Hs & Hsh & Hk' & E2).
  rewrite E2, E1, <- app_assoc. f_equal.
  injection Hk as <-.
  revert Hs Hsh Hk'. revert Hc. vm_compute. intros [= <-]. vm_compute.
  intros [= <-] [= <-] [= <-]. reflexivity.
Defined.
